(** * DissertationProject: camera matrices, the deferred-lighting scene update
      and the mesh

    A shallow embedding of [Camera.h], [Camera.cpp], of the start of the
    scene, the scene update, the render entry point and the idle loop of
    [DeferredSolution.cpp], and of [Mesh.cpp].

    The C++ sources compute in [float].  Every function below is written once,
    over an interface [FloatOps] of the arithmetic the sources use, and is then
    read in two arithmetics:
    - [binary32]: IEEE 754 single precision, round to nearest even, each
      operation rounded on its own (the Standard Library's [SpecFloat] at
      precision 24, maximal exponent 128).  This is what the program runs;
    - [exact]: the real numbers, the arithmetic the matrix identities of the
      camera are meant in ("within floating-point tolerance").

    Direct3D, D3DX and the C mathematics library are outside the repository:
    their entry points are fields of the interfaces [D3DXOps], [Libm] and
    [D3D11].
    [MathDX.h], [CVector3.h], [Input.h] and [CTimer.h] belong to the repository
    but their text is not available: what the sources use of them is a field
    of [MathDX] or an input of the frame. *)

From Stdlib Require Import ZArith NArith Bool Lia Reals Lra Floats.SpecFloat.
From Stdlib Require Strings.Byte.
From stdpp Require Import base list strings.

Set Default Proof Using "Type".

(** ** The arithmetic of [float] *)

(** What the sources do with a [float]: the four operations, unary minus,
    [<], conversion from [int], and literals.  [literal n d] is the literal
    whose decimal value is [n/d] ([1.333f] is [literal 1333 1000]). *)
Class FloatOps (float : Type) := {
  fadd : float → float → float;
  fsub : float → float → float;
  fmul : float → float → float;
  fdiv : float → float → float;
  fneg : float → float;
  flt : float → float → bool;
  float_of_int : Z → float;
  literal : Z → positive → float;
}.

Declare Scope float_scope.
Delimit Scope float_scope with fl.
Infix "+" := fadd : float_scope.
Infix "-" := fsub : float_scope.
Infix "*" := fmul : float_scope.
Infix "/" := fdiv : float_scope.
Notation "- x" := (fneg x) : float_scope.
Infix "<?" := flt : float_scope.

(** ** Vectors and matrices *)

(** [D3DXVECTOR3]: three floats. *)
Record D3DXVECTOR3 {float : Type} := mkD3DXVECTOR3 { x : float; y : float; z : float }.
Arguments D3DXVECTOR3 : clear implicits.
Arguments mkD3DXVECTOR3 {float}.

(** [D3DXMATRIX]: sixteen floats, [_rc] in row [r] and column [c]; D3DX
    multiplies a row vector by the matrix, so row 4 holds the translation. *)
Record D3DXMATRIX {float : Type} := mkD3DXMATRIX {
  _11 : float; _12 : float; _13 : float; _14 : float;
  _21 : float; _22 : float; _23 : float; _24 : float;
  _31 : float; _32 : float; _33 : float; _34 : float;
  _41 : float; _42 : float; _43 : float; _44 : float;
}.
Arguments D3DXMATRIX : clear implicits.
Arguments mkD3DXMATRIX {float}.

(** Assignments to one entry of a matrix, as the stereo accessors make them. *)
Definition set_31 {float} (m : D3DXMATRIX float) (v : float) : D3DXMATRIX float :=
  mkD3DXMATRIX (_11 m) (_12 m) (_13 m) (_14 m) (_21 m) (_22 m) (_23 m) (_24 m)
               v       (_32 m) (_33 m) (_34 m) (_41 m) (_42 m) (_43 m) (_44 m).

Definition set_41_42_43 {float} (m : D3DXMATRIX float) (a b c : float) : D3DXMATRIX float :=
  mkD3DXMATRIX (_11 m) (_12 m) (_13 m) (_14 m) (_21 m) (_22 m) (_23 m) (_24 m)
               (_31 m) (_32 m) (_33 m) (_34 m) a       b       c       (_44 m).

(** ** The libraries the camera calls *)

(** The entry points of D3DX that [Camera.cpp] calls.  [D3DXMatrixMultiply] is
    [operator*] of [D3DXMATRIX].  [D3DXMatrixInverse] returns [NULL] and leaves
    its output alone when it finds no inverse: [None]. *)
Class D3DXOps (float : Type) := {
  D3DXMatrixRotationX : float → D3DXMATRIX float;
  D3DXMatrixRotationY : float → D3DXMATRIX float;
  D3DXMatrixRotationZ : float → D3DXMATRIX float;
  D3DXMatrixTranslation : float → float → float → D3DXMATRIX float;
  D3DXMatrixMultiply : D3DXMATRIX float → D3DXMATRIX float → D3DXMATRIX float;
  D3DXMatrixInverse : D3DXMATRIX float → option (D3DXMATRIX float);
  D3DXMatrixPerspectiveFovLH : float → float → float → float → D3DXMATRIX float;
}.

Infix "×" := D3DXMatrixMultiply (at level 40, left associativity) : float_scope.

(** [tanf] and [fmodf] of the C library. *)
Class Libm (float : Type) := {
  tanf : float → float;
  fmodf : float → float → float;
}.

(** ** Camera.h, Camera.cpp *)

Inductive EStereoscopic := Monoscopic | StereoscopicLeft | StereoscopicRight.

#[global] Instance EStereoscopic_eq_dec : EqDecision EStereoscopic.
Proof. solve_decision. Defined.

(** The members of [EKeyCode] ([Input.h]) that the sources name. *)
Inductive EKeyCode :=
  | Key_Up | Key_Down | Key_Left | Key_Right
  | Key_W | Key_S | Key_A | Key_D | Key_Back | Key_Escape.

Record CCamera {float : Type} := mkCCamera {
  m_Position : D3DXVECTOR3 float;
  m_Rotation : D3DXVECTOR3 float;
  m_FOV : float;
  m_Aspect : float;
  m_NearClip : float;
  m_FarClip : float;
  m_WorldMatrix : D3DXMATRIX float;
  m_ViewMatrix : D3DXMATRIX float;
  m_ProjMatrix : D3DXMATRIX float;
  m_ViewProjMatrix : D3DXMATRIX float;
}.
Arguments CCamera : clear implicits.
Arguments mkCCamera {float}.

Section Camera.
Context {float : Type} `{!FloatOps float, !D3DXOps float, !Libm float}.
Local Open Scope float_scope.

(** Defines.h *)
Definition MoveSpeed : float := literal 120 1.
Definition RotSpeed : float := literal 13 10.

(** [D3DX_PI] is [((FLOAT) 3.141592654f)]. *)
Definition D3DX_PI : float := literal 3141592654 1000000000.

Implicit Types (c : CCamera float) (v : D3DXVECTOR3 float).

Definition SetPosition v c : CCamera float :=
  mkCCamera v (m_Rotation c) (m_FOV c) (m_Aspect c) (m_NearClip c) (m_FarClip c)
    (m_WorldMatrix c) (m_ViewMatrix c) (m_ProjMatrix c) (m_ViewProjMatrix c).

Definition SetRotation v c : CCamera float :=
  mkCCamera (m_Position c) v (m_FOV c) (m_Aspect c) (m_NearClip c) (m_FarClip c)
    (m_WorldMatrix c) (m_ViewMatrix c) (m_ProjMatrix c) (m_ViewProjMatrix c).

Definition SetFOV (fov : float) c : CCamera float :=
  mkCCamera (m_Position c) (m_Rotation c) fov (m_Aspect c) (m_NearClip c) (m_FarClip c)
    (m_WorldMatrix c) (m_ViewMatrix c) (m_ProjMatrix c) (m_ViewProjMatrix c).

Definition SetNearClip (nearClip : float) c : CCamera float :=
  mkCCamera (m_Position c) (m_Rotation c) (m_FOV c) (m_Aspect c) nearClip (m_FarClip c)
    (m_WorldMatrix c) (m_ViewMatrix c) (m_ProjMatrix c) (m_ViewProjMatrix c).

Definition SetFarClip (farClip : float) c : CCamera float :=
  mkCCamera (m_Position c) (m_Rotation c) (m_FOV c) (m_Aspect c) (m_NearClip c) farClip
    (m_WorldMatrix c) (m_ViewMatrix c) (m_ProjMatrix c) (m_ViewProjMatrix c).

Definition GetRotation c := m_Rotation c.
Definition GetFacing c : D3DXVECTOR3 float :=
  mkD3DXVECTOR3 (_13 (m_ViewMatrix c)) (_23 (m_ViewMatrix c)) (_33 (m_ViewMatrix c)).
Definition GetFOV c := m_FOV c.
Definition GetNearClip c := m_NearClip c.
Definition GetFarClip c := m_FarClip c.

(** [UpdateMatrices] reads the globals [g_ViewportWidth] and
    [g_ViewportHeight] (both [int]) into the local [aspect], and passes
    [m_Aspect] to D3DX.  [D3DXMatrixInverse] writes [m_ViewMatrix] only when
    it finds an inverse; its return value is not looked at. *)
Definition UpdateMatrices (g_ViewportWidth g_ViewportHeight : Z) c : CCamera float :=
  let matrixXRot := D3DXMatrixRotationX (x (m_Rotation c)) in
  let matrixYRot := D3DXMatrixRotationY (y (m_Rotation c)) in
  let matrixZRot := D3DXMatrixRotationZ (z (m_Rotation c)) in
  let matrixTranslation :=
    D3DXMatrixTranslation (x (m_Position c)) (y (m_Position c)) (z (m_Position c)) in
  let worldMatrix := matrixZRot × matrixXRot × matrixYRot × matrixTranslation in
  let viewMatrix := default (m_ViewMatrix c) (D3DXMatrixInverse worldMatrix) in
  let aspect := float_of_int g_ViewportWidth / float_of_int g_ViewportHeight in
  let projMatrix :=
    D3DXMatrixPerspectiveFovLH (m_FOV c) (m_Aspect c) (m_NearClip c) (m_FarClip c) in
  mkCCamera (m_Position c) (m_Rotation c) (m_FOV c) (m_Aspect c) (m_NearClip c) (m_FarClip c)
    worldMatrix viewMatrix projMatrix (viewMatrix × projMatrix).

(** The constructor.  [storage] is the object before construction: the
    constructor assigns every scalar member, and [UpdateMatrices] every
    matrix, except [m_ViewMatrix] when no inverse is found. *)
Definition new_CCamera (storage : CCamera float) (g_ViewportWidth g_ViewportHeight : Z)
    (position rotation : D3DXVECTOR3 float) (fov nearClip farClip : float) : CCamera float :=
  let c := mkCCamera position rotation (m_FOV storage) (literal 1333 1000)
             (m_NearClip storage) (m_FarClip storage)
             (m_WorldMatrix storage) (m_ViewMatrix storage)
             (m_ProjMatrix storage) (m_ViewProjMatrix storage) in
  UpdateMatrices g_ViewportWidth g_ViewportHeight
    (SetFarClip farClip (SetNearClip nearClip (SetFOV fov c))).

(** The defaults of the constructor's declaration. *)
Definition default_CCamera storage (g_ViewportWidth g_ViewportHeight : Z) : CCamera float :=
  new_CCamera storage g_ViewportWidth g_ViewportHeight
    (mkD3DXVECTOR3 (float_of_int 0) (float_of_int 0) (float_of_int 0))
    (mkD3DXVECTOR3 (float_of_int 0) (float_of_int 0) (float_of_int 0))
    (D3DX_PI / float_of_int 4) (literal 1 1) (literal 50000 1).

(** [interocular * (stereo == StereoscopicLeft ? -0.5f : 0.5f)] *)
Definition stereo_offset (stereo : EStereoscopic) (interocular : float) : float :=
  interocular * (if decide (stereo = StereoscopicLeft) then - literal 1 2 else literal 1 2).

Definition GetPosition (stereo : EStereoscopic) (interocular : float) c : D3DXVECTOR3 float :=
  if decide (stereo = Monoscopic) then m_Position c else
  let offset := stereo_offset stereo interocular in
  let position := m_Position c in
  mkD3DXVECTOR3 (x position + _11 (m_WorldMatrix c) * offset)
                (y position + _12 (m_WorldMatrix c) * offset)
                (z position + _13 (m_WorldMatrix c) * offset).

Definition GetWorldMatrix (stereo : EStereoscopic) (interocular : float) c : D3DXMATRIX float :=
  if decide (stereo = Monoscopic) then m_WorldMatrix c else
  let offset := stereo_offset stereo interocular in
  let worldMatrix := m_WorldMatrix c in
  set_41_42_43 worldMatrix
    (_41 worldMatrix + _11 worldMatrix * offset)
    (_42 worldMatrix + _12 worldMatrix * offset)
    (_43 worldMatrix + _13 worldMatrix * offset).

(** The local [viewMatrix] is not initialised: [junk] is what it holds when
    [D3DXMatrixInverse] leaves it alone. *)
Definition GetViewMatrix (junk : D3DXMATRIX float)
    (stereo : EStereoscopic) (interocular : float) c : D3DXMATRIX float :=
  if decide (stereo = Monoscopic) then m_ViewMatrix c else
  let offset := stereo_offset stereo interocular in
  let worldMatrix := m_WorldMatrix c in
  let worldMatrix := set_41_42_43 worldMatrix
    (_41 worldMatrix + _11 worldMatrix * offset)
    (_42 worldMatrix + _12 worldMatrix * offset)
    (_43 worldMatrix + _13 worldMatrix * offset) in
  default junk (D3DXMatrixInverse worldMatrix).

Definition GetProjectionMatrix (stereo : EStereoscopic) (interocular screenDistance : float) c
    : D3DXMATRIX float :=
  if decide (stereo = Monoscopic) then m_ProjMatrix c else
  let offset := stereo_offset stereo interocular in
  let projMatrix := m_ProjMatrix c in
  set_31 projMatrix
    ((offset / screenDistance) / (m_Aspect c * tanf (m_FOV c / float_of_int 2))).

Definition GetViewProjectionMatrix (junk : D3DXMATRIX float)
    (stereo : EStereoscopic) (interocular screenDistance : float) c : D3DXMATRIX float :=
  if decide (stereo = Monoscopic) then m_ViewProjMatrix c else
  GetViewMatrix junk stereo interocular c × GetProjectionMatrix stereo interocular screenDistance c.

(** [m_Position += row * MoveSpeed * frameTime], componentwise, and the
    same with [-=]. *)
Definition move (plus : bool) (rx ry rz : float) (frameTime : float) v : D3DXVECTOR3 float :=
  let op := if plus then fadd else fsub in
  mkD3DXVECTOR3 (op (x v) (rx * MoveSpeed * frameTime))
                (op (y v) (ry * MoveSpeed * frameTime))
                (op (z v) (rz * MoveSpeed * frameTime)).

(** [Control]: eight tests of [KeyHeld], in the order of the source. *)
Definition Control (KeyHeld : EKeyCode → bool) (frameTime : float)
    (turnUp turnDown turnLeft turnRight moveForward moveBackward moveLeft moveRight : EKeyCode)
    c : CCamera float :=
  let w := m_WorldMatrix c in
  let r := m_Rotation c in
  let r := if KeyHeld turnDown then mkD3DXVECTOR3 (x r + RotSpeed * frameTime) (y r) (z r) else r in
  let r := if KeyHeld turnUp then mkD3DXVECTOR3 (x r - RotSpeed * frameTime) (y r) (z r) else r in
  let r := if KeyHeld turnRight then mkD3DXVECTOR3 (x r) (y r + RotSpeed * frameTime) (z r) else r in
  let r := if KeyHeld turnLeft then mkD3DXVECTOR3 (x r) (y r - RotSpeed * frameTime) (z r) else r in
  let p := m_Position c in
  let p := if KeyHeld moveRight then move true (_11 w) (_12 w) (_13 w) frameTime p else p in
  let p := if KeyHeld moveLeft then move false (_11 w) (_12 w) (_13 w) frameTime p else p in
  let p := if KeyHeld moveForward then move true (_31 w) (_32 w) (_33 w) frameTime p else p in
  let p := if KeyHeld moveBackward then move false (_31 w) (_32 w) (_33 w) frameTime p else p in
  SetRotation r (SetPosition p c).

End Camera.

(** ** DeferredSolution.cpp: the light population *)

(** [CVector3] and [CVector4] ([CVector3.h], [CVector4.h]): the sources build
    them from three and four floats and never take them apart. *)
Record CVector3 {float : Type} := mkCVector3 { cx : float; cy : float; cz : float }.
Arguments CVector3 : clear implicits.
Arguments mkCVector3 {float}.

Record CVector4 {float : Type} :=
  mkCVector4 { c4x : float; c4y : float; c4z : float; c4w : float }.
Arguments CVector4 : clear implicits.
Arguments mkCVector4 {float}.

Record SPointLight {float : Type} := mkSPointLight {
  position : CVector3 float;
  radius : float;
  colour : CVector4 float;
}.
Arguments SPointLight : clear implicits.
Arguments mkSPointLight {float}.

(** The order in which a call evaluates three arguments that have effects,
    named by the places of the arguments in the order they are taken:
    [Order_123] is left to right, [Order_321] right to left.  C++ does not
    fix it; the calls of the arguments do not overlap. *)
Inductive ArgumentOrder :=
  | Order_123 | Order_132 | Order_213 | Order_231 | Order_312 | Order_321.

(** What [UpdateScene] uses of [MathDX.h] and [CVector3.h]: [Length],
    [MatrixRotationY], [TransformVector], and [Random], which draws from a
    generator whose state is [Rng]; and the order in which the compiled
    program evaluates the arguments of [CVector3(...)] for the position of a
    new light and of [CVector4(...)] for its colour, each of which calls
    [Random] three times. *)
Class MathDX (float : Type) := {
  CMatrix4x4 : Type;
  Rng : Type;
  Length : CVector3 float → float;
  MatrixRotationY : float → CMatrix4x4;
  TransformVector : CMatrix4x4 → CVector3 float → CVector3 float;
  Random : float → float → Rng → float * Rng;
  position_arguments : ArgumentOrder;
  colour_arguments : ArgumentOrder;
}.

(** What a call leaves behind: it returns, or the loop inside it is still
    running when the fuel is spent, or it has written through a pointer that
    maps nothing, after which C++ promises nothing. *)
Inductive Outcome (A : Type) :=
  | Returns (a : A)
  | Spins
  | Undefined.
Arguments Returns {A}.
Arguments Spins {A}.
Arguments Undefined {A}.

#[global] Instance Outcome_ret : MRet Outcome := λ A a, Returns a.

#[global] Instance Outcome_bind : MBind Outcome := λ A B k o,
  match o with
  | Returns a => k a
  | Spins => Spins
  | Undefined => Undefined
  end.

(** The globals of [DeferredSolution.cpp] that [UpdateScene] reads or writes,
    with its static local [emit] and the generator behind [Random].
    [LightVertexBuffer] is the content of the GPU buffer, as far as it is
    defined.  The frame-time statistics and the window title, which nothing
    else reads, are left out. *)
Record Scene {float : Type} `{!MathDX float} := mkScene {
  MainCamera : CCamera float;
  NumPointLights : Z;
  PointLights : list (SPointLight float);
  emit : float;
  LightVertexBuffer : list (SPointLight float);
  Deferred : bool;
  rng : Rng;
}.
Arguments Scene float {_}.
Arguments mkScene {float _}.

(** What one run of the idle branch is given from outside: the lap time, the
    keyboard, the viewport globals, the [HRESULT] of [Map], and what a matrix
    local holds before it is written. *)
Record Frame {float : Type} := mkFrame {
  frameTime : float;
  KeyHeld : EKeyCode → bool;
  KeyHit : EKeyCode → bool;
  g_ViewportWidth : Z;
  g_ViewportHeight : Z;
  Map_hr : Z;
  stack : D3DXMATRIX float;
}.
Arguments Frame : clear implicits.
Arguments mkFrame {float}.

(** [FAILED(hr)] *)
Definition FAILED (hr : Z) : bool := (hr <? 0)%Z.

Section Lights.
Context {float : Type} `{!FloatOps float, !D3DXOps float, !Libm float, !MathDX float}.
Local Open Scope float_scope.

Definition LightSpawnFreq : float := literal 5000 1.
Definition MaxPointLights : Z := 25600.

Implicit Types (s : Scene float) (l : SPointLight float) (f : Frame float).

(** The array is in static storage: the first element is initialised, the
    others are zero. *)
Definition zero_light : SPointLight float :=
  mkSPointLight (mkCVector3 (float_of_int 0) (float_of_int 0) (float_of_int 0))
    (float_of_int 0)
    (mkCVector4 (float_of_int 0) (float_of_int 0) (float_of_int 0) (float_of_int 0)).

Definition seed_light : SPointLight float :=
  mkSPointLight
    (mkCVector3 (float_of_int (-18000)) (float_of_int 4000) (float_of_int 6000))
    (float_of_int 25000)
    (mkCVector4 (literal 4 10) (literal 4 10) (literal 7 10) (float_of_int 0)).

Definition initial_PointLights : list (SPointLight float) :=
  seed_light :: replicate (Z.to_nat MaxPointLights - 1) zero_light.

(** The scene when the idle loop starts: [InitScene] has built the camera
    and set its position and rotation (no [UpdateMatrices] after that), and
    has created the GPU buffer from the whole array. *)
Definition initial_Scene (camera : CCamera float) (g : Rng) : Scene float :=
  mkScene camera 1 initial_PointLights (literal 1 1 / LightSpawnFreq)
    initial_PointLights true g.

(** *** The spawn step *)

(** Three arguments that draw from the generator, evaluated in the given
    order; the values are returned in the places of the arguments. *)
Definition arguments (order : ArgumentOrder) (a1 a2 a3 : Rng → float * Rng) (g : Rng)
    : float * float * float * Rng :=
  match order with
  | Order_123 =>
      let '(v1, g) := a1 g in let '(v2, g) := a2 g in let '(v3, g) := a3 g in
      (v1, v2, v3, g)
  | Order_132 =>
      let '(v1, g) := a1 g in let '(v3, g) := a3 g in let '(v2, g) := a2 g in
      (v1, v2, v3, g)
  | Order_213 =>
      let '(v2, g) := a2 g in let '(v1, g) := a1 g in let '(v3, g) := a3 g in
      (v1, v2, v3, g)
  | Order_231 =>
      let '(v2, g) := a2 g in let '(v3, g) := a3 g in let '(v1, g) := a1 g in
      (v1, v2, v3, g)
  | Order_312 =>
      let '(v3, g) := a3 g in let '(v1, g) := a1 g in let '(v2, g) := a2 g in
      (v1, v2, v3, g)
  | Order_321 =>
      let '(v3, g) := a3 g in let '(v2, g) := a2 g in let '(v1, g) := a1 g in
      (v1, v2, v3, g)
  end.

(** The light that one pass of the [if] inside the loop writes: the three
    statements one after the other, the arguments of each constructor in the
    order of the compiled program.  The fourth argument of [CVector4(...)]
    is the constant 0. *)
Definition new_light (g : Rng) : SPointLight float * Rng :=
  let '(px, py, pz, g) :=
    arguments position_arguments
      (Random (literal (-600) 1) (literal 600 1))
      (Random (literal 5 1) (literal 40 1))
      (Random (literal (-600) 1) (literal 600 1)) g in
  let '(r, g) := Random (literal 20 1) (literal 40 1) g in
  let '(cr, cg, cb, g) :=
    arguments colour_arguments
      (Random (literal 4 10) (literal 1 1))
      (Random (literal 4 10) (literal 1 1))
      (Random (literal 4 10) (literal 1 1)) g in
  (mkSPointLight (mkCVector3 px py pz) r (mkCVector4 cr cg cb (float_of_int 0)), g).

(** [PointLights[NumPointLights] = ...; NumPointLights++;] *)
Definition spawn_one s : Scene float :=
  let '(l, g) := new_light (rng s) in
  mkScene (MainCamera s) (NumPointLights s + 1)
    (<[Z.to_nat (NumPointLights s) := l]> (PointLights s))
    (emit s) (LightVertexBuffer s) (Deferred s) g.

Definition set_emit (e : float) s : Scene float :=
  mkScene (MainCamera s) (NumPointLights s) (PointLights s) e
    (LightVertexBuffer s) (Deferred s) (rng s).

(** [while (emit < 0) { if (NumPointLights < MaxPointLights) {...}
    emit += 1.0f / LightSpawnFreq; }].  [None]: the loop has not left after
    [fuel] passes. *)
Fixpoint spawn_loop (fuel : nat) s : option (Scene float) :=
  if emit s <? float_of_int 0 then
    match fuel with
    | O => None
    | S fuel =>
        let s := if (NumPointLights s <? MaxPointLights)%Z then spawn_one s else s in
        spawn_loop fuel (set_emit (emit s + literal 1 1 / LightSpawnFreq) s)
    end
  else Some s.

Definition spawn (fuel : nat) (frameTime : float) s : option (Scene float) :=
  spawn_loop fuel (set_emit (emit s - frameTime) s).

(** *** The orbit step *)

Definition rotateSpeed (dist : float) : float :=
  (fmodf dist (literal 1 1) + - literal 1 2) * literal 200 1 / (dist + literal 1 10).

Definition orbit_light (frameTime : float) l : SPointLight float :=
  let dist := Length (position l) in
  mkSPointLight
    (TransformVector (MatrixRotationY (rotateSpeed dist * frameTime)) (position l))
    (radius l) (colour l).

(** [for (int i = 1; i < NumPointLights; i++)]: [n] passes from index [i]. *)
Fixpoint orbit_from (n i : nat) (frameTime : float) (lights : list (SPointLight float))
    : list (SPointLight float) :=
  match n with
  | O => lights
  | S n => orbit_from n (S i) frameTime (alter (orbit_light frameTime) i lights)
  end.

Definition orbit (frameTime : float) s : Scene float :=
  mkScene (MainCamera s) (NumPointLights s)
    (orbit_from (Z.to_nat (NumPointLights s - 1)) 1 frameTime (PointLights s))
    (emit s) (LightVertexBuffer s) (Deferred s) (rng s).

(** *** The upload *)

(** [Map] with [D3D11_MAP_WRITE_DISCARD], [CopyMemory] of the first
    [NumPointLights] records, [Unmap].  The [HRESULT] is dropped.  When
    [Map] succeeds the buffer holds the records copied and nothing else that
    is defined; when it fails, [mappedData] is as the stack left it and
    [CopyMemory] writes through it. *)
Definition upload (hr : Z) s : Outcome (Scene float) :=
  if FAILED hr then Undefined
  else Returns (mkScene (MainCamera s) (NumPointLights s) (PointLights s) (emit s)
                  (take (Z.to_nat (NumPointLights s)) (PointLights s))
                  (Deferred s) (rng s)).

(** *** UpdateScene *)

Definition update_camera f s : Scene float :=
  mkScene
    (UpdateMatrices (g_ViewportWidth f) (g_ViewportHeight f)
       (Control (KeyHeld f) (frameTime f)
          Key_Up Key_Down Key_Left Key_Right Key_W Key_S Key_A Key_D (MainCamera s)))
    (NumPointLights s) (PointLights s) (emit s) (LightVertexBuffer s) (Deferred s) (rng s).

Definition toggle_deferred f s : Scene float :=
  mkScene (MainCamera s) (NumPointLights s) (PointLights s) (emit s) (LightVertexBuffer s)
    (if KeyHit f Key_Back then negb (Deferred s) else Deferred s) (rng s).

Definition UpdateScene (fuel : nat) f s : Outcome (Scene float) :=
  let s := update_camera f s in
  match spawn fuel (frameTime f) s with
  | None => Spins
  | Some s =>
      s ← upload (Map_hr f) (orbit (frameTime f) s);
      Returns (toggle_deferred f s)
  end.

(** [UpdateScene] called once for each frame of the list, in order. *)
Fixpoint run (fuel : nat) (frames : list (Frame float)) s : Outcome (Scene float) :=
  match frames with
  | [] => Returns s
  | f :: frames => s ← UpdateScene fuel f s; run fuel frames s
  end.

End Lights.

(** ** DeferredSolution.cpp: rendering and the idle loop *)

(** The draws [RenderScene] issues, with the lights each one is given. *)
Inductive Pass {float : Type} :=
  | LevelPixelLit (n : Z) (lights : list (SPointLight float))
  | LevelGBuffer
  | AmbientQuad
  | PointLightQuads (n : Z) (buffer : list (SPointLight float))
  | SkyboxPixelLit
  | LightFlares (n : Z) (buffer : list (SPointLight float))
  | Present.
Arguments Pass : clear implicits.

(** What one call of [RenderScene] hands to the effect and to the device. *)
Record Drawn {float : Type} := mkDrawn {
  ViewMatrixVar : D3DXMATRIX float;
  InvViewMatrixVar : D3DXMATRIX float;
  ProjMatrixVar : D3DXMATRIX float;
  ViewProjMatrixVar : D3DXMATRIX float;
  CameraPosVar : D3DXVECTOR3 float;
  CameraNearClipVar : float;
  passes : list (Pass float);
}.
Arguments Drawn : clear implicits.
Arguments mkDrawn {float}.

(** What the idle loop does, in the order it does it. *)
Inductive Event {float : Type} :=
  | DispatchMessage
  | CallRenderScene (d : Drawn float)
  | CallUpdateScene (frameTime : float)
  | DestroyWindow.
Arguments Event : clear implicits.

(** What [PeekMessage] answers on one pass of the loop. *)
Inductive Peeked {float : Type} :=
  | Message (is_WM_QUIT : bool)
  | NoMessage (f : Frame float).
Arguments Peeked : clear implicits.

Section Loop.
Context {float : Type} `{!FloatOps float, !D3DXOps float, !Libm float, !MathDX float}.
Local Open Scope float_scope.

Implicit Types (s : Scene float) (f : Frame float).

(** The accessors are called with their default arguments. *)
Definition RenderScene (junk : D3DXMATRIX float) s : Drawn float :=
  let c := MainCamera s in
  let n := NumPointLights s in
  mkDrawn
    (GetViewMatrix junk Monoscopic (literal 65 100) c)
    (GetWorldMatrix Monoscopic (literal 65 100) c)
    (GetProjectionMatrix Monoscopic (literal 65 100) (literal 20 1) c)
    (GetViewProjectionMatrix junk Monoscopic (literal 65 100) (literal 20 1) c)
    (GetPosition Monoscopic (literal 65 100) c)
    (GetNearClip c)
    ((if negb (Deferred s)
      then [LevelPixelLit n (take (Z.to_nat n) (PointLights s))]
      else [LevelGBuffer; AmbientQuad; PointLightQuads n (LightVertexBuffer s)])
     ++ [SkyboxPixelLit; LightFlares n (LightVertexBuffer s); Present]).

(** The [else] branch of the loop: [RenderScene], [GetLapTime],
    [UpdateScene], and [DestroyWindow] on Escape.  The events are kept also
    when [UpdateScene] does not return. *)
Definition idle (fuel : nat) f s : list (Event float) * Outcome (Scene float) :=
  let d := RenderScene (stack f) s in
  match UpdateScene fuel f s with
  | Returns s' =>
      ([CallRenderScene d; CallUpdateScene (frameTime f)]
         ++ (if KeyHit f Key_Escape then [DestroyWindow] else []),
       Returns s')
  | o => ([CallRenderScene d; CallUpdateScene (frameTime f)], o)
  end.

(** [while (WM_QUIT != msg.message)]: the message that ends the loop is
    dispatched like any other.  The loop is followed for as long as the
    list of answers of [PeekMessage] lasts. *)
Fixpoint wWinMain_loop (fuel : nat) (peeks : list (Peeked float)) s
    : list (Event float) * Outcome (Scene float) :=
  match peeks with
  | [] => ([], Returns s)
  | Message is_WM_QUIT :: peeks =>
      if is_WM_QUIT then ([DispatchMessage], Returns s)
      else let '(t, o) := wWinMain_loop fuel peeks s in (DispatchMessage :: t, o)
  | NoMessage f :: peeks =>
      match idle fuel f s with
      | (t, Returns s') =>
          let '(t', o) := wWinMain_loop fuel peeks s' in (t ++ t', o)
      | (t, o) => (t, o)
      end
  end.

End Loop.

(** ** D3DX as documented *)

(** The matrices that the D3DX reference gives for the entry points of
    [D3DXOps], computed in the arithmetic at hand from given [sin], [cos] and
    [tan]; [is_zero] is the test of the determinant. *)
Section Documented.
Context {float : Type} `{!FloatOps float}.
Variables (sin cos tan : float → float) (is_zero : float → bool).
Local Open Scope float_scope.

Let O : float := float_of_int 0.
Let I : float := float_of_int 1.

Definition identity : D3DXMATRIX float :=
  mkD3DXMATRIX I O O O  O I O O  O O I O  O O O I.

Definition rotation_x (a : float) : D3DXMATRIX float :=
  mkD3DXMATRIX I O O O  O (cos a) (sin a) O  O (- sin a) (cos a) O  O O O I.

Definition rotation_y (a : float) : D3DXMATRIX float :=
  mkD3DXMATRIX (cos a) O (- sin a) O  O I O O  (sin a) O (cos a) O  O O O I.

Definition rotation_z (a : float) : D3DXMATRIX float :=
  mkD3DXMATRIX (cos a) (sin a) O O  (- sin a) (cos a) O O  O O I O  O O O I.

Definition translation (tx ty tz : float) : D3DXMATRIX float :=
  mkD3DXMATRIX I O O O  O I O O  O O I O  tx ty tz I.

Definition dot4 (a1 a2 a3 a4 b1 b2 b3 b4 : float) : float :=
  a1 * b1 + a2 * b2 + a3 * b3 + a4 * b4.

Definition multiply (a b : D3DXMATRIX float) : D3DXMATRIX float :=
  mkD3DXMATRIX
    (dot4 (_11 a) (_12 a) (_13 a) (_14 a) (_11 b) (_21 b) (_31 b) (_41 b))
    (dot4 (_11 a) (_12 a) (_13 a) (_14 a) (_12 b) (_22 b) (_32 b) (_42 b))
    (dot4 (_11 a) (_12 a) (_13 a) (_14 a) (_13 b) (_23 b) (_33 b) (_43 b))
    (dot4 (_11 a) (_12 a) (_13 a) (_14 a) (_14 b) (_24 b) (_34 b) (_44 b))
    (dot4 (_21 a) (_22 a) (_23 a) (_24 a) (_11 b) (_21 b) (_31 b) (_41 b))
    (dot4 (_21 a) (_22 a) (_23 a) (_24 a) (_12 b) (_22 b) (_32 b) (_42 b))
    (dot4 (_21 a) (_22 a) (_23 a) (_24 a) (_13 b) (_23 b) (_33 b) (_43 b))
    (dot4 (_21 a) (_22 a) (_23 a) (_24 a) (_14 b) (_24 b) (_34 b) (_44 b))
    (dot4 (_31 a) (_32 a) (_33 a) (_34 a) (_11 b) (_21 b) (_31 b) (_41 b))
    (dot4 (_31 a) (_32 a) (_33 a) (_34 a) (_12 b) (_22 b) (_32 b) (_42 b))
    (dot4 (_31 a) (_32 a) (_33 a) (_34 a) (_13 b) (_23 b) (_33 b) (_43 b))
    (dot4 (_31 a) (_32 a) (_33 a) (_34 a) (_14 b) (_24 b) (_34 b) (_44 b))
    (dot4 (_41 a) (_42 a) (_43 a) (_44 a) (_11 b) (_21 b) (_31 b) (_41 b))
    (dot4 (_41 a) (_42 a) (_43 a) (_44 a) (_12 b) (_22 b) (_32 b) (_42 b))
    (dot4 (_41 a) (_42 a) (_43 a) (_44 a) (_13 b) (_23 b) (_33 b) (_43 b))
    (dot4 (_41 a) (_42 a) (_43 a) (_44 a) (_14 b) (_24 b) (_34 b) (_44 b)).

(** The determinant of three columns of three rows. *)
Definition det3 (a b c  d e f  g h i : float) : float :=
  a * (e * i - f * h) - b * (d * i - f * g) + c * (d * h - e * g).

(** Expansion along the first row. *)
Definition determinant (m : D3DXMATRIX float) : float :=
  _11 m * det3 (_22 m) (_23 m) (_24 m) (_32 m) (_33 m) (_34 m) (_42 m) (_43 m) (_44 m)
  - _12 m * det3 (_21 m) (_23 m) (_24 m) (_31 m) (_33 m) (_34 m) (_41 m) (_43 m) (_44 m)
  + _13 m * det3 (_21 m) (_22 m) (_24 m) (_31 m) (_32 m) (_34 m) (_41 m) (_42 m) (_44 m)
  - _14 m * det3 (_21 m) (_22 m) (_23 m) (_31 m) (_32 m) (_33 m) (_41 m) (_42 m) (_43 m).

(** The transposed matrix of cofactors, each entry divided by [d]. *)
Definition adjugate_over (d : float) (m : D3DXMATRIX float) : D3DXMATRIX float :=
  let a := _11 m in let b := _12 m in let c := _13 m in let e := _14 m in
  let f := _21 m in let g := _22 m in let h := _23 m in let i := _24 m in
  let j := _31 m in let k := _32 m in let l := _33 m in let n := _34 m in
  let p := _41 m in let q := _42 m in let r := _43 m in let t := _44 m in
  mkD3DXMATRIX
    (det3 g h i k l n q r t / d) (- det3 b c e k l n q r t / d)
    (det3 b c e g h i q r t / d) (- det3 b c e g h i k l n / d)
    (- det3 f h i j l n p r t / d) (det3 a c e j l n p r t / d)
    (- det3 a c e f h i p r t / d) (det3 a c e f h i j l n / d)
    (det3 f g i j k n p q t / d) (- det3 a b e j k n p q t / d)
    (det3 a b e f g i p q t / d) (- det3 a b e f g i j k n / d)
    (- det3 f g h j k l p q r / d) (det3 a b c j k l p q r / d)
    (- det3 a b c f g h p q r / d) (det3 a b c f g h j k l / d).

Definition inverse (m : D3DXMATRIX float) : option (D3DXMATRIX float) :=
  let d := determinant m in
  if is_zero d then None else Some (adjugate_over d m).

(** [yScale = cot(fovY/2)], [xScale = yScale / aspect]. *)
Definition perspective_fov_lh (fovy aspect zn zf : float) : D3DXMATRIX float :=
  let yScale := I / tan (fovy / float_of_int 2) in
  let xScale := yScale / aspect in
  mkD3DXMATRIX xScale O O O  O yScale O O  O O (zf / (zf - zn)) I
               O O (- zn * zf / (zf - zn)) O.

Definition documented : D3DXOps float := {|
  D3DXMatrixRotationX := rotation_x;
  D3DXMatrixRotationY := rotation_y;
  D3DXMatrixRotationZ := rotation_z;
  D3DXMatrixTranslation := translation;
  D3DXMatrixMultiply := multiply;
  D3DXMatrixInverse := inverse;
  D3DXMatrixPerspectiveFovLH := perspective_fov_lh;
|}.

End Documented.

(** ** IEEE 754 binary32 *)

Module binary32.

Definition prec : Z := 24.
Definition emax : Z := 128.

Definition float : Type := spec_float.

Definition add : float → float → float := SFadd prec emax.
Definition sub : float → float → float := SFsub prec emax.
Definition mul : float → float → float := SFmul prec emax.
Definition div : float → float → float := SFdiv prec emax.
Definition opp : float → float := SFopp.
Definition ltb : float → float → bool := SFltb.

(** [(float)i]: the integer rounded to nearest even. *)
Definition of_int (i : Z) : float := binary_normalize prec emax i 0 false.

(** A decimal literal is the rational [n/d] rounded once, to nearest even. *)
Definition of_ratio (n : Z) (d : positive) : float :=
  match n with
  | Z0 => S754_zero false
  | Zpos p =>
      let '(q, e, l) := SFdiv_core_binary prec emax (Zpos p) 0 (Zpos d) 0 in
      binary_round_aux prec emax false q e l
  | Zneg p =>
      let '(q, e, l) := SFdiv_core_binary prec emax (Zpos p) 0 (Zpos d) 0 in
      binary_round_aux prec emax true q e l
  end.

(** [fmodf]: the remainder of the truncated quotient, which is exact. It has
    the sign of [a]; a zero result keeps that sign. *)
Definition fmod (a b : float) : float :=
  match a, b with
  | S754_nan, _ | _, S754_nan => S754_nan
  | S754_infinity _, _ => S754_nan
  | _, S754_zero _ => S754_nan
  | S754_zero _, _ => a
  | S754_finite _ _ _, S754_infinity _ => a
  | S754_finite sa ma ea, S754_finite _ mb eb =>
      let e := Z.min ea eb in
      let r := Z.rem (Zpos (fst (shl_align ma ea e))) (Zpos (fst (shl_align mb eb e))) in
      binary_normalize prec emax (cond_Zopp sa r) e sa
  end.

Definition sqrt : float → float := SFsqrt prec emax.

#[global] Instance arith : FloatOps float := {
  fadd := add; fsub := sub; fmul := mul; fdiv := div; fneg := opp;
  flt := ltb; float_of_int := of_int; literal := of_ratio;
}.

(** Stand-ins for the libraries, to run the definitions on closed inputs.
    [sinf], [cosf] and [tanf] are cut after their first-order term, which is
    their value at 0; D3DX is as documented; [Length] and [TransformVector]
    are the Euclidean norm and the product of a row vector by the upper left
    of the matrix; [Random] scales the 15 bits of a linear congruential
    generator; the arguments of the two constructors are taken right to
    left.  Nothing proved below for all libraries depends on them. *)
Definition sin1 (a : float) : float := a.
Definition cos1 (a : float) : float := of_int 1.
Definition tan1 (a : float) : float := a.

Definition standin_d3dx : D3DXOps float :=
  documented sin1 cos1 tan1 (λ d, SFeqb d (of_int 0)).

Definition standin_libm : Libm float := {| tanf := tan1; fmodf := fmod |}.

Definition standin_Length (v : CVector3 float) : float :=
  sqrt (add (add (mul (cx v) (cx v)) (mul (cy v) (cy v))) (mul (cz v) (cz v))).

Definition standin_TransformVector (m : D3DXMATRIX float) (v : CVector3 float)
    : CVector3 float :=
  mkCVector3
    (add (add (mul (cx v) (_11 m)) (mul (cy v) (_21 m))) (mul (cz v) (_31 m)))
    (add (add (mul (cx v) (_12 m)) (mul (cy v) (_22 m))) (mul (cz v) (_32 m)))
    (add (add (mul (cx v) (_13 m)) (mul (cy v) (_23 m))) (mul (cz v) (_33 m))).

Definition standin_Random (lo hi : float) (g : Z) : float * Z :=
  let g := ((g * 214013 + 2531011) mod 2 ^ 32)%Z in
  let r := (Z.shiftr g 16 mod 2 ^ 15)%Z in
  (add lo (mul (sub hi lo) (div (of_int r) (of_int 32767))), g).

Definition standin_mathdx : MathDX float := {|
  CMatrix4x4 := D3DXMATRIX float;
  Rng := Z;
  Length := standin_Length;
  MatrixRotationY := rotation_y sin1 cos1;
  TransformVector := standin_TransformVector;
  Random := standin_Random;
  position_arguments := Order_321;
  colour_arguments := Order_321;
|}.

End binary32.

(** ** Exact arithmetic *)

Module exact.

Definition Rltb (a b : R) : bool := if Rlt_dec a b then true else false.

#[global] Instance real_arith : FloatOps R := {
  fadd := Rplus; fsub := Rminus; fmul := Rmult; fdiv := Rdiv; fneg := Ropp;
  flt := Rltb; float_of_int := IZR; literal := λ n d, (IZR n / IZR (Zpos d))%R;
}.

(** D3DX as documented, in the real numbers. *)
#[global] Instance real_d3dx : D3DXOps R :=
  documented sin cos tan (λ d, if Req_dec_T d 0 then true else false).

End exact.

(** ** Notions used in the statements *)

Section Notions.
Context {float : Type} `{!FloatOps float, !D3DXOps float, !Libm float}.
Local Open Scope float_scope.

(** [Rz(rotation.z) · Rx(rotation.x) · Ry(rotation.y) · T(position)] *)
Definition world_of (position rotation : D3DXVECTOR3 float) : D3DXMATRIX float :=
  D3DXMatrixRotationZ (z rotation) × D3DXMatrixRotationX (x rotation)
    × D3DXMatrixRotationY (y rotation)
    × D3DXMatrixTranslation (x position) (y position) (z position).

(** The two matrices agree in every entry but [_31]. *)
Definition same_but_31 (m m' : D3DXMATRIX float) : Prop :=
  _11 m = _11 m' ∧ _12 m = _12 m' ∧ _13 m = _13 m' ∧ _14 m = _14 m' ∧
  _21 m = _21 m' ∧ _22 m = _22 m' ∧ _23 m = _23 m' ∧ _24 m = _24 m' ∧
  _32 m = _32 m' ∧ _33 m = _33 m' ∧ _34 m = _34 m' ∧
  _41 m = _41 m' ∧ _42 m = _42 m' ∧ _43 m = _43 m' ∧ _44 m = _44 m'.

(** [right - p == -(left - p)], in each component. *)
Definition mirrored (p left right : D3DXVECTOR3 float) : Prop :=
  x right - x p = - (x left - x p) ∧
  y right - y p = - (y left - y p) ∧
  z right - z p = - (z left - z p).

(** The calls that change a camera once it is constructed. *)
Inductive CameraCall :=
  | CallSetPosition (v : D3DXVECTOR3 float)
  | CallSetRotation (v : D3DXVECTOR3 float)
  | CallSetFOV (fov : float)
  | CallSetNearClip (nearClip : float)
  | CallSetFarClip (farClip : float)
  | CallControl (KeyHeld : EKeyCode → bool) (frameTime : float)
      (turnUp turnDown turnLeft turnRight
       moveForward moveBackward moveLeft moveRight : EKeyCode)
  | CallUpdateMatrices (g_ViewportWidth g_ViewportHeight : Z).

Definition call (k : CameraCall) (c : CCamera float) : CCamera float :=
  match k with
  | CallSetPosition v => SetPosition v c
  | CallSetRotation v => SetRotation v c
  | CallSetFOV fov => SetFOV fov c
  | CallSetNearClip nearClip => SetNearClip nearClip c
  | CallSetFarClip farClip => SetFarClip farClip c
  | CallControl KeyHeld frameTime k1 k2 k3 k4 k5 k6 k7 k8 =>
      Control KeyHeld frameTime k1 k2 k3 k4 k5 k6 k7 k8 c
  | CallUpdateMatrices w h => UpdateMatrices w h c
  end.

Definition calls (ks : list CameraCall) (c : CCamera float) : CCamera float :=
  foldl (λ c k, call k c) c ks.

End Notions.

Section LightNotions.
Context {float : Type} `{!FloatOps float, !D3DXOps float, !Libm float, !MathDX float}.
Local Open Scope float_scope.

Implicit Types (s : Scene float).

(** The loop of the spawn step on the accumulator and the live count alone. *)
Fixpoint count_loop (fuel : nat) (e : float) (n : Z) : option (float * Z) :=
  if e <? float_of_int 0 then
    match fuel with
    | O => None
    | S fuel =>
        count_loop fuel (e + literal 1 1 / LightSpawnFreq)
          (if (n <? MaxPointLights)%Z then (n + 1)%Z else n)
    end
  else Some (e, n).

Definition count_frame (fuel : nat) (dt : float) (en : float * Z) : option (float * Z) :=
  count_loop fuel (en.1 - dt) en.2.

Fixpoint count_run (fuel : nat) (dts : list float) (en : float * Z) : option (float * Z) :=
  match dts with
  | [] => Some en
  | dt :: dts => en ← count_frame fuel dt en; count_run fuel dts en
  end.

(** The accumulator after the period has been added back [k] times. *)
Definition add_back (k : nat) (e : float) : float :=
  Nat.iter k (λ e, e + literal 1 1 / LightSpawnFreq) e.

(** The generator after [j] lights have been drawn from it. *)
Definition generator_after (j : nat) (g : Rng) : Rng :=
  Nat.iter j (λ g, (new_light g).2) g.

(** [lo <= x <= hi], as [<] of [float] sees it. *)
Definition in_range (lo hi x : float) : Prop :=
  (x <? lo) = false ∧ (hi <? x) = false.

(** [k] passes of the [if] inside the loop. *)
Fixpoint spawn_many (k : nat) s : Scene float :=
  match k with
  | O => s
  | S k => spawn_many k (if (NumPointLights s <? MaxPointLights)%Z then spawn_one s else s)
  end.

(** The loop of the spawn step as the specification words it: it is left
    when the accumulator is not negative, and also when the live count has
    reached the capacity. *)
Fixpoint spawn_loop_as_specified (fuel : nat) s : option (Scene float) :=
  if (emit s <? float_of_int 0) && (NumPointLights s <? MaxPointLights)%Z then
    match fuel with
    | O => None
    | S fuel =>
        let s := spawn_one s in
        spawn_loop_as_specified fuel (set_emit (emit s + literal 1 1 / LightSpawnFreq) s)
    end
  else Some s.

(** What [spawn_loop] keeps between the scene it starts from and the scene
    it leaves: everything but the accumulator, the generator, the live count,
    which does not decrease and does not pass the capacity, and the lights
    from the old live count up to the new one. *)
Definition spawned s s' : Prop :=
  MainCamera s' = MainCamera s
  ∧ LightVertexBuffer s' = LightVertexBuffer s
  ∧ Deferred s' = Deferred s
  ∧ (NumPointLights s ≤ NumPointLights s')%Z
  ∧ ((NumPointLights s ≤ MaxPointLights)%Z → (NumPointLights s' ≤ MaxPointLights)%Z)
  ∧ ((MaxPointLights ≤ NumPointLights s)%Z →
       NumPointLights s' = NumPointLights s
       ∧ PointLights s' = PointLights s ∧ rng s' = rng s)
  ∧ length (PointLights s') = length (PointLights s)
  ∧ ((0 ≤ NumPointLights s)%Z → ∀ i : nat,
       i < Z.to_nat (NumPointLights s) ∨ Z.to_nat (NumPointLights s') ≤ i →
       PointLights s' !! i = PointLights s !! i).

(** What a frame keeps: the live count does not decrease and does not pass
    the capacity, the array keeps its length, the lights from the new live
    count on are as they were, and so is light 0 when there is one. *)
Definition advanced s s' : Prop :=
  (NumPointLights s ≤ NumPointLights s')%Z
  ∧ ((NumPointLights s ≤ MaxPointLights)%Z → (NumPointLights s' ≤ MaxPointLights)%Z)
  ∧ length (PointLights s') = length (PointLights s)
  ∧ ((0 ≤ NumPointLights s)%Z → ∀ i : nat,
       Z.to_nat (NumPointLights s') ≤ i → PointLights s' !! i = PointLights s !! i)
  ∧ ((1 ≤ NumPointLights s)%Z → PointLights s' !! 0 = PointLights s !! 0).

(** Two scenes that differ at most in the lights from the live count on. *)
Definition same_live s1 s2 : Prop :=
  MainCamera s1 = MainCamera s2
  ∧ NumPointLights s1 = NumPointLights s2
  ∧ emit s1 = emit s2
  ∧ LightVertexBuffer s1 = LightVertexBuffer s2
  ∧ Deferred s1 = Deferred s2
  ∧ rng s1 = rng s2
  ∧ length (PointLights s1) = length (PointLights s2)
  ∧ take (Z.to_nat (NumPointLights s1)) (PointLights s1)
    = take (Z.to_nat (NumPointLights s2)) (PointLights s2).

(** The upload as the specification words it: a failure of [Map] is handed
    to the caller as an error. *)
Inductive Specified (A : Type) :=
  | Completes (a : A)
  | HardRendererError.

Definition upload_as_specified (hr : Z) s : Specified (Scene float) :=
  if FAILED hr then HardRendererError _
  else Completes _
         (mkScene (MainCamera s) (NumPointLights s) (PointLights s) (emit s)
            (take (Z.to_nat (NumPointLights s)) (PointLights s))
            (Deferred s) (rng s)).

(** A call does what is specified when it returns the specified scene.
    Nothing that [UpdateScene] can do hands an error to its caller: it
    returns [void], throws nothing and sets no flag. *)
Definition behaves_as {A : Type} (o : Outcome A) (r : Specified A) : Prop :=
  match o, r with
  | Returns a, Completes _ b => a = b
  | _, _ => False
  end.

(** [Some true] for a call of [RenderScene], [Some false] for a call of
    [UpdateScene]. *)
Definition is_call (e : Event float) : option bool :=
  match e with
  | CallRenderScene _ => Some true
  | CallUpdateScene _ => Some false
  | _ => None
  end.

(** Update, then render: a call of [UpdateScene] with a call of
    [RenderScene] somewhere after it. *)
Definition update_then_render (t : list (Event float)) : Prop :=
  ∃ t1 dt t2 d t3, t = t1 ++ CallUpdateScene dt :: t2 ++ CallRenderScene d :: t3.

End LightNotions.

(** A camera in binary32, one unit along the x axis and not rotated, as the
    constructor builds it on a 1280 by 960 viewport.  No angle but 0 enters
    its world matrix. *)
Definition camera_at_1_0_0 : CCamera binary32.float :=
  let O := binary32.of_int 0 in
  let Z := mkD3DXMATRIX O O O O O O O O O O O O O O O O in
  @new_CCamera _ binary32.arith binary32.standin_d3dx
    (mkCCamera (mkD3DXVECTOR3 O O O) (mkD3DXVECTOR3 O O O) O O O O Z Z Z Z)
    1280 960
    (mkD3DXVECTOR3 (binary32.of_int 1) O O) (mkD3DXVECTOR3 O O O)
    (binary32.div (binary32.of_ratio 3141592654 1000000000) (binary32.of_int 4))
    (binary32.of_int 1) (binary32.of_int 50000).

(** The inverse of the world matrix of that camera: one unit back along the
    x axis. *)
Definition view_at_1_0_0 : D3DXMATRIX binary32.float :=
  let O := S754_zero false in
  let N := S754_zero true in
  let I := binary32.of_int 1 in
  mkD3DXMATRIX I N O N  N I N O  O N I N  (binary32.of_int (-1)) O N I.

(** The scene in binary32 with the stand-ins, around the camera above, and a
    frame of one millisecond in which no key is down and [Map] succeeds. *)
Definition scene_0 : @Scene binary32.float binary32.standin_mathdx :=
  @initial_Scene _ binary32.arith binary32.standin_mathdx camera_at_1_0_0 1%Z.

Definition frame_1ms (hr : Z) : Frame binary32.float :=
  let O := binary32.of_int 0 in
  mkFrame (binary32.of_ratio 1 1000) (λ _, false) (λ _, false) 1280 960 hr
    (mkD3DXMATRIX O O O O O O O O O O O O O O O O).

Definition UpdateScene_standin :=
  @UpdateScene _ binary32.arith binary32.standin_d3dx binary32.standin_libm
    binary32.standin_mathdx.

Definition run_standin :=
  @run _ binary32.arith binary32.standin_d3dx binary32.standin_libm
    binary32.standin_mathdx.

(** [E_FAIL] *)
Definition E_FAIL : Z := (-2147467259)%Z.

(** A scene whose array is full. *)
Definition scene_full : @Scene binary32.float binary32.standin_mathdx :=
  @mkScene _ binary32.standin_mathdx camera_at_1_0_0 MaxPointLights
    (@initial_PointLights _ binary32.arith) (emit scene_0)
    (@initial_PointLights _ binary32.arith) true 1%Z.

Definition idle_standin :=
  @idle _ binary32.arith binary32.standin_d3dx binary32.standin_libm
    binary32.standin_mathdx.

(** ** Camera.cpp: notions for the statements *)

#[global] Instance EKeyCode_eq_dec : EqDecision EKeyCode.
Proof. solve_decision. Defined.

(** The keyboard with exactly the keys of [keys] down. *)
Definition keys_down (keys : list EKeyCode) : EKeyCode → bool :=
  λ k, bool_decide (k ∈ keys).

Section CameraNotions.
Context {float : Type} `{!FloatOps float, !D3DXOps float, !Libm float}.
Local Open Scope float_scope.

(** [Control] as [UpdateScene] calls it. *)
Definition Control_keys (KeyHeld : EKeyCode → bool) (frameTime : float)
    (c : CCamera float) : CCamera float :=
  Control KeyHeld frameTime Key_Up Key_Down Key_Left Key_Right Key_W Key_S Key_A Key_D c.

(** [Rz(rotation.z) · Rx(rotation.x) · Ry(rotation.y)] *)
Definition rotation_of (rotation : D3DXVECTOR3 float) : D3DXMATRIX float :=
  D3DXMatrixRotationZ (z rotation) × D3DXMatrixRotationX (x rotation)
    × D3DXMatrixRotationY (y rotation).

(** The two matrices agree in every entry but [_41], [_42] and [_43]. *)
Definition same_but_translation (m m' : D3DXMATRIX float) : Prop :=
  _11 m = _11 m' ∧ _12 m = _12 m' ∧ _13 m = _13 m' ∧ _14 m = _14 m' ∧
  _21 m = _21 m' ∧ _22 m = _22 m' ∧ _23 m = _23 m' ∧ _24 m = _24 m' ∧
  _31 m = _31 m' ∧ _32 m = _32 m' ∧ _33 m = _33 m' ∧ _34 m = _34 m' ∧
  _44 m = _44 m'.

End CameraNotions.

(** [v + w * k], in the real numbers. *)
Definition along (v w : D3DXVECTOR3 R) (k : R) : D3DXVECTOR3 R :=
  mkD3DXVECTOR3 (x v + x w * k)%R (y v + y w * k)%R (z v + z w * k)%R.

(** The square of the length of [v]. *)
Definition length2 (v : D3DXVECTOR3 R) : R := (x v * x v + y v * y v + z v * z v)%R.

Definition dot (v w : D3DXVECTOR3 R) : R := (x v * x w + y v * y w + z v * z w)%R.

(** Rows 1 and 3 of a matrix: the local x axis and the local z axis. *)
Definition row1 {float} (m : D3DXMATRIX float) : D3DXVECTOR3 float :=
  mkD3DXVECTOR3 (_11 m) (_12 m) (_13 m).
Definition row3 {float} (m : D3DXMATRIX float) : D3DXVECTOR3 float :=
  mkD3DXVECTOR3 (_31 m) (_32 m) (_33 m).
Definition row4 {float} (m : D3DXMATRIX float) : D3DXVECTOR3 float :=
  mkD3DXVECTOR3 (_41 m) (_42 m) (_43 m).

(** [Rz · Rx · Ry · T] multiplied out. *)
Definition world_explicit (p r : D3DXVECTOR3 R) : D3DXMATRIX R :=
  let cx := cos (x r) in let sx := sin (x r) in
  let cy := cos (y r) in let sy := sin (y r) in
  let cz := cos (z r) in let sz := sin (z r) in
  (mkD3DXMATRIX
    (cz * cy + sz * sx * sy) (sz * cx) (sz * sx * cy - cz * sy) 0
    (cz * sx * sy - sz * cy) (cz * cx) (sz * sy + cz * sx * cy) 0
    (cx * sy) (- sx) (cx * cy) 0
    (x p) (y p) (z p) 1)%R.

(** The camera of the stand-ins turned by one radian about its x axis. *)
Definition camera_pitched : CCamera binary32.float :=
  @SetRotation binary32.float
    (mkD3DXVECTOR3 (binary32.of_int 1) (binary32.of_int 0) (binary32.of_int 0))
    camera_at_1_0_0.

(** ** DeferredSolution.cpp: start of the scene, frame times, and what is drawn *)

(** [>=] of [float], which the camera and the lights do not use. *)
Class FloatGe (float : Type) := fge : float → float → bool.
Infix ">=?" := fge (at level 70) : float_scope.

#[global] Instance binary32_ge : FloatGe binary32.float := λ a b,
  match SFcompare a b with
  | Some (Gt | Eq) => true
  | _ => false
  end.

#[global] Instance exact_ge : FloatGe R := λ a b, if Rge_dec a b then true else false.

(** [SumFrameTimes], [NumFrameTimes] (an [int]) and [AverageFrameTime]. *)
Record FrameStats {float : Type} := mkFrameStats {
  SumFrameTimes : float;
  NumFrameTimes : Z;
  AverageFrameTime : float;
}.
Arguments FrameStats : clear implicits.
Arguments mkFrameStats {float}.

(** What is streamed into [outText], piece by piece. *)
Inductive Piece {float : Type} :=
  | Text (s : string)
  | Int (n : Z)
  | Float (v : float).
Arguments Piece : clear implicits.

Section Startup.
Context {float : Type} `{!FloatOps float, !D3DXOps float, !Libm float, !MathDX float}.
Context `{!FloatGe float}.
(** [ToRadians] of [MathDX.h]. *)
Variable ToRadians : float → float.
Local Open Scope float_scope.

(** The camera that [InitScene] leaves: constructed with the defaults of the
    declaration, then placed and turned.  [UpdateMatrices] has run in the
    constructor and is not called after the two setters. *)
Definition InitScene_camera (storage : CCamera float) (g_ViewportWidth g_ViewportHeight : Z)
    : CCamera float :=
  SetRotation
    (mkD3DXVECTOR3 (ToRadians (literal 8 1)) (ToRadians (literal 115 1)) (literal 0 1))
    (SetPosition
       (mkD3DXVECTOR3 (float_of_int (-320)) (float_of_int 70) (float_of_int 100))
       (default_CCamera storage g_ViewportWidth g_ViewportHeight)).

(** [InitScene], given what the two calls of [CMesh::Load] return and the
    [HRESULT]s of [CreateBuffer] and of the load of [flare.jpg]; what
    [CreateInputLayout] returns is not looked at.  [None] where it returns
    [false]. *)
Definition InitScene (storage : CCamera float) (g_ViewportWidth g_ViewportHeight : Z)
    (g : Rng) (Level_Load Skybox_Load : bool) (CreateBuffer_hr LightDiffuseMap_hr : Z)
    : option (Scene float) :=
  let camera := InitScene_camera storage g_ViewportWidth g_ViewportHeight in
  if negb Level_Load then None
  else if negb Skybox_Load then None
  else if FAILED CreateBuffer_hr then None
  else if FAILED LightDiffuseMap_hr then None
  else Some (initial_Scene camera g).

(** *** Frame times *)

Definition FrameTimePeriod : float := literal 1 1.

Definition INT_MAX : Z := 2147483647.

Definition initial_FrameStats : FrameStats float :=
  mkFrameStats (literal 0 1) 0 (- literal 1 1).

(** [SumFrameTimes += frameTime; ++NumFrameTimes;
    if (SumFrameTimes >= FrameTimePeriod) { ... }].  The division converts
    [NumFrameTimes] to [float].  Incrementing an [int] that holds [INT_MAX]
    is not defined. *)
Definition accumulate (frameTime : float) (st : FrameStats float)
    : Outcome (FrameStats float) :=
  let sum := SumFrameTimes st + frameTime in
  if (NumFrameTimes st =? INT_MAX)%Z then Undefined
  else
    let num := (NumFrameTimes st + 1)%Z in
    if sum >=? FrameTimePeriod
    then Returns (mkFrameStats (literal 0 1) 0 (sum / float_of_int num))
    else Returns (mkFrameStats sum num (AverageFrameTime st)).

(** What [SetWindowText] is given; [None] when it is not called. *)
Definition window_text (deferred : bool) (numPointLights : Z) (st : FrameStats float)
    : option (list (Piece float)) :=
  let outText :=
    [Text (if deferred then "Deferred Rendering - " else "Forward Rendering - ");
     Text "Lights: "; Int numPointLights] in
  if AverageFrameTime st >=? literal 0 1
  then Some (outText ++
             [Text ", Frame Time: "; Float (AverageFrameTime st * literal 1000 1);
              Text "ms, FPS:"; Float (literal 1 1 / AverageFrameTime st)])
  else None.

(** [UpdateScene] to its end: the scene, the frame times, the window text. *)
Definition UpdateScene_to_end (fuel : nat) (f : Frame float)
    (s : Scene float) (st : FrameStats float)
    : Outcome (Scene float * FrameStats float * option (list (Piece float))) :=
  s' ← UpdateScene fuel f s;
  st' ← accumulate (frameTime f) st;
  Returns (s', st', window_text (Deferred s') (NumPointLights s') st').

(** The frame times of a list of frames, one [UpdateScene] after the other. *)
Fixpoint accumulate_all (dts : list float) (st : FrameStats float)
    : Outcome (FrameStats float) :=
  match dts with
  | [] => Returns st
  | dt :: dts => st ← accumulate dt st; accumulate_all dts st
  end.

End Startup.

(** The lights a pass reads: the forward pass is handed the first [n]
    elements of the array; [Draw(n, 0)] reads the first [n] vertices of the
    buffer that is bound. *)
Definition lights_read {float : Type} (p : Pass float) : option (list (SPointLight float)) :=
  match p with
  | LevelPixelLit n lights => Some lights
  | PointLightQuads n buffer | LightFlares n buffer => Some (take (Z.to_nat n) buffer)
  | _ => None
  end.

(** The sum of a list of real numbers. *)
Definition total (l : list R) : R := foldr Rplus 0%R l.

(** Three frames of 0.4 s in binary32. *)
Definition frames_0_4 : list binary32.float := replicate 2 (binary32.of_ratio 4 10).

(** The buffer on the GPU holds the live lights of the array. *)
Definition in_sync {float : Type} `{!MathDX float} (s : Scene float) : Prop :=
  take (Z.to_nat (NumPointLights s)) (LightVertexBuffer s)
  = take (Z.to_nat (NumPointLights s)) (PointLights s).

(** ** Mesh.cpp *)

(** [Mesh.h], [MeshData.h] and [CImportXFile.h] belong to the repository but
    their text is not available: the structures below have the members that
    [Mesh.cpp] names, with the types it uses them at.  [TUInt32] and [UINT]
    are natural numbers below [2^32], and arithmetic on them wraps. *)
Definition TUInt32 (n : N) : N := (n mod 2 ^ 32)%N.

(** A face: three indices into the vertices of its sub-mesh. *)
Record SMeshFace := mkSMeshFace {
  aiVertex_0 : N;
  aiVertex_1 : N;
  aiVertex_2 : N;
}.

(** An imported sub-mesh.  [vertices] is the memory behind the [TUInt8*]
    and [faces] the array behind the [SMeshFace*]: reading past their ends
    is not defined. *)
Record SSubMesh := mkSSubMesh {
  node : N;
  material : N;
  numVertices : N;
  numFaces : N;
  vertexSize : N;
  vertices : list Byte.byte;
  faces : list SMeshFace;
  hasSkinningData : bool;
  hasNormals : bool;
  hasTangents : bool;
  hasTextureCoords : bool;
  hasVertexColours : bool;
}.

(** A colour of an imported material. *)
Module SColourRGBA.
Record t {float : Type} := mk { r : float; g : float; b : float; a : float }.
Arguments t : clear implicits.
Arguments mk {float}.
End SColourRGBA.

(** [D3DXCOLOR] *)
Module D3DXCOLOR.
Record t {float : Type} := mk { r : float; g : float; b : float; a : float }.
Arguments t : clear implicits.
Arguments mk {float}.
End D3DXCOLOR.

(** An imported material. *)
Record SMeshMaterial {float : Type} := mkSMeshMaterial {
  diffuseColour : SColourRGBA.t float;
  specularColour : SColourRGBA.t float;
  specularPower : float;
  numTextures : N;
  textureFileNames : list string;
}.
Arguments SMeshMaterial : clear implicits.
Arguments mkSMeshMaterial {float}.

Inductive DXGI_FORMAT :=
  | DXGI_FORMAT_R32G32B32_FLOAT
  | DXGI_FORMAT_R32G32B32A32_FLOAT
  | DXGI_FORMAT_R8G8B8A8_UINT
  | DXGI_FORMAT_R32G32_FLOAT
  | DXGI_FORMAT_R8G8B8A8_UNORM.

Inductive D3D11_INPUT_CLASSIFICATION :=
  | D3D11_INPUT_PER_VERTEX_DATA
  | D3D11_INPUT_PER_INSTANCE_DATA.

Record D3D11_INPUT_ELEMENT_DESC := mkD3D11_INPUT_ELEMENT_DESC {
  SemanticName : string;
  SemanticIndex : N;
  Format : DXGI_FORMAT;
  InputSlot : N;
  AlignedByteOffset : N;
  InputSlotClass : D3D11_INPUT_CLASSIFICATION;
  InstanceDataStepRate : N;
}.

Inductive D3D11_BIND_FLAG := D3D11_BIND_VERTEX_BUFFER | D3D11_BIND_INDEX_BUFFER.

(** The members of [D3D11_BUFFER_DESC] that [Mesh.cpp] sets; the usage is
    [D3D11_USAGE_DEFAULT] both times. *)
Record D3D11_BUFFER_DESC := mkD3D11_BUFFER_DESC {
  BindFlags : D3D11_BIND_FLAG;
  ByteWidth : N;
  CPUAccessFlags : N;
  MiscFlags : N;
}.

(** What [initData.pSysMem] points at. *)
Inductive SysMem :=
  | VertexMemory (bytes : list Byte.byte)
  | FaceMemory (faces : list SMeshFace).

(** Direct3D and D3DX as [Mesh.cpp] calls them.  What a creation call
    answers depends on the device, whose state is [Device]: the [HRESULT]
    and what the output pointer holds afterwards. *)
Class D3D11 := {
  Device : Type;
  ShaderResourceView : Type;
  Buffer : Type;
  InputLayout : Type;
  Technique : Type;
  D3DX11CreateShaderResourceViewFromFile :
    string → Device → Z * option ShaderResourceView * Device;
  CreateBuffer : D3D11_BUFFER_DESC → SysMem → Device → Z * option Buffer * Device;
  CreateInputLayout :
    list D3D11_INPUT_ELEMENT_DESC → Technique → Device → Z * option InputLayout * Device;
  Passes : Technique → N;
}.

(** The members of a node that [Mesh.cpp] names. *)
Record SMeshNode {float : Type} `{!MathDX float} := mkSMeshNode {
  positionMatrix : CMatrix4x4;
}.
Arguments SMeshNode float {_}.
Arguments mkSMeshNode {float _}.

(** The structures that hold the Direct3D side of a mesh. *)
Module DX.

Record SMeshMaterialDX {float : Type} `{!D3D11} := mkSMeshMaterialDX {
  diffuseColour : D3DXCOLOR.t float;
  specularColour : D3DXCOLOR.t float;
  specularPower : float;
  numTextures : N;
  textures : list (option ShaderResourceView);
}.
Arguments SMeshMaterialDX float {_}.
Arguments mkSMeshMaterialDX {float _}.

Record SSubMeshDX `{!D3D11} := mkSSubMeshDX {
  node : N;
  material : N;
  numVertices : N;
  numIndices : N;
  vertexElts : list D3D11_INPUT_ELEMENT_DESC;
  vertexSize : N;
  vertexLayout : option InputLayout;
  vertexBuffer : option Buffer;
  indexBuffer : option Buffer;
}.
Arguments mkSSubMeshDX {_}.

End DX.

(** How four bytes of memory are read as a [TFloat32]. *)
Class FloatBytes (float : Type) :=
  TFloat32_of_bytes : Byte.byte → Byte.byte → Byte.byte → Byte.byte → float.

(** The binary32 number with the bits [w]: sign, eight bits of exponent,
    twenty-three bits of fraction. *)
Definition binary32_of_bits (w : N) : binary32.float :=
  let s := N.testbit w 31 in
  let e := Z.of_N ((w / 2 ^ 23) mod 2 ^ 8) in
  let m := (w mod 2 ^ 23)%N in
  if (e =? 255)%Z then
    match m with
    | N0 => S754_infinity s
    | Npos _ => S754_nan
    end
  else if (e =? 0)%Z then
    match m with
    | N0 => S754_zero s
    | Npos p => S754_finite s p (-149)
    end
  else
    match (2 ^ 23 + m)%N with
    | N0 => S754_nan
    | Npos p => S754_finite s p (e - 150)
    end.

(** The program runs on x86: the first byte is the least significant. *)
#[global] Instance binary32_bytes : FloatBytes binary32.float := λ b0 b1 b2 b3,
  binary32_of_bits
    (Byte.to_N b0 + 2 ^ 8 * Byte.to_N b1 + 2 ^ 16 * Byte.to_N b2 + 2 ^ 24 * Byte.to_N b3).

(** A pointer that has to point at something. *)
Definition defined {A : Type} (o : option A) : Outcome A :=
  match o with
  | Some a => Returns a
  | None => Undefined
  end.

(** The members of [CMesh] that [Mesh.cpp] names.  An array holds the
    elements that have been written; reading another one is not defined. *)
Record CMesh {float : Type} `{!MathDX float, !D3D11} := mkCMesh {
  m_HasGeometry : bool;
  m_NumNodes : N;
  m_Nodes : list (SMeshNode float);
  m_NumSubMeshes : N;
  m_SubMeshes : list SSubMesh;
  m_SubMeshesDX : list DX.SSubMeshDX;
  m_NumMaterials : N;
  m_Materials : list (DX.SMeshMaterialDX float);
  m_MinBounds : CVector3 float;
  m_MaxBounds : CVector3 float;
  m_BoundingRadius : float;
  m_EnumTriMesh : N;
  m_EnumTri : N;
  m_EnumVertMesh : N;
  m_EnumVert : N;
}.
Arguments CMesh float {_ _}.
Arguments mkCMesh {float _ _}.

(** What a mesh does to the device, to the effect and to the screen, in the
    order it does it.  An object that is created is there until it is
    released. *)
Inductive MeshEvent {float : Type} `{!MathDX float, !D3D11} :=
  | CreatedTexture (t : ShaderResourceView)
  | CreatedBuffer (b : Buffer)
  | CreatedLayout (l : InputLayout)
  | ReleasedTexture (t : ShaderResourceView)
  | ReleasedBuffer (b : Buffer)
  | ReleasedLayout (l : InputLayout)
  | SystemMessageBox (text caption : string)
  | SetWorldMatrix (matrix : CMatrix4x4)
  | SetDiffuseColour (c : D3DXCOLOR.t float)
  | SetSpecularColour (c : D3DXCOLOR.t float)
  | SetSpecularPower (p : float)
  | SetDiffuseMap (t : option ShaderResourceView)
  | SetNormalMap (t : option ShaderResourceView)
  | IASetVertexBuffers (b : option Buffer) (stride : N)
  | IASetInputLayout (l : option InputLayout)
  | IASetIndexBuffer (b : option Buffer)
  | IASetPrimitiveTopology_TRIANGLELIST
  | Apply (technique : Technique) (p : N)
  | DrawIndexed (IndexCount : N).
Arguments MeshEvent float {_ _}.

(** [EImportError]: the two values that [Mesh.cpp] names, and any other. *)
Inductive EImportError := kSuccess | kFileError | kOtherImportError.

(** What a [CImportXFile] answers for the file it is given: [IsXFile],
    [ImportFile], and the nodes, the materials and the sub-meshes it hands
    out once it has imported the file. *)
Record CImportXFile {float : Type} `{!MathDX float} := mkCImportXFile {
  IsXFile : bool;
  ImportFile : EImportError;
  GetNodes : list (SMeshNode float);
  GetMaterials : list (SMeshMaterial float);
  GetSubMeshes : bool → list SSubMesh;
}.
Arguments CImportXFile float {_}.
Arguments mkCImportXFile {float _}.

Section Mesh.
Context {float : Type} `{!FloatOps float, !MathDX float, !D3D11, !FloatBytes float}.
Local Open Scope float_scope.
Local Open Scope N_scope.

Implicit Types (m : CMesh float).

(** [*reinterpret_cast<TFloat32*>(mem + offset)] *)
Definition read_TFloat32 (mem : list Byte.byte) (offset : N) : option float :=
  b0 ← mem !! N.to_nat offset;
  b1 ← mem !! N.to_nat (offset + 1);
  b2 ← mem !! N.to_nat (offset + 2);
  b3 ← mem !! N.to_nat (offset + 3);
  Some (TFloat32_of_bytes b0 b1 b2 b3).

(** [x = *pVertexCoord++; y = *pVertexCoord++; z = *pVertexCoord;] *)
Definition read_coord (mem : list Byte.byte) (offset : N) : option (CVector3 float) :=
  vx ← read_TFloat32 mem offset;
  vy ← read_TFloat32 mem (offset + 4);
  vz ← read_TFloat32 mem (offset + 8);
  Some (mkCVector3 vx vy vz).

(** Assignments to the members that the enumerations and the
    pre-processing write. *)
Definition set_EnumTri (mesh tri : N) m : CMesh float :=
  mkCMesh (m_HasGeometry m) (m_NumNodes m) (m_Nodes m) (m_NumSubMeshes m) (m_SubMeshes m)
    (m_SubMeshesDX m) (m_NumMaterials m) (m_Materials m)
    (m_MinBounds m) (m_MaxBounds m) (m_BoundingRadius m)
    mesh tri (m_EnumVertMesh m) (m_EnumVert m).

Definition set_EnumVert (mesh vert : N) m : CMesh float :=
  mkCMesh (m_HasGeometry m) (m_NumNodes m) (m_Nodes m) (m_NumSubMeshes m) (m_SubMeshes m)
    (m_SubMeshesDX m) (m_NumMaterials m) (m_Materials m)
    (m_MinBounds m) (m_MaxBounds m) (m_BoundingRadius m)
    (m_EnumTriMesh m) (m_EnumTri m) mesh vert.

Definition set_Bounds (lo hi : CVector3 float) (radius : float) m : CMesh float :=
  mkCMesh (m_HasGeometry m) (m_NumNodes m) (m_Nodes m) (m_NumSubMeshes m) (m_SubMeshes m)
    (m_SubMeshesDX m) (m_NumMaterials m) (m_Materials m)
    lo hi radius
    (m_EnumTriMesh m) (m_EnumTri m) (m_EnumVertMesh m) (m_EnumVert m).

(** [m_SubMeshes[i]] *)
Definition subMesh_at m (i : N) : Outcome SSubMesh := defined (m_SubMeshes m !! N.to_nat i).

(** *** Geometry access *)

(** [for (subMesh = 0; subMesh < m_NumSubMeshes; ++subMesh)
       total += m_SubMeshes[subMesh].count;] *)
Fixpoint count_from (count : SSubMesh → N) (n : nat) (subMesh : N) (total : N) m
    : Outcome N :=
  match n with
  | O => Returns total
  | S n =>
      sub ← subMesh_at m subMesh;
      count_from count n (subMesh + 1) (TUInt32 (total + count sub)) m
  end.

Definition GetNumTriangles m : Outcome N :=
  count_from numFaces (N.to_nat (m_NumSubMeshes m)) 0 0 m.

Definition GetNumVertices m : Outcome N :=
  count_from numVertices (N.to_nat (m_NumSubMeshes m)) 0 0 m.

Definition BeginEnumTriangles m : CMesh float := set_EnumTri 0 0 m.

Definition BeginEnumVertices m : CMesh float := set_EnumVert 0 0 m.

(** The three vertices of face [m_EnumTri] of sub-mesh [m_EnumTriMesh].
    The index of a vertex is a [TUInt16] and the size of a vertex a
    [TUInt32]: the product wraps. *)
Definition current_triangle m : Outcome (CVector3 float * CVector3 float * CVector3 float) :=
  sub ← subMesh_at m (m_EnumTriMesh m);
  face ← defined (faces sub !! N.to_nat (m_EnumTri m));
  v1 ← defined (read_coord (vertices sub) (TUInt32 (aiVertex_0 face * vertexSize sub)));
  v2 ← defined (read_coord (vertices sub) (TUInt32 (aiVertex_1 face * vertexSize sub)));
  v3 ← defined (read_coord (vertices sub) (TUInt32 (aiVertex_2 face * vertexSize sub)));
  Returns (v1, v2, v3).

(** [GetTriangle]: [None] where it returns [false], and then the three
    vectors are not written.  Nothing increments [m_EnumTri]. *)
Definition GetTriangle m
    : Outcome (option (CVector3 float * CVector3 float * CVector3 float) * CMesh float) :=
  if m_NumSubMeshes m <=? m_EnumTriMesh m then Returns (None, m)
  else
    sub ← subMesh_at m (m_EnumTriMesh m);
    if numFaces sub <=? m_EnumTri m then
      let m := set_EnumTri (TUInt32 (m_EnumTriMesh m + 1)) (m_EnumTri m) m in
      if m_NumSubMeshes m <=? m_EnumTriMesh m then Returns (None, m)
      else
        let m := set_EnumTri (m_EnumTriMesh m) 0 m in
        t ← current_triangle m; Returns (Some t, m)
    else t ← current_triangle m; Returns (Some t, m).

Definition current_vertex m : Outcome (CVector3 float) :=
  sub ← subMesh_at m (m_EnumVertMesh m);
  defined (read_coord (vertices sub) (TUInt32 (m_EnumVert m * vertexSize sub))).

(** [GetVertex]: [None] where it returns [false].  Nothing increments
    [m_EnumVert]. *)
Definition GetVertex m : Outcome (option (CVector3 float) * CMesh float) :=
  if m_NumSubMeshes m <=? m_EnumVertMesh m then Returns (None, m)
  else
    sub ← subMesh_at m (m_EnumVertMesh m);
    if numVertices sub <=? m_EnumVert m then
      let m := set_EnumVert (TUInt32 (m_EnumVertMesh m + 1)) (m_EnumVert m) m in
      if m_NumSubMeshes m <=? m_EnumVertMesh m then Returns (None, m)
      else
        let m := set_EnumVert (m_EnumVertMesh m) 0 m in
        v ← current_vertex m; Returns (Some v, m)
    else v ← current_vertex m; Returns (Some v, m).

(** [n] calls of [GetVertex], one after the other, with what each returns. *)
Fixpoint GetVertex_times (n : nat) m : Outcome (list (option (CVector3 float)) * CMesh float) :=
  match n with
  | O => Returns ([], m)
  | S n =>
      '(v, m) ← GetVertex m;
      '(vs, m) ← GetVertex_times n m;
      Returns (v :: vs, m)
  end.

Fixpoint GetTriangle_times (n : nat) m
    : Outcome (list (option (CVector3 float * CVector3 float * CVector3 float)) * CMesh float) :=
  match n with
  | O => Returns ([], m)
  | S n =>
      '(t, m) ← GetTriangle m;
      '(ts, m) ← GetTriangle_times n m;
      Returns (t :: ts, m)
  end.

(** *** Creation *)

(** [CMesh::CMesh]: the counters of the enumerations and the bounds are not
    initialised; [storage] is the object before construction. *)
Definition new_CMesh (storage : CMesh float) : CMesh float :=
  mkCMesh false 0 [] 0 [] [] 0 []
    (m_MinBounds storage) (m_MaxBounds storage) (m_BoundingRadius storage)
    (m_EnumTriMesh storage) (m_EnumTri storage)
    (m_EnumVertMesh storage) (m_EnumVert storage).

(** What happens to the object behind a pointer, when the pointer is set:
    [if (p) p->Release();], and the creation of the object. *)
Definition when_set {A : Type} (event : A → MeshEvent float) (p : option A)
    : list (MeshEvent float) :=
  match p with
  | Some p => [event p]
  | None => []
  end.

(** [for (i = from; i < from + n; ++i) body(i)], with what the passes do. *)
Fixpoint for_each (n : nat) (i : N) (body : N → Outcome (list (MeshEvent float)))
    : Outcome (list (MeshEvent float)) :=
  match n with
  | O => Returns []
  | S n => ev ← body i; ev' ← for_each n (i + 1) body; Returns (ev ++ ev')
  end.

(** [CMesh::ReleaseResources] *)
Definition ReleaseResources m : Outcome (CMesh float * list (MeshEvent float)) :=
  ev1 ← for_each (N.to_nat (m_NumMaterials m)) 0 (λ material,
           mat ← defined (m_Materials m !! N.to_nat material);
           for_each (N.to_nat (DX.numTextures mat)) 0 (λ texture,
             t ← defined (DX.textures mat !! N.to_nat texture);
             Returns (when_set ReleasedTexture t)));
  ev2 ← for_each (N.to_nat (m_NumSubMeshes m)) 0 (λ subMesh,
           sub ← defined (m_SubMeshesDX m !! N.to_nat subMesh);
           Returns (when_set ReleasedBuffer (DX.indexBuffer sub)
                    ++ when_set ReleasedBuffer (DX.vertexBuffer sub)
                    ++ when_set ReleasedLayout (DX.vertexLayout sub)));
  Returns (mkCMesh false 0 [] 0 [] [] 0 []
             (m_MinBounds m) (m_MaxBounds m) (m_BoundingRadius m)
             (m_EnumTriMesh m) (m_EnumTri m) (m_EnumVertMesh m) (m_EnumVert m),
           ev1 ++ ev2).

(** One element of the vertex layout: the semantic index, the input slot
    and the step rate are 0, the data is per vertex. *)
Definition element (name : string) (format : DXGI_FORMAT) (offset : N)
    : D3D11_INPUT_ELEMENT_DESC :=
  mkD3D11_INPUT_ELEMENT_DESC name 0 format 0 offset D3D11_INPUT_PER_VERTEX_DATA 0.

(** The vertex elements of a sub-mesh and the size of a vertex, as
    [CreateSubMeshDX] lists them; [offset] is an [unsigned int]. *)
Definition vertex_elements (subMesh : SSubMesh) : list D3D11_INPUT_ELEMENT_DESC * N :=
  let elts := [element "POSITION" DXGI_FORMAT_R32G32B32_FLOAT 0] in
  let offset := TUInt32 (0 + 12) in
  let '(elts, offset) :=
    if hasSkinningData subMesh
    then (elts ++ [element "BLENDWEIGHT" DXGI_FORMAT_R32G32B32A32_FLOAT offset;
                   element "BLENDINDICES" DXGI_FORMAT_R8G8B8A8_UINT (TUInt32 (offset + 16))],
          TUInt32 (TUInt32 (offset + 16) + 4))
    else (elts, offset) in
  let '(elts, offset) :=
    if hasNormals subMesh
    then (elts ++ [element "NORMAL" DXGI_FORMAT_R32G32B32_FLOAT offset], TUInt32 (offset + 12))
    else (elts, offset) in
  let '(elts, offset) :=
    if hasTangents subMesh
    then (elts ++ [element "TANGENT" DXGI_FORMAT_R32G32B32_FLOAT offset], TUInt32 (offset + 12))
    else (elts, offset) in
  let '(elts, offset) :=
    if hasTextureCoords subMesh
    then (elts ++ [element "TEXCOORD" DXGI_FORMAT_R32G32_FLOAT offset], TUInt32 (offset + 8))
    else (elts, offset) in
  let '(elts, offset) :=
    if hasVertexColours subMesh
    then (elts ++ [element "COLOR" DXGI_FORMAT_R8G8B8A8_UNORM offset], TUInt32 (offset + 4))
    else (elts, offset) in
  (elts, offset).

(** [CreateSubMeshDX].  What [CreateInputLayout] returns is not looked at.
    The structure is returned as far as it has been written: the index
    buffer is not written when the vertex buffer cannot be created. *)
Definition CreateSubMeshDX (subMesh : SSubMesh) (shaderCode : Technique) (dev : Device)
    : bool * DX.SSubMeshDX * Device * list (MeshEvent float) :=
  let numVertices := numVertices subMesh in
  let numIndices := TUInt32 (numFaces subMesh * 3) in
  let '(elts, vertexSize) := vertex_elements subMesh in
  let '(_, layout, dev) := CreateInputLayout elts shaderCode dev in
  let '(hr, vertexBuffer, dev) :=
    CreateBuffer
      (mkD3D11_BUFFER_DESC D3D11_BIND_VERTEX_BUFFER (TUInt32 (numVertices * vertexSize)) 0 0)
      (VertexMemory (vertices subMesh)) dev in
  if FAILED hr then
    (false,
     DX.mkSSubMeshDX (node subMesh) (material subMesh) numVertices numIndices elts vertexSize
       layout vertexBuffer None,
     dev,
     when_set CreatedLayout layout ++ when_set CreatedBuffer vertexBuffer)
  else
    let '(hr, indexBuffer, dev) :=
      CreateBuffer
        (mkD3D11_BUFFER_DESC D3D11_BIND_INDEX_BUFFER (TUInt32 (numIndices * 2)) 0 0)
        (FaceMemory (faces subMesh)) dev in
    (negb (FAILED hr),
     DX.mkSSubMeshDX (node subMesh) (material subMesh) numVertices numIndices elts vertexSize
       layout vertexBuffer indexBuffer,
     dev,
     when_set CreatedLayout layout ++ when_set CreatedBuffer vertexBuffer
       ++ when_set CreatedBuffer indexBuffer).

(** The loop of [CreateMaterialDX] over the textures of a material, from
    texture [texture] on. *)
Fixpoint load_textures (n : nat) (texture : N) (material : SMeshMaterial float)
    (textures : list (option ShaderResourceView)) (dev : Device)
    : Outcome (bool * list (option ShaderResourceView) * Device * list (MeshEvent float)) :=
  match n with
  | O => Returns (true, textures, dev, [])
  | S n =>
      fullFileName ← defined (textureFileNames material !! N.to_nat texture);
      let '(hr, t, dev) := D3DX11CreateShaderResourceViewFromFile fullFileName dev in
      let textures := textures ++ [t] in
      if FAILED hr then
        Returns (false, textures, dev,
                 when_set CreatedTexture t
                 ++ [SystemMessageBox ("Error loading texture " +:+ fullFileName)
                       "Mesh Error"])
      else
        '(ok, textures, dev, ev) ← load_textures n (texture + 1) material textures dev;
        Returns (ok, textures, dev, when_set CreatedTexture t ++ ev)
  end.

Definition D3DXCOLOR_of (c : SColourRGBA.t float) : D3DXCOLOR.t float :=
  D3DXCOLOR.mk (SColourRGBA.r c) (SColourRGBA.g c) (SColourRGBA.b c) (SColourRGBA.a c).

(** [CreateMaterialDX] *)
Definition CreateMaterialDX (material : SMeshMaterial float) (dev : Device)
    : Outcome (bool * DX.SMeshMaterialDX float * Device * list (MeshEvent float)) :=
  '(ok, textures, dev, ev) ←
    load_textures (N.to_nat (numTextures material)) 0 material [] dev;
  Returns (ok,
           DX.mkSMeshMaterialDX (D3DXCOLOR_of (diffuseColour material))
             (D3DXCOLOR_of (specularColour material)) (specularPower material)
             (numTextures material) textures,
           dev, ev).

(** *** Pre-processing *)

(** The bounds: the least corner, the greatest corner, the radius. *)
Definition Bounds : Type := CVector3 float * CVector3 float * float.

(** One vertex against the bounds; [a > b] is [b < a]. *)
Definition bound_vertex (vertex : CVector3 float) (bounds : Bounds) : Bounds :=
  let '(lo, hi, radius) := bounds in
  let length := Length vertex in
  (mkCVector3 (if (cx vertex <? cx lo)%fl then cx vertex else cx lo)
              (if (cy vertex <? cy lo)%fl then cy vertex else cy lo)
              (if (cz vertex <? cz lo)%fl then cz vertex else cz lo),
   mkCVector3 (if (cx hi <? cx vertex)%fl then cx vertex else cx hi)
              (if (cy hi <? cy vertex)%fl then cy vertex else cy hi)
              (if (cz hi <? cz vertex)%fl then cz vertex else cz hi),
   if (radius <? length)%fl then length else radius).

(** The loop over the vertices of a sub-mesh, from the one at [pVertex] on. *)
Fixpoint bound_vertices (n : nat) (mem : list Byte.byte) (pVertex step : N)
    (bounds : Bounds) : Outcome Bounds :=
  match n with
  | O => Returns bounds
  | S n =>
      vertex ← defined (read_coord mem pVertex);
      bound_vertices n mem (pVertex + step) step (bound_vertex vertex bounds)
  end.

(** The loop over the sub-meshes, from sub-mesh [subMesh] on. *)
Fixpoint bound_subMeshes (n : nat) (subMesh : N) m (bounds : Bounds)
    : Outcome (bool * Bounds) :=
  match n with
  | O => Returns (true, bounds)
  | S n =>
      sub ← subMesh_at m subMesh;
      if numVertices sub =? 0 then Returns (false, bounds)
      else
        bounds ← bound_vertices (N.to_nat (numVertices sub)) (vertices sub) 0
                   (vertexSize sub) bounds;
        bound_subMeshes n (subMesh + 1) m bounds
  end.

(** [PreProcess].  The bounds are members: they stay as far as they have
    been written when an empty sub-mesh stops the loop. *)
Definition PreProcess m : Outcome (bool * CMesh float) :=
  if m_NumSubMeshes m =? 0 then Returns (false, m)
  else
    sub ← subMesh_at m 0;
    if numVertices sub =? 0 then Returns (false, m)
    else
      first ← defined (read_coord (vertices sub) 0);
      '(ok, (lo, hi, radius)) ←
        bound_subMeshes (N.to_nat (m_NumSubMeshes m)) 0 m (first, first, Length first);
      Returns (ok, set_Bounds lo hi radius m).

(** *** Load *)

(** The loop of [Load] over the materials that are still to come: the
    material is written into the array, and counted when it is complete. *)
Fixpoint load_materials (materials : list (SMeshMaterial float)) m (dev : Device)
    : Outcome (bool * CMesh float * Device * list (MeshEvent float)) :=
  match materials with
  | [] => Returns (true, m, dev, [])
  | importMaterial :: materials =>
      '(ok, materialDX, dev, ev) ← CreateMaterialDX importMaterial dev;
      let written (numMaterials : N) :=
        mkCMesh (m_HasGeometry m) (m_NumNodes m) (m_Nodes m)
          (m_NumSubMeshes m) (m_SubMeshes m) (m_SubMeshesDX m)
          numMaterials (m_Materials m ++ [materialDX])
          (m_MinBounds m) (m_MaxBounds m) (m_BoundingRadius m)
          (m_EnumTriMesh m) (m_EnumTri m) (m_EnumVertMesh m) (m_EnumVert m) in
      if (ok : bool) then
        '(ok, m, dev, ev') ←
          load_materials materials (written (TUInt32 (m_NumMaterials m + 1))) dev;
        Returns (ok, m, dev, ev ++ ev')
      else
        '(m, ev') ← ReleaseResources (written (m_NumMaterials m));
        Returns (false, m, dev, ev ++ ev')
  end.

(** The loop of [Load] over the sub-meshes that are still to come. *)
Fixpoint load_subMeshes (subMeshes : list SSubMesh) (shaderCode : Technique) m (dev : Device)
    : Outcome (bool * CMesh float * Device * list (MeshEvent float)) :=
  match subMeshes with
  | [] => Returns (true, m, dev, [])
  | subMesh :: subMeshes =>
      let '(ok, subMeshDX, dev, ev) := CreateSubMeshDX subMesh shaderCode dev in
      let written (numSubMeshes : N) :=
        mkCMesh (m_HasGeometry m) (m_NumNodes m) (m_Nodes m)
          numSubMeshes (m_SubMeshes m ++ [subMesh]) (m_SubMeshesDX m ++ [subMeshDX])
          (m_NumMaterials m) (m_Materials m)
          (m_MinBounds m) (m_MaxBounds m) (m_BoundingRadius m)
          (m_EnumTriMesh m) (m_EnumTri m) (m_EnumVertMesh m) (m_EnumVert m) in
      if (ok : bool) then
        '(ok, m, dev, ev') ←
          load_subMeshes subMeshes shaderCode (written (TUInt32 (m_NumSubMeshes m + 1))) dev;
        Returns (ok, m, dev, ev ++ ev')
      else
        '(m, ev') ← ReleaseResources (written (m_NumSubMeshes m));
        Returns (false, m, dev, ev ++ ev')
  end.

(** [Load].  [new] throws where it cannot allocate: the three tests of its
    result never fail. *)
Definition Load (importFile : CImportXFile float) (fileName : string)
    (shaderCode : Technique) (needTangents : bool) m (dev : Device)
    : Outcome (bool * CMesh float * Device * list (MeshEvent float)) :=
  let fullFileName := fileName in
  if negb (IsXFile importFile) then Returns (false, m, dev, [])
  else
    match ImportFile importFile with
    | kFileError =>
        Returns (false, m, dev,
                 [SystemMessageBox ("Error loading mesh " +:+ fullFileName) "Mesh Error"])
    | kOtherImportError => Returns (false, m, dev, [])
    | kSuccess =>
        '(m, ev0) ← (if m_HasGeometry m then ReleaseResources m else Returns (m, []));
        let m :=
          mkCMesh (m_HasGeometry m)
            (TUInt32 (N.of_nat (length (GetNodes importFile)))) (GetNodes importFile)
            (m_NumSubMeshes m) (m_SubMeshes m) (m_SubMeshesDX m)
            (m_NumMaterials m) (m_Materials m)
            (m_MinBounds m) (m_MaxBounds m) (m_BoundingRadius m)
            (m_EnumTriMesh m) (m_EnumTri m) (m_EnumVertMesh m) (m_EnumVert m) in
        let m :=
          mkCMesh (m_HasGeometry m) (m_NumNodes m) (m_Nodes m)
            (m_NumSubMeshes m) (m_SubMeshes m) (m_SubMeshesDX m)
            0 []
            (m_MinBounds m) (m_MaxBounds m) (m_BoundingRadius m)
            (m_EnumTriMesh m) (m_EnumTri m) (m_EnumVertMesh m) (m_EnumVert m) in
        '(ok, m, dev, ev1) ← load_materials (GetMaterials importFile) m dev;
        if negb ok then Returns (false, m, dev, ev0 ++ ev1)
        else
          let m :=
            mkCMesh (m_HasGeometry m) (m_NumNodes m) (m_Nodes m)
              0 [] []
              (m_NumMaterials m) (m_Materials m)
              (m_MinBounds m) (m_MaxBounds m) (m_BoundingRadius m)
              (m_EnumTriMesh m) (m_EnumTri m) (m_EnumVertMesh m) (m_EnumVert m) in
          '(ok, m, dev, ev2) ←
            load_subMeshes (GetSubMeshes importFile needTangents) shaderCode m dev;
          if negb ok then Returns (false, m, dev, ev0 ++ ev1 ++ ev2)
          else
            '(ok, m) ← PreProcess m;
            if negb ok then
              '(m, ev3) ← ReleaseResources m;
              Returns (false, m, dev, ev0 ++ ev1 ++ ev2 ++ ev3)
            else
              Returns (true,
                       mkCMesh true (m_NumNodes m) (m_Nodes m)
                         (m_NumSubMeshes m) (m_SubMeshes m) (m_SubMeshesDX m)
                         (m_NumMaterials m) (m_Materials m)
                         (m_MinBounds m) (m_MaxBounds m) (m_BoundingRadius m)
                         (m_EnumTriMesh m) (m_EnumTri m) (m_EnumVertMesh m) (m_EnumVert m),
                       dev, ev0 ++ ev1 ++ ev2)
    end.

(** *** Rendering *)

(** The passes of the technique, each with its draw. *)
Fixpoint draw_passes (n : nat) (p : N) (technique : Technique) (numIndices : N)
    : list (MeshEvent float) :=
  match n with
  | O => []
  | S n => Apply technique p :: DrawIndexed numIndices
           :: draw_passes n (p + 1) technique numIndices
  end.

(** What [Render] does for sub-mesh [subMesh]: there is one more
    [DrawIndexed] after the loop over the passes. *)
Definition Render_subMesh (technique : Technique) m (subMesh : N)
    : Outcome (list (MeshEvent float)) :=
  subMeshDX ← defined (m_SubMeshesDX m !! N.to_nat subMesh);
  material ← defined (m_Materials m !! N.to_nat (DX.material subMeshDX));
  node ← defined (m_Nodes m !! N.to_nat (DX.node subMeshDX));
  diffuseMap ←
    (if 0 <? DX.numTextures material
     then t ← defined (DX.textures material !! 0%nat); Returns [SetDiffuseMap t]
     else Returns []);
  normalMap ←
    (if 1 <? DX.numTextures material
     then t ← defined (DX.textures material !! 1%nat); Returns [SetNormalMap t]
     else Returns []);
  Returns ([SetWorldMatrix (positionMatrix node);
            SetDiffuseColour (DX.diffuseColour material);
            SetSpecularColour (DX.specularColour material);
            SetSpecularPower (DX.specularPower material)]
           ++ diffuseMap ++ normalMap
           ++ [IASetVertexBuffers (DX.vertexBuffer subMeshDX) (DX.vertexSize subMeshDX);
               IASetInputLayout (DX.vertexLayout subMeshDX);
               IASetIndexBuffer (DX.indexBuffer subMeshDX);
               IASetPrimitiveTopology_TRIANGLELIST]
           ++ draw_passes (N.to_nat (Passes technique)) 0 technique (DX.numIndices subMeshDX)
           ++ [DrawIndexed (DX.numIndices subMeshDX)]).

(** [Render] *)
Definition Render (technique : Technique) m : Outcome (list (MeshEvent float)) :=
  if negb (m_HasGeometry m) then Returns []
  else for_each (N.to_nat (m_NumSubMeshes m)) 0 (Render_subMesh technique m).

End Mesh.

(** A stand-in for the device, to run the definitions on closed inputs: it
    creates whatever it is asked for.  A texture is the name of its file, a
    buffer its size, a layout the number of its elements, a technique the
    number of its passes. *)
Definition standin_d3d11 : D3D11 := {|
  Device := unit;
  ShaderResourceView := string;
  Buffer := N;
  InputLayout := nat;
  Technique := N;
  D3DX11CreateShaderResourceViewFromFile := λ name dev, (0%Z, Some name, dev);
  CreateBuffer := λ desc _ dev, (0%Z, Some (ByteWidth desc), dev);
  CreateInputLayout := λ elts _ dev, (0%Z, Some (length elts), dev);
  Passes := λ technique, technique;
|}.

(** The bytes of [0.0f] and of [1.0f]. *)
Definition bytes_0 : list Byte.byte := [Byte.x00; Byte.x00; Byte.x00; Byte.x00].
Definition bytes_1 : list Byte.byte := [Byte.x00; Byte.x00; Byte.x80; Byte.x3f].

(** A sub-mesh of one square in the plane [z = 0]: four vertices of
    twelve bytes, (0, 0, 0), (1, 0, 0), (0, 1, 0) and (1, 1, 0), and two
    faces. *)
Definition square : SSubMesh :=
  mkSSubMesh 0 0 4 2 12
    (bytes_0 ++ bytes_0 ++ bytes_0 ++ bytes_1 ++ bytes_0 ++ bytes_0
     ++ bytes_0 ++ bytes_1 ++ bytes_0 ++ bytes_1 ++ bytes_1 ++ bytes_0)
    [mkSMeshFace 0 1 2; mkSMeshFace 2 1 3]
    false false false false false.

(** A mesh of that sub-mesh alone, with one material and one node. *)
Definition square_mesh : @CMesh binary32.float binary32.standin_mathdx standin_d3d11 :=
  let O := binary32.of_int 0 in
  let I := binary32.of_int 1 in
  let white := D3DXCOLOR.mk I I I I in
  @mkCMesh _ binary32.standin_mathdx standin_d3d11 true
    1 [@mkSMeshNode _ binary32.standin_mathdx (@identity _ binary32.arith)]
    1 [square] [@DX.mkSSubMeshDX standin_d3d11 0 0 4 6
                  [mkD3D11_INPUT_ELEMENT_DESC "POSITION" 0 DXGI_FORMAT_R32G32B32_FLOAT 0 0
                     D3D11_INPUT_PER_VERTEX_DATA 0]
                  12 (Some 1%nat) (Some 48%N) (Some 12%N)]
    1 [@DX.mkSMeshMaterialDX _ standin_d3d11 white white I 0 []]
    (mkCVector3 O O O) (mkCVector3 O O O) O
    0 0 0 0.

(** The sum of a list of natural numbers. *)
Definition sum_N (l : list N) : N := foldr N.add 0%N l.

(** The bytes that an element of a format takes in a vertex. *)
Definition format_bytes (f : DXGI_FORMAT) : N :=
  match f with
  | DXGI_FORMAT_R32G32B32_FLOAT => 12
  | DXGI_FORMAT_R32G32B32A32_FLOAT => 16
  | DXGI_FORMAT_R8G8B8A8_UINT => 4
  | DXGI_FORMAT_R32G32_FLOAT => 8
  | DXGI_FORMAT_R8G8B8A8_UNORM => 4
  end.

(** The elements lie one after the other from byte [from] up to byte [to],
    with no gap and no overlap. *)
Fixpoint tiled (from : N) (elts : list D3D11_INPUT_ELEMENT_DESC) (to : N) : Prop :=
  match elts with
  | [] => from = to
  | e :: elts =>
      AlignedByteOffset e = from ∧ tiled (from + format_bytes (Format e)) elts to
  end.

(** 1 for [true], 0 for [false]. *)
Definition N_of_bool (b : bool) : N := if b then 1%N else 0%N.

(** The index counts of the draws among the events, in order, and the
    passes that are applied. *)
Definition draws {float : Type} `{!MathDX float, !D3D11} (ev : list (MeshEvent float))
    : list N :=
  omap (λ e, match e with DrawIndexed n => Some n | _ => None end) ev.

Definition applied {float : Type} `{!MathDX float, !D3D11} (ev : list (MeshEvent float))
    : list N :=
  omap (λ e, match e with Apply _ p => Some p | _ => None end) ev.

(** A vertex is inside the bounds: no coordinate is below the least corner
    or above the greatest one, and the vertex is not farther from the origin
    than the radius, as [<] of [float] sees it. *)
Definition within {float : Type} `{!FloatOps float, !MathDX float}
    (v : CVector3 float) (bounds : CVector3 float * CVector3 float * float) : Prop :=
  let '(lo, hi, radius) := bounds in
  (cx v <? cx lo)%fl = false ∧ (cx hi <? cx v)%fl = false
  ∧ (cy v <? cy lo)%fl = false ∧ (cy hi <? cy v)%fl = false
  ∧ (cz v <? cz lo)%fl = false ∧ (cz hi <? cz v)%fl = false
  ∧ (radius <? Length v)%fl = false.

(** The bounds that a mesh holds. *)
Definition bounds_of {float : Type} `{!MathDX float, !D3D11} (m : CMesh float)
    : CVector3 float * CVector3 float * float :=
  (m_MinBounds m, m_MaxBounds m, m_BoundingRadius m).

(** The objects of the device that a mesh holds on to. *)
Inductive Object `{!D3D11} :=
  | TextureObject (t : ShaderResourceView)
  | BufferObject (b : Buffer)
  | LayoutObject (l : InputLayout).

(** The objects that have been created, and those that have been released,
    in the order of the events. *)
Definition created {float : Type} `{!MathDX float, !D3D11} (ev : list (MeshEvent float))
    : list Object :=
  omap (λ e, match e with
             | CreatedTexture t => Some (TextureObject t)
             | CreatedBuffer b => Some (BufferObject b)
             | CreatedLayout l => Some (LayoutObject l)
             | _ => None
             end) ev.

Definition released {float : Type} `{!MathDX float, !D3D11} (ev : list (MeshEvent float))
    : list Object :=
  omap (λ e, match e with
             | ReleasedTexture t => Some (TextureObject t)
             | ReleasedBuffer b => Some (BufferObject b)
             | ReleasedLayout l => Some (LayoutObject l)
             | _ => None
             end) ev.

(** The message boxes, each with its text. *)
Definition messages {float : Type} `{!MathDX float, !D3D11} (ev : list (MeshEvent float))
    : list string :=
  omap (λ e, match e with SystemMessageBox text _ => Some text | _ => None end) ev.

(** The objects that a material and a sub-mesh hold. *)
Definition material_objects {float : Type} `{!D3D11} (material : DX.SMeshMaterialDX float)
    : list Object :=
  omap (fmap TextureObject) (DX.textures material).

Definition subMesh_objects `{!D3D11} (subMesh : DX.SSubMeshDX) : list Object :=
  omap (λ o, o) [LayoutObject <$> DX.vertexLayout subMesh;
           BufferObject <$> DX.vertexBuffer subMesh;
           BufferObject <$> DX.indexBuffer subMesh].

(** A mesh with its geometry gone: no node, no sub-mesh, no material. *)
Definition emptied {float : Type} `{!MathDX float, !D3D11} (m : CMesh float) : CMesh float :=
  mkCMesh false 0 [] 0 [] [] 0 []
    (m_MinBounds m) (m_MaxBounds m) (m_BoundingRadius m)
    (m_EnumTriMesh m) (m_EnumTri m) (m_EnumVertMesh m) (m_EnumVert m).

(** A mesh with other materials, and with other sub-meshes. *)
Definition set_Materials {float : Type} `{!MathDX float, !D3D11}
    (numMaterials : N) (materials : list (DX.SMeshMaterialDX float)) (m : CMesh float)
    : CMesh float :=
  mkCMesh (m_HasGeometry m) (m_NumNodes m) (m_Nodes m)
    (m_NumSubMeshes m) (m_SubMeshes m) (m_SubMeshesDX m)
    numMaterials materials
    (m_MinBounds m) (m_MaxBounds m) (m_BoundingRadius m)
    (m_EnumTriMesh m) (m_EnumTri m) (m_EnumVertMesh m) (m_EnumVert m).

Definition set_SubMeshes {float : Type} `{!MathDX float, !D3D11}
    (numSubMeshes : N) (subMeshes : list SSubMesh) (subMeshesDX : list DX.SSubMeshDX)
    (m : CMesh float) : CMesh float :=
  mkCMesh (m_HasGeometry m) (m_NumNodes m) (m_Nodes m)
    numSubMeshes subMeshes subMeshesDX
    (m_NumMaterials m) (m_Materials m)
    (m_MinBounds m) (m_MaxBounds m) (m_BoundingRadius m)
    (m_EnumTriMesh m) (m_EnumTri m) (m_EnumVertMesh m) (m_EnumVert m).

(** A file with the square, its material and its node, and a file that is
    imported and holds nothing. *)
Definition square_file : @CImportXFile binary32.float binary32.standin_mathdx :=
  let I := binary32.of_int 1 in
  let white := SColourRGBA.mk I I I I in
  @mkCImportXFile _ binary32.standin_mathdx true kSuccess
    [@mkSMeshNode _ binary32.standin_mathdx (@identity _ binary32.arith)]
    [mkSMeshMaterial white white I 1 ["square.jpg"]]
    (λ _, [square]).

Definition hollow_file : @CImportXFile binary32.float binary32.standin_mathdx :=
  @mkCImportXFile _ binary32.standin_mathdx true kSuccess [] [] (λ _, []).

(** The objects that a mesh holds: those of the materials and of the
    sub-meshes that it counts. *)
Definition held {float : Type} `{!MathDX float, !D3D11} (m : CMesh float) : list Object :=
  (take (N.to_nat (m_NumMaterials m)) (m_Materials m) ≫= material_objects)
  ++ (take (N.to_nat (m_NumSubMeshes m)) (m_SubMeshesDX m) ≫= subMesh_objects).

(** The counts of a mesh are the lengths of its arrays, and every material
    has the textures that it counts. *)
Definition counted {float : Type} `{!MathDX float, !D3D11} (m : CMesh float) : Prop :=
  N.to_nat (m_NumMaterials m) = length (m_Materials m)
  ∧ Forall (λ dx, length (DX.textures dx) = N.to_nat (DX.numTextures dx)) (m_Materials m)
  ∧ N.to_nat (m_NumSubMeshes m) = length (m_SubMeshesDX m).

(** A device that creates no index buffer, and whatever else it is asked
    for. *)
Definition standin_d3d11_without_index_buffers : D3D11 := {|
  Device := unit;
  ShaderResourceView := string;
  Buffer := N;
  InputLayout := nat;
  Technique := N;
  D3DX11CreateShaderResourceViewFromFile := λ name dev, (0%Z, Some name, dev);
  CreateBuffer := λ desc _ dev,
    match BindFlags desc with
    | D3D11_BIND_INDEX_BUFFER => (E_FAIL, None, dev)
    | _ => (0%Z, Some (ByteWidth desc), dev)
    end;
  CreateInputLayout := λ elts _ dev, (0%Z, Some (length elts), dev);
  Passes := λ technique, technique;
|}.

(** A mesh as the constructor leaves it, on that device. *)
Definition blank_mesh
    : @CMesh binary32.float binary32.standin_mathdx standin_d3d11_without_index_buffers :=
  let O := binary32.of_int 0 in
  @mkCMesh _ binary32.standin_mathdx standin_d3d11_without_index_buffers
    false 0 [] 0 [] [] 0 [] (mkCVector3 O O O) (mkCVector3 O O O) O 0 0 0 0.

(** What [Load] returns for the square: loaded over the square from its
    file, loaded over the square from the file that holds nothing, and
    loaded into the blank mesh on the device without index buffers. *)
Definition square_reloaded := Eval vm_compute in
  Load square_file "square.x" (1%N : @Technique standin_d3d11) false
    square_mesh (tt : @Device standin_d3d11).

Definition square_hollowed := Eval vm_compute in
  Load hollow_file "hollow.x" (1%N : @Technique standin_d3d11) false
    square_mesh (tt : @Device standin_d3d11).

Definition square_without_index_buffer := Eval vm_compute in
  Load square_file "square.x" (1%N : @Technique standin_d3d11_without_index_buffers) false
    blank_mesh (tt : @Device standin_d3d11_without_index_buffers).

(** * Properties *)

(** ** Facts on binary32 *)

Module binary32_facts.
Import binary32.

(** Rounding to nearest even does not look at the sign. *)
Lemma binary_round_aux_negb (s : bool) (m e : Z) (l : location) :
  binary_round_aux prec emax (negb s) m e l = opp (binary_round_aux prec emax s m e l).
Proof.
  unfold binary_round_aux.
  destruct (shr_fexp prec emax m e l) as [mrs' e'].
  destruct (shr_fexp prec emax _ e' loc_Exact) as [mrs'' e''].
  destruct (shr_m mrs'') as [|p|p]; [done| |done].
  by destruct (e'' <=? emax - prec)%Z.
Qed.

Lemma mul_opp_r (a b : float) : mul a (opp b) = opp (mul a b).
Proof.
  destruct a as [sa|sa| |sa ma ea], b as [sb|sb| |sb mb eb]; cbn;
    try done; try (by destruct sa, sb).
  replace (xorb sa (negb sb)) with (negb (xorb sa sb)) by (by destruct sa, sb).
  apply binary_round_aux_negb.
Qed.


Local Open Scope Z_scope.

(** ** Halving: [x * 0.5f] is [x / 2]

    Both are computed with one rounding of the same real number.  On a
    normal number the two leave the mantissa and lower the exponent; on a
    subnormal number the two drop the last bit of the mantissa and round on
    it. *)

Lemma half_eq : of_ratio 1 2 = S754_finite false 8388608 (-24).
Proof. reflexivity. Qed.

Lemma two_eq : of_int 2 = S754_finite false 8388608 (-22).
Proof. reflexivity. Qed.

Lemma bounded_cases (m : positive) (e : Z) :
  bounded prec emax m e = true →
  e ≤ 104 ∧ ((-149 < e ∧ Zpos (digits2_pos m) = 24) ∨ (e = -149 ∧ Zpos (digits2_pos m) ≤ 24)).
Proof.
  unfold bounded, canonical_mantissa, fexp, emin, prec, emax.
  intros [H1 H2]%andb_prop. apply Z.eqb_eq in H1. apply Z.leb_le in H2. lia.
Qed.

(** [8388608 * m], the mantissa of a product with [0.5f]. *)
Local Abbreviation shl23 m :=
  (m~0~0~0~0~0~0~0~0~0~0~0~0~0~0~0~0~0~0~0~0~0~0~0)%positive.

Lemma shr_23 (m : positive) :
  SpecFloat.iter_pos shr_1 23 (Build_shr_record (Zpos (shl23 m)) false false)
  = Build_shr_record (Zpos m) false false.
Proof. reflexivity. Qed.

Lemma mul_half_normal (s : bool) (m : positive) (e : Z) :
  -149 < e ≤ 104 → Zpos (digits2_pos m) = 24 →
  mul (S754_finite s m e) (S754_finite false 8388608 (-24)) = S754_finite s m (e - 1).
Proof.
  intros He Hd. unfold mul, SFmul. rewrite xorb_false_r.
  rewrite Pos.mul_comm. change (8388608 * m)%positive with (shl23 m).
  unfold binary_round_aux, shr_fexp, Zdigits2.
  replace (Zpos (digits2_pos (shl23 m))) with 47
    by (cbn [digits2_pos]; rewrite !Pos2Z.inj_succ; lia).
  unfold fexp, emin, prec, emax.
  replace (Z.max _ _ - (e + -24)) with 23 by lia.
  cbn [shr shr_record_of_loc]. rewrite shr_23.
  cbn [shr_m loc_of_shr_record round_nearest_even]. rewrite Hd.
  replace (Z.max _ _ - (e + -24 + 23)) with 0 by lia.
  cbn [shr shr_m].
  replace (e + -24 + 23) with (e - 1) by lia.
  replace (e - 1 <=? 128 - 24) with true by (symmetry; apply Z.leb_le; lia).
  done.
Qed.

Lemma div_eucl_pair (a b : Z) : Z.div_eucl a b = (a / b, a mod b).
Proof. unfold Z.div, Z.modulo. by destruct (Z.div_eucl a b). Qed.

Lemma shr_1_double (m : positive) :
  SpecFloat.iter_pos shr_1 1 (Build_shr_record (Zpos m~0) false false)
  = Build_shr_record (Zpos m) false false.
Proof. reflexivity. Qed.

Lemma binary_round_aux_exact (s : bool) (m : positive) (e : Z) :
  e ≤ 104 → Z.max (Zpos (digits2_pos m) + e - 24) (-149) = e →
  binary_round_aux prec emax s (Zpos m) e loc_Exact = S754_finite s m e.
Proof.
  intros He Hd. unfold binary_round_aux, shr_fexp, Zdigits2, fexp, emin, prec, emax.
  replace (Z.max _ _ - e) with 0 by lia.
  cbn [shr shr_record_of_loc shr_m loc_of_shr_record round_nearest_even].
  replace (Z.max _ _ - e) with 0 by lia.
  cbn [shr shr_m].
  replace (e <=? 128 - 24) with true by (symmetry; apply Z.leb_le; lia).
  done.
Qed.

Lemma div_two_normal (s : bool) (m : positive) (e : Z) :
  -149 < e ≤ 104 → Zpos (digits2_pos m) = 24 →
  div (S754_finite s m e) (S754_finite false 8388608 (-22)) = S754_finite s m (e - 1).
Proof.
  intros He Hd. unfold div, SFdiv, SFdiv_core_binary. rewrite xorb_false_r.
  unfold Zdigits2. rewrite Hd. change (Zpos (digits2_pos 8388608)) with 24.
  unfold fexp, emin, prec, emax.
  change IntDef.Z.div_eucl with Z.div_eucl.
  destruct (decide (e = -148)) as [->|Hne].
  - replace (Z.min _ _) with (-149) by lia.
    replace (-148 - -22 - -149) with 23 by lia.
    rewrite Z.shiftl_mul_pow2 by lia. change (2 ^ 23) with 8388608.
    rewrite div_eucl_pair, Z.div_mul, Z.mod_mul by lia.
    change (new_location 8388608 0) with loc_Exact.
    apply binary_round_aux_exact; lia.
  - replace (Z.min _ _) with (e - 2) by lia.
    replace (e - -22 - (e - 2)) with 24 by lia.
    rewrite Z.shiftl_mul_pow2 by lia.
    replace (Zpos m * 2 ^ 24) with (Zpos m~0 * 8388608) by lia.
    rewrite div_eucl_pair, Z.div_mul, Z.mod_mul by lia.
    change (new_location 8388608 0) with loc_Exact.
    unfold binary_round_aux, shr_fexp, Zdigits2. cbn [digits2_pos].
    rewrite Pos2Z.inj_succ, Hd. unfold fexp, emin, prec, emax.
    replace (Z.max _ _ - (e - 2)) with 1 by lia.
    cbn [shr shr_record_of_loc]. rewrite shr_1_double.
    cbn [shr_m loc_of_shr_record round_nearest_even]. rewrite Hd.
    replace (Z.max _ _ - (e - 2 + 1)) with 0 by lia.
    cbn [shr shr_m].
    replace (e - 2 + 1) with (e - 1) by lia.
    replace (e - 1 <=? 128 - 24) with true by (symmetry; apply Z.leb_le; lia).
    done.
Qed.

Lemma shr_24 (m : positive) :
  SpecFloat.iter_pos shr_1 24 (Build_shr_record (Zpos (shl23 m)) false false)
  = shr_1 (Build_shr_record (Zpos m) false false).
Proof. reflexivity. Qed.

Lemma mul_half_subnormal_eq (s : bool) (m : positive) :
  Zpos (digits2_pos m) ≤ 24 →
  mul (S754_finite s m (-149)) (S754_finite false 8388608 (-24))
  = binary_round_aux prec emax s
      (shr_m (shr_1 (Build_shr_record (Zpos m) false false))) (-149)
      (loc_of_shr_record (shr_1 (Build_shr_record (Zpos m) false false))).
Proof.
  intros Hd. unfold mul, SFmul. rewrite xorb_false_r.
  rewrite Pos.mul_comm. change (8388608 * m)%positive with (shl23 m).
  unfold binary_round_aux, shr_fexp, Zdigits2.
  replace (Zpos (digits2_pos (shl23 m))) with (Zpos (digits2_pos m) + 23)
    by (cbn [digits2_pos]; rewrite !Pos2Z.inj_succ; lia).
  unfold fexp, emin, prec, emax.
  replace (Z.max _ _ - (-149 + -24)) with 24 by lia.
  cbn [shr shr_record_of_loc]. rewrite shr_24.
  replace (-149 + -24 + 24) with (-149) by lia.
  destruct m as [p|p|]; [| |reflexivity];
    cbn [digits2_pos] in Hd; rewrite Pos2Z.inj_succ in Hd;
    cbn [shr_1 shr_m loc_of_shr_record orb Zdigits2];
    replace (Z.max (Zpos (digits2_pos p) + -149 - 24) (3 - 128 - 24) - -149)
      with 0 by lia; reflexivity.
Qed.

Lemma div_two_subnormal_eq (s : bool) (m : positive) :
  Zpos (digits2_pos m) ≤ 24 →
  div (S754_finite s m (-149)) (S754_finite false 8388608 (-22))
  = binary_round_aux prec emax s
      (shr_m (shr_1 (Build_shr_record (Zpos m) false false))) (-149)
      (loc_of_shr_record (shr_1 (Build_shr_record (Zpos m) false false))).
Proof.
  intros Hd. unfold div, SFdiv, SFdiv_core_binary. rewrite xorb_false_r.
  unfold Zdigits2. change (Zpos (digits2_pos 8388608)) with 24.
  unfold fexp, emin, prec, emax.
  change IntDef.Z.div_eucl with Z.div_eucl.
  replace (Z.min _ _) with (-149) by lia.
  replace (-149 - -22 - -149) with 22 by lia.
  rewrite Z.shiftl_mul_pow2 by lia. change (2 ^ 22) with 4194304.
  rewrite div_eucl_pair.
  destruct m as [p|p|]; [| |reflexivity].
  - replace (Zpos p~1 * 4194304) with (Zpos p * 8388608 + 4194304) by lia.
    rewrite Z.div_add_l, Z.div_small, Z.add_0_r by lia.
    rewrite Z.add_comm, Z.mod_add, Z.mod_small by lia.
    reflexivity.
  - replace (Zpos p~0 * 4194304) with (Zpos p * 8388608) by lia.
    rewrite Z.div_mul, Z.mod_mul by lia.
    reflexivity.
Qed.

Lemma mul_half_subnormal (s : bool) (m : positive) :
  Zpos (digits2_pos m) ≤ 24 →
  mul (S754_finite s m (-149)) (S754_finite false 8388608 (-24))
  = div (S754_finite s m (-149)) (S754_finite false 8388608 (-22)).
Proof.
  intros Hd. by rewrite mul_half_subnormal_eq, div_two_subnormal_eq.
Qed.

(** Every binary32 number, finite or not, is halved alike by the two. *)
Lemma mul_half (a : float) :
  valid_binary prec emax a = true → mul a (of_ratio 1 2) = div a (of_int 2).
Proof.
  rewrite half_eq, two_eq. destruct a as [s|s| |s m e]; try done.
  intros (He & [[He' Hd]|[-> Hd]])%bounded_cases.
  - rewrite mul_half_normal, div_two_normal by lia. done.
  - by apply mul_half_subnormal.
Qed.

End binary32_facts.

(** The constants of the sources, in binary32. *)
Example literal_1_333f : literal 1333 1000 = S754_finite false 11182014 (-23).
Proof. reflexivity. Qed.

Example literal_0_65f : literal 65 100 = S754_finite false 10905190 (-24).
Proof. reflexivity. Qed.

Example spawn_period : (literal 1 1 / literal 5000 1)%fl = S754_finite false 13743895 (-36).
Proof. reflexivity. Qed.

(** A 1280 by 960 viewport has the ratio 4/3, which is not [1.333f]. *)
Example viewport_ratio_1280_960 :
  (float_of_int 1280 / float_of_int 960)%fl = S754_finite false 11184811 (-23).
Proof. reflexivity. Qed.

(** ** The camera *)

Section CameraFacts.
Context {float : Type} `{!FloatOps float, !D3DXOps float, !Libm float}.
Local Open Scope float_scope.

Implicit Types (c : CCamera float).

Lemma UpdateMatrices_fields w h c :
  m_Position (UpdateMatrices w h c) = m_Position c ∧
  m_Rotation (UpdateMatrices w h c) = m_Rotation c ∧
  m_FOV (UpdateMatrices w h c) = m_FOV c ∧
  m_Aspect (UpdateMatrices w h c) = m_Aspect c ∧
  m_NearClip (UpdateMatrices w h c) = m_NearClip c ∧
  m_FarClip (UpdateMatrices w h c) = m_FarClip c.
Proof. done. Qed.

Lemma UpdateMatrices_world w h c :
  m_WorldMatrix (UpdateMatrices w h c) = world_of (m_Position c) (m_Rotation c).
Proof. done. Qed.

Lemma UpdateMatrices_view w h c :
  m_ViewMatrix (UpdateMatrices w h c) =
  default (m_ViewMatrix c) (D3DXMatrixInverse (world_of (m_Position c) (m_Rotation c))).
Proof. done. Qed.

Lemma UpdateMatrices_proj w h c :
  m_ProjMatrix (UpdateMatrices w h c) =
  D3DXMatrixPerspectiveFovLH (m_FOV c) (m_Aspect c) (m_NearClip c) (m_FarClip c).
Proof. done. Qed.

Lemma UpdateMatrices_viewproj w h c :
  m_ViewProjMatrix (UpdateMatrices w h c) =
  m_ViewMatrix (UpdateMatrices w h c) × m_ProjMatrix (UpdateMatrices w h c).
Proof. done. Qed.

(** A second update without a change in between changes nothing: when no
    inverse is found the view matrix stays what it was both times. *)
Lemma UpdateMatrices_idempotent w h w' h' c :
  UpdateMatrices w' h' (UpdateMatrices w h c) = UpdateMatrices w h c.
Proof.
  unfold UpdateMatrices; cbn.
  by destruct (D3DXMatrixInverse _).
Qed.

Lemma call_m_Aspect (k : CameraCall) c : m_Aspect (call k c) = m_Aspect c.
Proof. by destruct k. Qed.

Lemma calls_m_Aspect (ks : list CameraCall) c : m_Aspect (calls ks c) = m_Aspect c.
Proof.
  revert c; induction ks as [|k ks IH]; intros c; [done|].
  cbn. unfold calls in IH. by rewrite IH, call_m_Aspect.
Qed.

End CameraFacts.

(** *** The documented matrices, in exact arithmetic *)

Section ExactMatrices.
Local Open Scope R_scope.

(** The transposed cofactors over the determinant are an inverse on both
    sides. *)
Lemma adjugate_left (m : D3DXMATRIX R) :
  determinant m ≠ 0 →
  multiply (adjugate_over (determinant m) m) m = identity.
Proof.
  intros Hd. destruct m.
  unfold multiply, adjugate_over, identity, dot4, det3, determinant in *; cbn in *.
  f_equal; field; exact Hd.
Qed.

Lemma adjugate_right (m : D3DXMATRIX R) :
  determinant m ≠ 0 →
  multiply m (adjugate_over (determinant m) m) = identity.
Proof.
  intros Hd. destruct m.
  unfold multiply, adjugate_over, identity, dot4, det3, determinant in *; cbn in *.
  f_equal; field; exact Hd.
Qed.

(** Rotations and translations keep volumes: the determinant of the world
    matrix of a camera is 1, wherever the camera is and however it is turned. *)
Lemma determinant_world (p r : D3DXVECTOR3 R) : determinant (world_of p r) = 1.
Proof.
  destruct p as [px py pz], r as [rx ry rz].
  pose proof (sin2_cos2 rx) as Hx.
  pose proof (sin2_cos2 ry) as Hy.
  pose proof (sin2_cos2 rz) as Hz.
  unfold Rsqr in *. cbn -[sin cos].
  generalize dependent (sin rx). generalize dependent (cos rx).
  generalize dependent (sin ry). generalize dependent (cos ry).
  generalize dependent (sin rz). generalize dependent (cos rz).
  intros cz sz Hz cy sy Hy cx sx Hx.
  unfold determinant, multiply, dot4, det3, rotation_x, rotation_y, rotation_z,
    translation; cbn.
  transitivity ((sx * sx + cx * cx) * (sy * sy + cy * cy) * (sz * sz + cz * cz)).
  - ring.
  - rewrite Hx, Hy, Hz. ring.
Qed.

Lemma inverse_world (p r : D3DXVECTOR3 R) :
  D3DXMatrixInverse (world_of p r) = Some (adjugate_over 1 (world_of p r)).
Proof.
  change (D3DXMatrixInverse (world_of p r)) with
    (inverse (λ d, if Req_dec_T d 0 then true else false) (world_of p r)).
  unfold inverse. rewrite determinant_world.
  destruct (Req_dec_T 1 0) as [H|_]; [lra|done].
Qed.

End ExactMatrices.

(** C1. After [UpdateMatrices], in any arithmetic and with any D3DX: the
    world matrix is [Rz(rotation.z) · Rx(rotation.x) · Ry(rotation.y) ·
    T(position)], the view matrix is the inverse D3DX finds for it, the
    projection matrix is [D3DXMatrixPerspectiveFovLH] of the field of view,
    the aspect ratio and the clip distances, and the combined matrix is
    view · projection.  In exact arithmetic, with D3DX as documented, the
    inverse is found for every camera, and the view matrix is the inverse of
    the world matrix on both sides; the projection matrix is the documented
    perspective matrix. *)
Theorem UpdateMatrices_matrices :
  (∀ (float : Type) (ops : FloatOps float) (d3dx : D3DXOps float)
     (w h : Z) (c : CCamera float),
     let c' := UpdateMatrices w h c in
     m_WorldMatrix c' = world_of (m_Position c) (m_Rotation c)
     ∧ (∀ V, D3DXMatrixInverse (m_WorldMatrix c') = Some V → m_ViewMatrix c' = V)
     ∧ m_ProjMatrix c' =
         D3DXMatrixPerspectiveFovLH (m_FOV c) (m_Aspect c) (m_NearClip c) (m_FarClip c)
     ∧ m_ViewProjMatrix c' = (m_ViewMatrix c' × m_ProjMatrix c')%fl)
  ∧ (∀ (w h : Z) (c : CCamera R),
     let c' := UpdateMatrices w h c in
     D3DXMatrixInverse (m_WorldMatrix c') = Some (m_ViewMatrix c')
     ∧ multiply (m_ViewMatrix c') (m_WorldMatrix c') = identity
     ∧ multiply (m_WorldMatrix c') (m_ViewMatrix c') = identity
     ∧ m_ProjMatrix c' =
         perspective_fov_lh tan (m_FOV c) (m_Aspect c) (m_NearClip c) (m_FarClip c)
     ∧ m_ViewProjMatrix c' = multiply (m_ViewMatrix c') (m_ProjMatrix c')).
Proof.
  split.
  - intros float ops d3dx w h c c'. subst c'. repeat split.
    intros V HV. rewrite UpdateMatrices_world in HV.
    by rewrite UpdateMatrices_view, HV.
  - intros w h c c'.
    assert (m_WorldMatrix c' = world_of (m_Position c) (m_Rotation c)) as HW by done.
    assert (m_ViewMatrix c' = adjugate_over 1%R (world_of (m_Position c) (m_Rotation c)))
      as HV.
    { subst c'. by rewrite UpdateMatrices_view, inverse_world. }
    rewrite HW, HV. repeat split.
    + apply inverse_world.
    + pose proof (adjugate_left (world_of (m_Position c) (m_Rotation c))) as H.
      rewrite determinant_world in H. apply H. lra.
    + pose proof (adjugate_right (world_of (m_Position c) (m_Rotation c))) as H.
      rewrite determinant_world in H. apply H. lra.
    + by rewrite <- HV.
Qed.

(** On the camera of the stand-ins, one unit along the x axis: D3DX finds
    the inverse of its world matrix, and the view matrix is that inverse. *)
Lemma UpdateMatrices_matrices_witness :
  m_ViewMatrix
    (@UpdateMatrices _ binary32.arith binary32.standin_d3dx 1280%Z 960%Z camera_at_1_0_0)
  = view_at_1_0_0.
Proof.
  apply (proj1 (proj2 (proj1 UpdateMatrices_matrices _ binary32.arith
                         binary32.standin_d3dx 1280%Z 960%Z camera_at_1_0_0))).
  vm_compute. reflexivity.
Defined.

(** C6. [GetProjectionMatrix]: for [Monoscopic] the cached projection matrix;
    for the left and the right eye the cached matrix with [_31] replaced by
    [(offset / screenDistance) / (m_Aspect * tanf(m_FOV/2))] and every other
    entry as it was, where [offset] is [interocular * -0.5f] for the left eye
    and [interocular * 0.5f] for the right eye.  This holds in any arithmetic
    and for any [tanf], hence also for [0 < fov < π].  The left offset is the
    right one negated and the right offset is [interocular / 2], in binary32
    (for every number of the format) as in exact arithmetic. *)
Theorem GetProjectionMatrix_shear :
  (∀ (float : Type) (ops : FloatOps float) (libm : Libm float)
     (interocular screenDistance : float) (c : CCamera float),
     let shear offset :=
       ((offset / screenDistance) / (m_Aspect c * tanf (m_FOV c / float_of_int 2)))%fl in
     let left := GetProjectionMatrix StereoscopicLeft interocular screenDistance c in
     let right := GetProjectionMatrix StereoscopicRight interocular screenDistance c in
     GetProjectionMatrix Monoscopic interocular screenDistance c = m_ProjMatrix c
     ∧ _31 left = shear (interocular * - literal 1 2)%fl
     ∧ same_but_31 left (m_ProjMatrix c)
     ∧ _31 right = shear (interocular * literal 1 2)%fl
     ∧ same_but_31 right (m_ProjMatrix c))
  ∧ (∀ interocular : binary32.float,
       (interocular * - literal 1 2 = - (interocular * literal 1 2))%fl)
  ∧ (∀ interocular : binary32.float,
       valid_binary binary32.prec binary32.emax interocular = true →
       (interocular * literal 1 2 = interocular / float_of_int 2)%fl)
  ∧ (∀ interocular : R,
       (interocular * - literal 1 2)%fl = (- (interocular / 2))%R
       ∧ (interocular * literal 1 2)%fl = (interocular / 2)%R).
Proof.
  split_and!.
  - intros float ops libm interocular screenDistance c. cbn zeta.
    unfold same_but_31. by repeat split.
  - intros interocular. apply binary32_facts.mul_opp_r.
  - intros interocular. apply binary32_facts.mul_half.
  - intros interocular. cbn. split; lra.
Qed.

(** C7, as amended.  [GetPosition(Monoscopic, d)] is the position, for any
    [d] and in any arithmetic.  In binary32 the right eye is at
    [position + row * (d * 0.5f)] and the left eye at
    [position + -(row * (d * 0.5f))], each sum rounded, where [row] is row 0
    of the world matrix: the two offsets added are opposite.  In exact
    arithmetic the two eyes are mirrored about the position. *)
Theorem GetPosition_offsets :
  (∀ (float : Type) (ops : FloatOps float) (d : float) (c : CCamera float),
     GetPosition Monoscopic d c = m_Position c)
  ∧ (∀ (d : binary32.float) (c : CCamera binary32.float),
       let p := m_Position c in
       let w := m_WorldMatrix c in
       let half := (d * literal 1 2)%fl in
       GetPosition StereoscopicRight d c =
         mkD3DXVECTOR3 (x p + _11 w * half)%fl (y p + _12 w * half)%fl (z p + _13 w * half)%fl
       ∧ GetPosition StereoscopicLeft d c =
         mkD3DXVECTOR3 (x p + - (_11 w * half))%fl (y p + - (_12 w * half))%fl
                       (z p + - (_13 w * half))%fl)
  ∧ (∀ (d : R) (c : CCamera R),
       mirrored (m_Position c)
         (GetPosition StereoscopicLeft d c) (GetPosition StereoscopicRight d c)).
Proof.
  split; [|split].
  - done.
  - intros d c p w half. split; [done|].
    unfold GetPosition, stereo_offset.
    rewrite decide_False, decide_True by done. cbn -[literal].
    by rewrite !binary32_facts.mul_opp_r.
  - intros d c. unfold mirrored, GetPosition, stereo_offset.
    repeat case_decide; try done. cbn. repeat split; lra.
Qed.

(** What the camera one unit along the x axis holds. *)
Example camera_at_1_0_0_world :
  m_WorldMatrix camera_at_1_0_0 =
  let O := binary32.of_int 0 in
  let I := binary32.of_int 1 in
  mkD3DXMATRIX I O O O  O I O O  O O I O  I O O I.
Proof. vm_compute. reflexivity. Qed.

(** C7, as stated, fails in binary32.  The camera is one unit along the x
    axis and not rotated; the eyes are 0.65 apart.  Above 1 the floats are
    [2^-23] apart and below 1 they are [2^-24] apart: the left eye lands on
    [1 - 0.325f], the right eye next to [1 + 0.325f], and the two distances
    to the position differ in their last place. *)
Lemma GetPosition_not_mirrored_binary32 :
  let left := GetPosition StereoscopicLeft (literal 65 100) camera_at_1_0_0 in
  let right := GetPosition StereoscopicRight (literal 65 100) camera_at_1_0_0 in
  let p := m_Position camera_at_1_0_0 in
  x left = S754_finite false 11324621 (-24)
  ∧ x right = S754_finite false 11114906 (-23)
  ∧ (x right - x p)%fl = S754_finite false 10905192 (-25)
  ∧ (- (x left - x p))%fl = S754_finite false 10905190 (-25)
  ∧ ¬ mirrored p left right.
Proof.
  cbv zeta. split_and!; [by vm_compute..|].
  intros [H _]. vm_compute in H. discriminate H.
Qed.

(** C9. A camera is constructed from a position, a rotation, a field of view
    and two clip distances, and [UpdateMatrices] is called.
    [GetViewProjectionMatrix(Monoscopic)] then returns the cached combined
    matrix, which is the cached view matrix times the cached projection
    matrix; it returns the same matrix whatever its other arguments are and
    however often it is called, since it assigns nothing; and a further
    [UpdateMatrices] leaves the camera as it is. *)
Theorem GetViewProjectionMatrix_monoscopic :
  ∀ (float : Type) (ops : FloatOps float) (d3dx : D3DXOps float) (libm : Libm float)
    (storage : CCamera float) (w h w' h' w'' h'' : Z)
    (position rotation : D3DXVECTOR3 float) (fov nearClip farClip : float)
    (junk junk' : D3DXMATRIX float)
    (interocular screenDistance interocular' screenDistance' : float),
    let c := UpdateMatrices w' h'
               (new_CCamera storage w h position rotation fov nearClip farClip) in
    GetViewProjectionMatrix junk Monoscopic interocular screenDistance c
      = m_ViewProjMatrix c
    ∧ m_ViewProjMatrix c = (m_ViewMatrix c × m_ProjMatrix c)%fl
    ∧ GetViewProjectionMatrix junk' Monoscopic interocular' screenDistance' c
      = GetViewProjectionMatrix junk Monoscopic interocular screenDistance c
    ∧ UpdateMatrices w'' h'' c = c.
Proof.
  intros. subst c. repeat split.
  apply UpdateMatrices_idempotent.
Qed.

(** C10. The viewport globals do not enter what [UpdateMatrices] computes.
    The aspect ratio of a camera is [1.333f] from its construction on,
    whatever is called on it afterwards; the projection matrix is built from
    it, and the shear of the stereo projections divides by it. *)
Theorem projection_uses_m_Aspect :
  ∀ (float : Type) (ops : FloatOps float) (d3dx : D3DXOps float) (libm : Libm float),
    (∀ (w h w' h' : Z) (c : CCamera float),
       UpdateMatrices w h c = UpdateMatrices w' h' c)
    ∧ (∀ (storage : CCamera float) (w h : Z)
         (position rotation : D3DXVECTOR3 float) (fov nearClip farClip : float)
         (ks : list CameraCall),
         let c := calls ks (new_CCamera storage w h position rotation fov nearClip farClip) in
         m_Aspect c = literal 1333 1000
         ∧ (∀ w' h' : Z,
              m_ProjMatrix (UpdateMatrices w' h' c) =
              D3DXMatrixPerspectiveFovLH (m_FOV c) (literal 1333 1000)
                (m_NearClip c) (m_FarClip c))
         ∧ (∀ (stereo : EStereoscopic) (interocular screenDistance : float),
              stereo = Monoscopic
              ∨ _31 (GetProjectionMatrix stereo interocular screenDistance c) =
                ((stereo_offset stereo interocular / screenDistance)
                 / (literal 1333 1000 * tanf (m_FOV c / float_of_int 2)))%fl)).
Proof.
  intros float ops d3dx libm. split; [done|].
  intros storage w h position rotation fov nearClip farClip ks c.
  assert (m_Aspect c = literal 1333 1000) as Ha.
  { subst c. by rewrite calls_m_Aspect. }
  split; [done|]. split.
  - intros w' h'. by rewrite UpdateMatrices_proj, Ha.
  - intros stereo interocular screenDistance.
    destruct stereo; [by left|right..];
      unfold GetProjectionMatrix; rewrite decide_False by done;
      unfold set_31; cbn [_31]; by rewrite Ha.
Qed.

(** ** The light population *)

Section LightFacts.
Context {float : Type} `{!FloatOps float, !D3DXOps float, !Libm float, !MathDX float}.
Local Open Scope float_scope.

Implicit Types (s : Scene float) (f : Frame float).

(** *** The spawn step *)

Lemma spawn_one_eq s :
  spawn_one s =
    mkScene (MainCamera s) (NumPointLights s + 1)
      (<[Z.to_nat (NumPointLights s) := (new_light (rng s)).1]> (PointLights s))
      (emit s) (LightVertexBuffer s) (Deferred s) (new_light (rng s)).2.
Proof. unfold spawn_one. by destruct (new_light _). Qed.

Lemma spawned_refl s : spawned s s.
Proof. unfold spawned. by split_and!. Qed.

Lemma spawned_trans s1 s2 s3 : spawned s1 s2 → spawned s2 s3 → spawned s1 s3.
Proof.
  unfold spawned.
  intros (Hc & Hb & Hd & Hle & Hmax & Hfull & Hlen & Hframe)
         (Hc' & Hb' & Hd' & Hle' & Hmax' & Hfull' & Hlen' & Hframe').
  split_and!; try congruence; try lia.
  - intros Hge. destruct Hfull as (Hn & Hl & Hg); [done|].
    destruct Hfull' as (Hn' & Hl' & Hg'); [lia|].
    split_and!; congruence.
  - intros Hpos i Hi. rewrite Hframe' by lia. by rewrite Hframe by lia.
Qed.

Lemma spawned_set_emit e s : spawned s (set_emit e s).
Proof. unfold spawned. by split_and!. Qed.

Lemma spawned_spawn_one s :
  (NumPointLights s < MaxPointLights)%Z → spawned s (spawn_one s).
Proof.
  intros Hlt. rewrite spawn_one_eq.
  unfold spawned; cbn. repeat split; try lia.
  - by rewrite length_insert.
  - intros Hpos i Hi. apply list_lookup_insert_ne. lia.
Qed.

(** The pass of the loop. *)
Lemma spawn_loop_S fuel s :
  spawn_loop (S fuel) s =
  if emit s <? float_of_int 0 then
    let s := if (NumPointLights s <? MaxPointLights)%Z then spawn_one s else s in
    spawn_loop fuel (set_emit (emit s + literal 1 1 / LightSpawnFreq) s)
  else Some s.
Proof. done. Qed.

Lemma spawn_loop_spawned fuel s s' : spawn_loop fuel s = Some s' → spawned s s'.
Proof.
  revert s; induction fuel as [|fuel IH]; intros s.
  - cbn. destruct (emit s <? _); [done|]. intros [= <-]. apply spawned_refl.
  - rewrite spawn_loop_S. destruct (emit s <? _); [|intros [= <-]; apply spawned_refl].
    cbn zeta. destruct (Z.ltb_spec (NumPointLights s) MaxPointLights) as [Hlt|Hge];
      intros Hs'; apply IH in Hs'.
    + eapply spawned_trans; [by apply spawned_spawn_one|].
      eapply spawned_trans; [apply spawned_set_emit|exact Hs'].
    + eapply spawned_trans; [apply spawned_set_emit|exact Hs'].
Qed.

Lemma spawn_loop_count_loop fuel s :
  (λ s', (emit s', NumPointLights s')) <$> spawn_loop fuel s
  = count_loop fuel (emit s) (NumPointLights s).
Proof.
  revert s; induction fuel as [|fuel IH]; intros s.
  - cbn. by destruct (emit s <? _).
  - rewrite spawn_loop_S. cbn [count_loop]. destruct (emit s <? _); [|done].
    cbn zeta. rewrite IH. destruct (NumPointLights s <? MaxPointLights)%Z; [|done].
    by rewrite spawn_one_eq.
Qed.

Lemma add_back_S k e :
  add_back (S k) e = add_back k (e + literal 1 1 / LightSpawnFreq).
Proof. unfold add_back. by rewrite Nat.iter_succ_r. Qed.

(** The loop makes as many passes as it takes for the accumulator not to be
    negative, each pass adds the period, and the live count grows by one a
    pass until it is at the capacity. *)
Lemma count_loop_passes fuel e n e' n' :
  count_loop fuel e n = Some (e', n') →
  ∃ k : nat, k ≤ fuel ∧ e' = add_back k e
    ∧ (e' <? float_of_int 0) = false
    ∧ (∀ j : nat, j < k → (add_back j e <? float_of_int 0) = true)
    ∧ n' = Z.max n (Z.min (n + Z.of_nat k) MaxPointLights).
Proof.
  revert e n; induction fuel as [|fuel IH]; intros e n; cbn [count_loop];
    destruct (e <? _) eqn:He; try done.
  - intros [= <- <-]. exists 0. split_and!; [lia|done|done|lia|lia].
  - intros (k & Hk & -> & Hn & Hlt & ->)%IH. exists (S k).
    split_and!; [lia|by rewrite add_back_S|done| |].
    + intros [|j] Hj; [done|]. rewrite add_back_S. apply Hlt. lia.
    + destruct (Z.ltb_spec n MaxPointLights); lia.
  - intros [= <- <-]. exists 0. split_and!; [lia|done|done|lia|lia].
Qed.

(** Enough fuel gives the result. *)
Lemma count_loop_enough (k fuel : nat) e n :
  k ≤ fuel →
  (add_back k e <? float_of_int 0) = false →
  (∀ j : nat, j < k → (add_back j e <? float_of_int 0) = true) →
  count_loop fuel e n
  = Some (add_back k e, Z.max n (Z.min (n + Z.of_nat k) MaxPointLights)).
Proof.
  revert fuel e n; induction k as [|k IH]; intros fuel e n Hk Hn Hlt.
  - cbn in Hn. destruct fuel; cbn; rewrite Hn; do 2 f_equal; lia.
  - destruct fuel as [|fuel]; [lia|]. cbn [count_loop].
    pose proof (Hlt 0 ltac:(lia)) as H0. cbn in H0. rewrite H0.
    rewrite add_back_S in Hn.
    rewrite IH; [|lia|done|].
    + f_equal. rewrite add_back_S. f_equal.
      destruct (Z.ltb_spec n MaxPointLights); lia.
    + intros j Hj. rewrite <- add_back_S. apply Hlt. lia.
Qed.

Lemma count_loop_mono fuel fuel' e n r :
  fuel ≤ fuel' → count_loop fuel e n = Some r → count_loop fuel' e n = Some r.
Proof.
  destruct r as [e' n']. intros Hle (k & Hk & -> & Hn & Hlt & ->)%count_loop_passes.
  apply count_loop_enough; [lia|done|done].
Qed.

Lemma count_run_mono fuel fuel' dts en r :
  fuel ≤ fuel' → count_run fuel dts en = Some r → count_run fuel' dts en = Some r.
Proof.
  intros Hle. revert en; induction dts as [|dt dts IH]; intros en; [done|].
  cbn. unfold count_frame.
  destruct (count_loop fuel _ _) as [en'|] eqn:Hen; [|done].
  rewrite (count_loop_mono _ _ _ _ _ Hle Hen). cbn. apply IH.
Qed.

Lemma spawn_enough (k fuel : nat) dt s :
  k ≤ fuel →
  (add_back k (emit s - dt) <? float_of_int 0) = false →
  (∀ j : nat, j < k → (add_back j (emit s - dt) <? float_of_int 0) = true) →
  ∃ s', spawn fuel dt s = Some s'.
Proof.
  intros Hk Hn Hlt. unfold spawn.
  pose proof (spawn_loop_count_loop fuel (set_emit (emit s - dt) s)) as Hc.
  cbn in Hc. rewrite (count_loop_enough k) in Hc by done.
  destruct (spawn_loop _ _); [eauto|done].
Qed.

(** The spawn step does not look at the lights from the live count on. *)
Lemma same_live_set_emit e sa sb :
  same_live sa sb → same_live (set_emit e sa) (set_emit e sb).
Proof.
  unfold same_live. intros (? & ? & ? & ? & ? & ? & ? & ?). by split_and!.
Qed.

Lemma same_live_spawn_one sa sb :
  same_live sa sb →
  (0 ≤ NumPointLights sa)%Z →
  Z.to_nat (NumPointLights sa) < length (PointLights sa) →
  same_live (spawn_one sa) (spawn_one sb).
Proof.
  intros (Hc & Hn & He & Hb & Hd & Hg & Hlen & Htake) Hpos Hlt.
  rewrite !spawn_one_eq. unfold same_live; cbn.
  rewrite <- Hn, <- Hg. split_and!; try done; try congruence.
  - by rewrite !length_insert.
  - rewrite <- Hn in Htake.
    replace (Z.to_nat (NumPointLights sa + 1)) with (S (Z.to_nat (NumPointLights sa))) by lia.
    rewrite !(take_S_r _ _ (new_light (rng sa)).1);
      [|apply list_lookup_insert_eq; lia..].
    rewrite !take_insert_ge by lia. by rewrite Htake.
Qed.

Lemma spawn_loop_same_live fuel sa sb sa' :
  same_live sa sb →
  (0 ≤ NumPointLights sa)%Z →
  length (PointLights sa) = Z.to_nat MaxPointLights →
  spawn_loop fuel sa = Some sa' →
  ∃ sb', spawn_loop fuel sb = Some sb' ∧ same_live sa' sb'.
Proof.
  revert sa sb; induction fuel as [|fuel IH]; intros sa sb Hab Hpos Hlen.
  - cbn. destruct Hab as (Hc & Hn & He & Hrest). rewrite <- He.
    destruct (emit sa <? _); [done|]. intros [= <-]. by exists sb.
  - rewrite !spawn_loop_S. pose proof Hab as (Hc & Hn & He & Hrest). rewrite <- He, <- Hn.
    destruct (emit sa <? _); [|intros [= <-]; eauto].
    cbn zeta. destruct (Z.ltb_spec (NumPointLights sa) MaxPointLights) as [Hlt|Hge].
    + assert (same_live (spawn_one sa) (spawn_one sb)) as Hab'
        by (apply same_live_spawn_one; [done|done|lia]).
      pose proof Hab' as (_ & _ & He' & _). rewrite <- He'.
      apply IH; [by apply same_live_set_emit| |].
      * rewrite spawn_one_eq; cbn. lia.
      * rewrite spawn_one_eq; cbn. by rewrite length_insert.
    + rewrite <- He. apply IH; [by apply same_live_set_emit|done|done].
Qed.

(** *** The orbit step *)

Lemma orbit_from_length n i dt (l : list (SPointLight float)) :
  length (orbit_from n i dt l) = length l.
Proof.
  revert i l; induction n as [|n IH]; intros i l; [done|].
  cbn. by rewrite IH, length_alter.
Qed.

Lemma orbit_from_lookup n i dt (l : list (SPointLight float)) (j : nat) :
  orbit_from n i dt l !! j =
  if decide (i ≤ j < i + n) then orbit_light dt <$> l !! j else l !! j.
Proof.
  revert i l; induction n as [|n IH]; intros i l.
  - cbn. case_decide; [lia|done].
  - cbn. rewrite IH. destruct (decide (i = j)) as [->|Hne].
    + rewrite list_lookup_alter_eq. repeat case_decide; try lia; done.
    + rewrite list_lookup_alter_ne by done. repeat case_decide; try lia; done.
Qed.

(** *** A frame *)

(** What the frame has done when [UpdateScene] returns. *)
Lemma UpdateScene_Returns fuel f s s' :
  UpdateScene fuel f s = Returns s' →
  ∃ s1, spawn fuel (frameTime f) (update_camera f s) = Some s1
    ∧ FAILED (Map_hr f) = false
    ∧ s' = toggle_deferred f
             (mkScene (MainCamera s1) (NumPointLights s1)
                (PointLights (orbit (frameTime f) s1)) (emit s1)
                (take (Z.to_nat (NumPointLights s1)) (PointLights (orbit (frameTime f) s1)))
                (Deferred s1) (rng s1)).
Proof.
  unfold UpdateScene.
  destruct (spawn _ _ _) as [s1|]; [|done].
  unfold upload. destruct (FAILED _); [done|]. cbn.
  intros [= <-]. eauto.
Qed.

Lemma UpdateScene_advanced fuel f s s' :
  UpdateScene fuel f s = Returns s' → advanced s s'.
Proof.
  intros (s1 & Hs1 & _ & ->)%UpdateScene_Returns.
  apply spawn_loop_spawned in Hs1.
  destruct Hs1 as (_ & _ & _ & Hle & Hmax & _ & Hlen & Hframe). cbn in *.
  unfold advanced; cbn. split_and!; [done|done| | |].
  - by rewrite orbit_from_length.
  - intros Hpos i Hi. rewrite orbit_from_lookup.
    case_decide; [lia|]. apply Hframe; [done|]. by right.
  - intros Hpos. rewrite orbit_from_lookup.
    case_decide; [lia|]. apply Hframe; [lia|]. left. lia.
Qed.

Lemma advanced_refl s : advanced s s.
Proof. unfold advanced. by split_and!. Qed.

Lemma advanced_trans s1 s2 s3 : advanced s1 s2 → advanced s2 s3 → advanced s1 s3.
Proof.
  unfold advanced.
  intros (Hle & Hmax & Hlen & Hframe & Hseed) (Hle' & Hmax' & Hlen' & Hframe' & Hseed').
  split_and!; try congruence; try lia.
  - intros Hpos i Hi. rewrite Hframe' by lia. apply Hframe; lia.
  - intros Hpos. rewrite Hseed' by lia. by apply Hseed.
Qed.

Lemma run_advanced fuel frames s s' :
  run fuel frames s = Returns s' → advanced s s'.
Proof.
  revert s; induction frames as [|f frames IH]; intros s.
  - intros [= <-]. apply advanced_refl.
  - cbn. destruct (UpdateScene fuel f s) as [s1| |] eqn:Hs1; [|done..].
    cbn. intros Hs'. eapply advanced_trans; [by eapply UpdateScene_advanced|by apply IH].
Qed.

(** *** The counters of a run *)

Lemma UpdateScene_counts fuel f s e n :
  FAILED (Map_hr f) = false →
  count_frame fuel (frameTime f) (emit s, NumPointLights s) = Some (e, n) →
  ∃ s', UpdateScene fuel f s = Returns s' ∧ emit s' = e ∧ NumPointLights s' = n.
Proof.
  intros Hhr Hc. unfold count_frame in Hc; cbn in Hc.
  pose proof (spawn_loop_count_loop fuel
                (set_emit (emit s - frameTime f) (update_camera f s))) as Hs.
  cbn in Hs. rewrite Hc in Hs.
  unfold UpdateScene, spawn. cbn [emit update_camera].
  destruct (spawn_loop _ _) as [s1|]; [|done].
  injection Hs as He Hn. unfold upload. rewrite Hhr. cbn. eauto.
Qed.

Lemma run_counts fuel frames s e n :
  Forall (λ f, FAILED (Map_hr f) = false) frames →
  count_run fuel (frameTime <$> frames) (emit s, NumPointLights s) = Some (e, n) →
  ∃ s', run fuel frames s = Returns s' ∧ emit s' = e ∧ NumPointLights s' = n.
Proof.
  intros Hhr. revert s; induction Hhr as [|f frames Hf _ IH]; intros s.
  - cbn. intros [= <- <-]. eauto.
  - cbn. destruct (count_frame _ _ _) as [[e1 n1]|] eqn:H1; [|done].
    destruct (UpdateScene_counts _ _ _ _ _ Hf H1) as (s1 & -> & <- & <-).
    cbn. apply IH.
Qed.

(** Enough fuel gives the frame: when [Map] succeeds, [UpdateScene] returns
    as soon as the fuel covers the passes the accumulator needs. *)
Lemma UpdateScene_enough (k fuel : nat) f s :
  k ≤ fuel →
  FAILED (Map_hr f) = false →
  (add_back k (emit s - frameTime f) <? float_of_int 0) = false →
  (∀ j : nat, j < k → (add_back j (emit s - frameTime f) <? float_of_int 0) = true) →
  ∃ s', UpdateScene fuel f s = Returns s'.
Proof.
  intros Hk Hhr Hn Hlt.
  destruct (UpdateScene_counts fuel f s (add_back k (emit s - frameTime f))
              (Z.max (NumPointLights s)
                 (Z.min (NumPointLights s + Z.of_nat k) MaxPointLights)))
    as (s' & Hs' & _); [done| |eauto].
  unfold count_frame; cbn. by apply count_loop_enough.
Qed.

Lemma frames_of_one_length (frames : list (Frame float)) (dt : float) :
  Forall (λ f, frameTime f = dt ∧ FAILED (Map_hr f) = false) frames →
  frameTime <$> frames = replicate (length frames) dt
  ∧ Forall (λ f, FAILED (Map_hr f) = false) frames.
Proof.
  induction 1 as [|f frames [Hdt Hhr] _ [IH1 IH2]]; [done|].
  cbn. rewrite Hdt, IH1. by split; [|constructor].
Qed.

(** *** The passes of the loop, with the lights *)

Lemma spawn_one_emit s : emit (spawn_one s) = emit s.
Proof. by rewrite spawn_one_eq. Qed.

Lemma spawn_one_set_emit e s : spawn_one (set_emit e s) = set_emit e (spawn_one s).
Proof. by rewrite !spawn_one_eq. Qed.

Lemma spawn_many_set_emit k e s : spawn_many k (set_emit e s) = set_emit e (spawn_many k s).
Proof.
  revert s; induction k as [|k IH]; intros s; [done|].
  cbn. destruct (NumPointLights s <? MaxPointLights)%Z; [|done].
  by rewrite spawn_one_set_emit, IH.
Qed.

Lemma spawn_many_count k s :
  NumPointLights (spawn_many k s) =
  Z.max (NumPointLights s) (Z.min (NumPointLights s + Z.of_nat k) MaxPointLights).
Proof.
  revert s; induction k as [|k IH]; intros s; [cbn; lia|].
  cbn [spawn_many]. rewrite IH.
  destruct (Z.ltb_spec (NumPointLights s) MaxPointLights); [|lia].
  rewrite spawn_one_eq; cbn. lia.
Qed.

Lemma spawn_loop_spawn_many fuel s s' :
  spawn_loop fuel s = Some s' →
  ∃ k : nat, k ≤ fuel
    ∧ s' = set_emit (add_back k (emit s)) (spawn_many k s)
    ∧ (add_back k (emit s) <? float_of_int 0) = false
    ∧ (∀ j : nat, j < k → (add_back j (emit s) <? float_of_int 0) = true).
Proof.
  revert s; induction fuel as [|fuel IH]; intros s.
  - cbn. destruct (emit s <? _) eqn:He; [done|]. intros [= <-]. exists 0.
    split_and!; [done|by destruct s|done|lia].
  - rewrite spawn_loop_S. destruct (emit s <? _) eqn:He; cycle 1.
    { intros [= <-]. exists 0. split_and!; [lia|by destruct s|done|lia]. }
    cbn zeta. intros (k & Hk & -> & Hn & Hlt)%IH. exists (S k).
    assert (emit (if (NumPointLights s <? MaxPointLights)%Z then spawn_one s else s)
            = emit s) as Hemit
      by (by destruct (NumPointLights s <? MaxPointLights)%Z; rewrite ?spawn_one_emit).
    cbn [emit set_emit] in Hn, Hlt |- *. rewrite Hemit in *.
    split_and!; [lia| |by rewrite add_back_S|].
    + by rewrite add_back_S, spawn_many_set_emit.
    + intros [|j] Hj; [done|]. rewrite add_back_S. apply Hlt. lia.
Qed.

(** *** The lights that the spawn step appends *)

Lemma generator_after_S (j : nat) (g : Rng) :
  generator_after (S j) g = generator_after j (new_light g).2.
Proof. unfold generator_after. by rewrite Nat.iter_succ_r. Qed.

(** The lights that [k] passes of the [if] append, and the generator they
    leave. *)
Lemma spawn_many_lights (k : nat) s :
  (0 ≤ NumPointLights s ≤ MaxPointLights)%Z →
  (Z.to_nat MaxPointLights ≤ length (PointLights s))%nat →
  let s' := spawn_many k s in
  let first := Z.to_nat (NumPointLights s) in
  let n := Z.to_nat (NumPointLights s' - NumPointLights s) in
  (∀ j : nat, j < n →
     PointLights s' !! (first + j)%nat = Some (new_light (generator_after j (rng s))).1)
  ∧ rng s' = generator_after n (rng s)
  ∧ length (PointLights s') = length (PointLights s)
  ∧ (∀ i : nat, (i < first ∨ first + n ≤ i)%nat → PointLights s' !! i = PointLights s !! i)
  ∧ MainCamera s' = MainCamera s
  ∧ LightVertexBuffer s' = LightVertexBuffer s
  ∧ Deferred s' = Deferred s.
Proof.
  revert s; induction k as [|k IH]; intros s Hn Hlen; cbn zeta.
  { cbn [spawn_many]. rewrite Z.sub_diag. change (Z.to_nat 0) with 0%nat.
    split_and!; try done. intros j Hj. clear -Hj. lia. }
  cbn [spawn_many].
  destruct (Z.ltb_spec (NumPointLights s) MaxPointLights) as [Hlt|Hge]; cycle 1.
  { apply IH; done. }
  assert (NumPointLights (spawn_one s) = (NumPointLights s + 1)%Z
          ∧ PointLights (spawn_one s)
            = <[Z.to_nat (NumPointLights s) := (new_light (rng s)).1]> (PointLights s)
          ∧ rng (spawn_one s) = (new_light (rng s)).2
          ∧ MainCamera (spawn_one s) = MainCamera s
          ∧ LightVertexBuffer (spawn_one s) = LightVertexBuffer s
          ∧ Deferred (spawn_one s) = Deferred s) as (H1n & H1l & H1r & H1c & H1b & H1d)
    by (by rewrite spawn_one_eq).
  pose proof (spawn_many_count k (spawn_one s)) as Hcount.
  destruct (IH (spawn_one s)) as (Hnew & Hrng & Hlen' & Hold & Hc & Hb & Hd).
  { rewrite H1n. lia. }
  { by rewrite H1l, length_insert. }
  clear IH. set (s' := spawn_many k (spawn_one s)) in *.
  rewrite H1n in Hnew, Hrng, Hold, Hcount. rewrite H1r in Hnew, Hrng.
  rewrite H1l in Hlen', Hold. rewrite length_insert in Hlen'.
  rewrite H1c in Hc. rewrite H1b in Hb. rewrite H1d in Hd.
  assert (Z.to_nat (NumPointLights s' - NumPointLights s)
          = S (Z.to_nat (NumPointLights s' - (NumPointLights s + 1)))) as Hn' by lia.
  rewrite Hn'. split_and!; try done.
  - intros [|j] Hj.
    + rewrite Nat.add_0_r, Hold by lia.
      rewrite list_lookup_insert_eq by lia. done.
    + rewrite generator_after_S, <- Hnew by lia. f_equal. lia.
  - by rewrite generator_after_S.
  - intros i Hi. rewrite Hold by lia. apply list_lookup_insert_ne. lia.
Qed.

(** The same for the spawn step. *)
Lemma spawn_lights (fuel : nat) (dt : float) s s' :
  spawn fuel dt s = Some s' →
  (0 ≤ NumPointLights s ≤ MaxPointLights)%Z →
  (Z.to_nat MaxPointLights ≤ length (PointLights s))%nat →
  let first := Z.to_nat (NumPointLights s) in
  let n := Z.to_nat (NumPointLights s' - NumPointLights s) in
  (∀ j : nat, j < n →
     PointLights s' !! (first + j)%nat = Some (new_light (generator_after j (rng s))).1)
  ∧ rng s' = generator_after n (rng s)
  ∧ length (PointLights s') = length (PointLights s)
  ∧ (∀ i : nat, (i < first ∨ first + n ≤ i)%nat → PointLights s' !! i = PointLights s !! i)
  ∧ MainCamera s' = MainCamera s
  ∧ LightVertexBuffer s' = LightVertexBuffer s
  ∧ Deferred s' = Deferred s.
Proof.
  unfold spawn. intros (k & _ & -> & _)%spawn_loop_spawn_many Hn Hlen.
  rewrite spawn_many_set_emit. cbn [set_emit NumPointLights PointLights rng MainCamera
                                      LightVertexBuffer Deferred].
  by apply spawn_many_lights.
Qed.

(** The seven draws of a light, when the arguments are taken left to
    right, and when they are taken right to left. *)
Lemma new_light_left_to_right (g : Rng) :
  position_arguments = Order_123 → colour_arguments = Order_123 →
  let '(px, g1) := Random (literal (-600) 1) (literal 600 1) g in
  let '(py, g2) := Random (literal 5 1) (literal 40 1) g1 in
  let '(pz, g3) := Random (literal (-600) 1) (literal 600 1) g2 in
  let '(r, g4) := Random (literal 20 1) (literal 40 1) g3 in
  let '(cr, g5) := Random (literal 4 10) (literal 1 1) g4 in
  let '(cg, g6) := Random (literal 4 10) (literal 1 1) g5 in
  let '(cb, g7) := Random (literal 4 10) (literal 1 1) g6 in
  new_light g
  = (mkSPointLight (mkCVector3 px py pz) r (mkCVector4 cr cg cb (float_of_int 0)), g7).
Proof.
  intros Hp Hc. unfold new_light. rewrite Hp, Hc. cbn [arguments].
  by repeat destruct (Random _ _ _).
Qed.

Lemma new_light_right_to_left (g : Rng) :
  position_arguments = Order_321 → colour_arguments = Order_321 →
  let '(pz, g1) := Random (literal (-600) 1) (literal 600 1) g in
  let '(py, g2) := Random (literal 5 1) (literal 40 1) g1 in
  let '(px, g3) := Random (literal (-600) 1) (literal 600 1) g2 in
  let '(r, g4) := Random (literal 20 1) (literal 40 1) g3 in
  let '(cb, g5) := Random (literal 4 10) (literal 1 1) g4 in
  let '(cg, g6) := Random (literal 4 10) (literal 1 1) g5 in
  let '(cr, g7) := Random (literal 4 10) (literal 1 1) g6 in
  new_light g
  = (mkSPointLight (mkCVector3 px py pz) r (mkCVector4 cr cg cb (float_of_int 0)), g7).
Proof.
  intros Hp Hc. unfold new_light. rewrite Hp, Hc. cbn [arguments].
  by repeat destruct (Random _ _ _).
Qed.

(** Whatever the order of the arguments: every component of a new light is
    a value of [Random] for the bounds of its place, and so within these
    bounds when [Random] keeps to its bounds; the fourth component of the
    colour is 0. *)
Lemma new_light_in_range (g : Rng) :
  (∀ (lo hi : float) (g : Rng), in_range lo hi (Random lo hi g).1) →
  let l := (new_light g).1 in
  in_range (literal (-600) 1) (literal 600 1) (cx (position l))
  ∧ in_range (literal 5 1) (literal 40 1) (cy (position l))
  ∧ in_range (literal (-600) 1) (literal 600 1) (cz (position l))
  ∧ in_range (literal 20 1) (literal 40 1) (radius l)
  ∧ in_range (literal 4 10) (literal 1 1) (c4x (colour l))
  ∧ in_range (literal 4 10) (literal 1 1) (c4y (colour l))
  ∧ in_range (literal 4 10) (literal 1 1) (c4z (colour l))
  ∧ c4w (colour l) = float_of_int 0.
Proof.
  intros Hrange. unfold new_light, arguments.
  destruct position_arguments, colour_arguments;
    repeat match goal with
           | |- context [Random ?lo ?hi ?g'] =>
               let H := fresh "H" in
               pose proof (Hrange lo hi g') as H; destruct (Random lo hi g')
           end; cbn in *; by split_and!.
Qed.

End LightFacts.

(** *** The run of 5001 frames of one millisecond, in binary32 *)

Lemma count_run_5001 :
  count_run 5 (replicate (Z.to_nat 5001) (literal 1 1000))
    ((literal 1 1 / LightSpawnFreq)%fl, 1%Z)
  = Some (S754_finite false 13723893 (-36), 25006%Z).
Proof. vm_compute. reflexivity. Qed.

(** The first frames: the accumulator ends each frame a little below a
    multiple of the period, so every frame makes five passes. *)
Example count_run_first_frames :
  count_run 5 (replicate 1 (literal 1 1000)) ((literal 1 1 / LightSpawnFreq)%fl, 1%Z)
    = Some (S754_finite false 13743893 (-36), 6%Z)
  ∧ count_run 5 (replicate 2 (literal 1 1000)) ((literal 1 1 / LightSpawnFreq)%fl, 1%Z)
    = Some (S754_finite false 13743889 (-36), 11%Z).
Proof. vm_compute. done. Qed.

(** The first frame, pass by pass.  [0.0002f - 0.001f] and four additions of
    [0.0002f] leave [-2^-35], not zero, so the loop makes a fifth pass: six
    lights after the first frame. *)
Example first_frame_passes :
  let e := (literal 1 1 / LightSpawnFreq - literal 1 1000)%fl in
  e = S754_finite true 13743896 (-34)
  ∧ add_back 1 e = S754_finite true 10307922 (-34)
  ∧ add_back 2 e = S754_finite true 13743896 (-35)
  ∧ add_back 3 e = S754_finite true 13743897 (-36)
  ∧ add_back 4 e = S754_finite true 8388608 (-58)
  ∧ add_back 5 e = S754_finite false 13743893 (-36).
Proof. vm_compute. done. Qed.

(** In exact arithmetic the fourth addition gives zero: the first frame
    makes four passes and every later frame five, 25005 lights after 5001
    frames.  The count of the program is that of binary32. *)
Lemma add_back_exact (k : nat) (e : R) : add_back k e = (e + INR k / 5000)%R.
Proof.
  induction k as [|k IH]; [cbn; lra|].
  unfold add_back in *. rewrite Nat.iter_succ, IH, S_INR.
  unfold LightSpawnFreq. cbn. lra.
Qed.

Lemma Rltb_true (a : R) : (a < 0)%R → exact.Rltb a (IZR 0) = true.
Proof. intros Ha. unfold exact.Rltb. by destruct (Rlt_dec _ _). Qed.

Lemma Rltb_false (a : R) : (0 <= a)%R → exact.Rltb a (IZR 0) = false.
Proof. intros Ha. unfold exact.Rltb. destruct (Rlt_dec _ _); [lra|done]. Qed.

Lemma count_frame_exact (k : nat) (e : R) (n : Z) :
  k ≤ 5 →
  (e - 1 / 1000 + INR k / 5000 = 0)%R →
  ∃ e' : R, count_frame 5 (literal 1 1000) (e, n)
            = Some (e', Z.max n (Z.min (n + Z.of_nat k) MaxPointLights))
            ∧ e' = 0%R.
Proof.
  intros Hk5 Hk. exists (add_back k (e - 1 / 1000)%R).
  unfold count_frame. cbn [fst snd].
  replace (e - literal 1 1000)%fl with (e - 1 / 1000)%R by (cbn; lra).
  split; [|rewrite add_back_exact; lra].
  apply count_loop_enough; [done| |].
  - rewrite add_back_exact. apply Rltb_false. lra.
  - intros j Hj. rewrite add_back_exact. apply Rltb_true.
    apply lt_INR in Hj. lra.
Qed.

Remark count_run_exact (n : nat) :
  (5 + 5 * Z.of_nat n ≤ MaxPointLights)%Z →
  ∃ e : R, count_run 5 (replicate (S n) (literal 1 1000))
             ((literal 1 1 / LightSpawnFreq)%fl, 1%Z)
           = Some (e, (5 + 5 * Z.of_nat n)%Z).
Proof.
  intros Hn. cbn [replicate count_run].
  destruct (count_frame_exact 4 (literal 1 1 / LightSpawnFreq)%fl 1) as (e1 & -> & He1).
  { lia. }
  { unfold LightSpawnFreq. cbn. lra. }
  cbn [mbind option_bind].
  replace (Z.max 1 (Z.min (1 + Z.of_nat 4) MaxPointLights)) with 5%Z by lia.
  assert (∀ (k : nat) (e : R) (m : Z), e = 0%R → (m + 5 * Z.of_nat k ≤ MaxPointLights)%Z →
            ∃ e', count_run 5 (replicate k (literal 1 1000)) (e, m)
                  = Some (e', (m + 5 * Z.of_nat k)%Z)) as Hrun.
  { clear. induction k as [|k IH]; intros e m He Hm.
    - exists e. cbn. do 2 f_equal. lia.
    - cbn [replicate count_run].
      destruct (count_frame_exact 5 e m) as (e' & -> & He'); [lia|cbn; lra|].
      cbn [mbind option_bind].
      replace (Z.max m (Z.min (m + Z.of_nat 5) MaxPointLights)) with (m + 5)%Z by lia.
      destruct (IH e' (m + 5)%Z He') as (e'' & ->); [lia|].
      exists e''. do 2 f_equal. lia. }
  by apply Hrun.
Qed.

(** Once the array is full, the loop of the source still adds the period
    back until the accumulator is not negative; the loop of the
    specification is left at once, with the accumulator negative. *)
Example spawn_at_capacity :
  (λ s, (NumPointLights s, emit s <? float_of_int 0)%fl)
    <$> spawn_loop 5 (set_emit (emit scene_full - literal 1 1000)%fl scene_full)
    = Some (25600%Z, false)
  ∧ (λ s, (NumPointLights s, emit s <? float_of_int 0)%fl)
    <$> spawn_loop_as_specified 5 (set_emit (emit scene_full - literal 1 1000)%fl scene_full)
    = Some (25600%Z, true).
Proof. vm_compute. done. Qed.

(** C2, as amended.  The accumulator starts at [1.0f / LightSpawnFreq].  In
    any arithmetic, the spawn step subtracts the frame time and then makes
    [k] passes, where [k] is the least number of additions of the period
    after which the accumulator is not negative: each pass appends one light
    drawn from [Random] and increments the live count if the live count is
    below the capacity, and adds the period back in either case.

    The lights appended are written into the array one after the other from
    the old live count on, each drawn from the generator that the one before
    has left; the rest of the array, the camera, the GPU buffer and the
    pipeline stay.  A light takes seven draws: three for the position, one
    for the radius, three for the colour, in this order of the three
    statements; within a constructor the draws come in the order in which
    the compiled program takes the arguments, spelled out here for left to
    right and for right to left.  In any order, when [Random] keeps to its
    bounds, the position lies in the box from (-600, 5, -600) to
    (600, 40, 600), the radius in [20, 40], the three colours in [0.4, 1],
    and the fourth component of the colour is 0.

    In binary32, from one live light, 5001 updates of 0.001 s each leave
    25006 live lights, five more with every update, for any fuel of five
    passes or more (in exact arithmetic the first update would add four). *)
Theorem spawn_step_accumulator :
  (∀ (float : Type) (ops : FloatOps float) (mathdx : MathDX float),
     (∀ (camera : CCamera float) (g : Rng),
        emit (initial_Scene camera g) = (literal 1 1 / LightSpawnFreq)%fl
        ∧ NumPointLights (initial_Scene camera g) = 1%Z)
     ∧ (∀ (fuel : nat) (dt : float) (s s' : Scene float),
          spawn fuel dt s = Some s' →
          ∃ k : nat, k ≤ fuel
            ∧ s' = set_emit (add_back k (emit s - dt)%fl) (spawn_many k s)
            ∧ (emit s' <? float_of_int 0)%fl = false
            ∧ (∀ j : nat, j < k → (add_back j (emit s - dt) <? float_of_int 0)%fl = true)
            ∧ NumPointLights s' =
                Z.max (NumPointLights s)
                  (Z.min (NumPointLights s + Z.of_nat k) MaxPointLights))
     ∧ (∀ (k fuel : nat) (dt : float) (s : Scene float),
          k ≤ fuel →
          (add_back k (emit s - dt) <? float_of_int 0)%fl = false →
          (∀ j : nat, j < k → (add_back j (emit s - dt) <? float_of_int 0)%fl = true) →
          ∃ s', spawn fuel dt s = Some s')
     ∧ (∀ (fuel : nat) (dt : float) (s s' : Scene float),
          spawn fuel dt s = Some s' →
          (0 ≤ NumPointLights s ≤ MaxPointLights)%Z →
          Z.to_nat MaxPointLights ≤ length (PointLights s) →
          let first := Z.to_nat (NumPointLights s) in
          let n := Z.to_nat (NumPointLights s' - NumPointLights s) in
          (∀ j : nat, j < n →
             PointLights s' !! (first + j)
             = Some (new_light (generator_after j (rng s))).1)
          ∧ rng s' = generator_after n (rng s)
          ∧ length (PointLights s') = length (PointLights s)
          ∧ (∀ i : nat, i < first ∨ first + n ≤ i →
               PointLights s' !! i = PointLights s !! i)
          ∧ MainCamera s' = MainCamera s
          ∧ LightVertexBuffer s' = LightVertexBuffer s
          ∧ Deferred s' = Deferred s)
     ∧ (∀ g : Rng,
          position_arguments = Order_123 → colour_arguments = Order_123 →
          let '(px, g1) := Random (literal (-600) 1) (literal 600 1) g in
          let '(py, g2) := Random (literal 5 1) (literal 40 1) g1 in
          let '(pz, g3) := Random (literal (-600) 1) (literal 600 1) g2 in
          let '(r, g4) := Random (literal 20 1) (literal 40 1) g3 in
          let '(cr, g5) := Random (literal 4 10) (literal 1 1) g4 in
          let '(cg, g6) := Random (literal 4 10) (literal 1 1) g5 in
          let '(cb, g7) := Random (literal 4 10) (literal 1 1) g6 in
          new_light g
          = (mkSPointLight (mkCVector3 px py pz) r
               (mkCVector4 cr cg cb (float_of_int 0)), g7))
     ∧ (∀ g : Rng,
          position_arguments = Order_321 → colour_arguments = Order_321 →
          let '(pz, g1) := Random (literal (-600) 1) (literal 600 1) g in
          let '(py, g2) := Random (literal 5 1) (literal 40 1) g1 in
          let '(px, g3) := Random (literal (-600) 1) (literal 600 1) g2 in
          let '(r, g4) := Random (literal 20 1) (literal 40 1) g3 in
          let '(cb, g5) := Random (literal 4 10) (literal 1 1) g4 in
          let '(cg, g6) := Random (literal 4 10) (literal 1 1) g5 in
          let '(cr, g7) := Random (literal 4 10) (literal 1 1) g6 in
          new_light g
          = (mkSPointLight (mkCVector3 px py pz) r
               (mkCVector4 cr cg cb (float_of_int 0)), g7))
     ∧ (∀ g : Rng,
          (∀ (lo hi : float) (g : Rng), in_range lo hi (Random lo hi g).1) →
          let l := (new_light g).1 in
          in_range (literal (-600) 1) (literal 600 1) (cx (position l))
          ∧ in_range (literal 5 1) (literal 40 1) (cy (position l))
          ∧ in_range (literal (-600) 1) (literal 600 1) (cz (position l))
          ∧ in_range (literal 20 1) (literal 40 1) (radius l)
          ∧ in_range (literal 4 10) (literal 1 1) (c4x (colour l))
          ∧ in_range (literal 4 10) (literal 1 1) (c4y (colour l))
          ∧ in_range (literal 4 10) (literal 1 1) (c4z (colour l))
          ∧ c4w (colour l) = float_of_int 0))
  ∧ (∀ (d3dx : D3DXOps binary32.float) (libm : Libm binary32.float)
       (mathdx : MathDX binary32.float)
       (fuel : nat) (frames : list (Frame binary32.float)) (s : Scene binary32.float),
       NumPointLights s = 1%Z →
       emit s = (literal 1 1 / LightSpawnFreq)%fl →
       length frames = Z.to_nat 5001 →
       Forall (λ f, frameTime f = literal 1 1000 ∧ FAILED (Map_hr f) = false) frames →
       5 ≤ fuel →
       ∃ s', run fuel frames s = Returns s' ∧ NumPointLights s' = 25006%Z).
Proof.
  split.
  - intros float ops mathdx. split_and!.
    + done.
    + intros fuel dt s s' Hs'. unfold spawn in Hs'.
      apply spawn_loop_spawn_many in Hs' as (k & Hk & -> & Hn & Hlt).
      rewrite spawn_many_set_emit in *. cbn [emit set_emit] in *.
      exists k. split_and!; try done.
      cbn. apply spawn_many_count.
    + intros k fuel dt s. apply spawn_enough.
    + intros fuel dt s s'. apply spawn_lights.
    + intros g. apply new_light_left_to_right.
    + intros g. apply new_light_right_to_left.
    + intros g. apply new_light_in_range.
  - intros d3dx libm mathdx fuel frames s Hn He Hlen Hframes Hfuel.
    destruct (frames_of_one_length _ _ Hframes) as [Hdts Hhr].
    destruct (run_counts fuel frames s (S754_finite false 13723893 (-36)) 25006 Hhr)
      as (s' & Hs' & _ & Hn'); [|eauto].
    rewrite Hdts, Hlen, He, Hn.
    apply (count_run_mono 5); [done|]. apply count_run_5001.
Qed.

(** C2, as stated, fails: from one live light, 5001 updates of 0.001 s leave
    25006 live lights, not 2.  Here with the stand-ins for the libraries,
    none of which the count depends on. *)
Lemma live_count_after_5001_updates :
  ∃ s', run_standin 5 (replicate (Z.to_nat 5001) (frame_1ms 0)) scene_0 = Returns s'
        ∧ NumPointLights s' = 25006%Z
        ∧ NumPointLights s' ≠ 2%Z.
Proof.
  destruct (run_counts (MathDX0 := binary32.standin_mathdx) (D3DXOps0 := binary32.standin_d3dx)
              (Libm0 := binary32.standin_libm)
              5 (replicate (Z.to_nat 5001) (frame_1ms 0)) scene_0
              (S754_finite false 13723893 (-36)) 25006)
    as (s' & Hs' & _ & Hn).
  - by apply Forall_replicate.
  - rewrite fmap_replicate. apply count_run_5001.
  - exists s'. split_and!; [done|done|]. rewrite Hn. done.
Qed.

(** The run of 5001 frames on the scene and the frames of the stand-ins,
    with more fuel than is needed; and the first of these frames, which
    appends five lights: the first of them is written at index 1, and its z
    coordinate is the first draw from the generator, the arguments being
    taken right to left. *)
Lemma spawn_step_accumulator_witness :
  (∃ s', run_standin 8 (replicate (Z.to_nat 5001) (frame_1ms 0)) scene_0 = Returns s'
         ∧ NumPointLights s' = 25006%Z)
  ∧ (∃ s', spawn 5 (literal 1 1000) scene_0 = Some s'
           ∧ NumPointLights s' = 6%Z
           ∧ PointLights s' !! 1%nat
             = Some (mkSPointLight
                       (mkCVector3 (S754_finite true 12059768 (-15))
                          (S754_finite false 12963276 (-19))
                          (S754_finite true 9805799 (-14)))
                       (S754_finite false 9483010 (-18))
                       (mkCVector4 (S754_finite false 10237036 (-24))
                          (S754_finite false 11541447 (-24))
                          (S754_finite false 12599784 (-24))
                          (S754_zero false)))
           ∧ (Random (literal (-600) 1) (literal 600 1) (rng scene_0)).1
             = S754_finite true 9805799 (-14)
           ∧ PointLights s' !! 0%nat = PointLights scene_0 !! 0%nat
           ∧ PointLights s' !! 6%nat = PointLights scene_0 !! 6%nat).
Proof.
  split.
  - apply (proj2 spawn_step_accumulator binary32.standin_d3dx binary32.standin_libm
             binary32.standin_mathdx 8 (replicate (Z.to_nat 5001) (frame_1ms 0)) scene_0).
    + reflexivity.
    + reflexivity.
    + apply length_replicate.
    + by apply Forall_replicate.
    + lia.
  - destruct (proj1 spawn_step_accumulator _ binary32.arith binary32.standin_mathdx)
      as (_ & Hpasses & Henough & Hlights & _).
    destruct (Henough 5 5 (literal 1 1000) scene_0) as [s' Hs'];
      [lia|by vm_compute|intros j Hj; do 5 (destruct j as [|j]; [by vm_compute|]); lia|].
    assert (NumPointLights s' = 6%Z) as Hn.
    { destruct (Hpasses 5 (literal 1 1000) scene_0 s' Hs')
        as (k & Hk & Hs & He & _ & ->).
      rewrite Hs in He. cbn [emit set_emit] in He. clear Hs.
      change (NumPointLights scene_0) with 1%Z.
      do 5 (destruct k as [|k]; [by vm_compute in He|]).
      destruct k as [|k]; [done|lia]. }
    destruct (Hlights 5 (literal 1 1000) scene_0 s' Hs')
      as (Hnew & _ & _ & Hold & _).
    { change (NumPointLights scene_0) with 1%Z. unfold MaxPointLights. lia. }
    { change (PointLights scene_0) with (@initial_PointLights _ binary32.arith).
      unfold initial_PointLights. cbn [length]. rewrite length_replicate.
      unfold MaxPointLights. lia. }
    rewrite Hn in Hnew, Hold. change (NumPointLights scene_0) with 1%Z in Hnew, Hold.
    exists s'. split_and!.
    + exact Hs'.
    + exact Hn.
    + assert (0 < Z.to_nat (6 - 1))%nat as H0 by lia.
      etrans; [exact (Hnew 0%nat H0)|]. apply (f_equal Some). by vm_compute.
    + by vm_compute.
    + apply Hold. lia.
    + apply Hold. lia.
Defined.

(** A frame that does not return.  At -8192 the floats are [2^-10] apart,
    more than twice the period: adding the period back changes nothing, and
    the loop of the spawn step runs for ever.  A lap time of 8192 s takes the
    accumulator there from the period. *)
Remark spawn_loop_spins_binary32 (mathdx : MathDX binary32.float)
    (fuel : nat) (s : Scene binary32.float) :
  emit s = binary32.of_int (-8192) → spawn_loop fuel s = None.
Proof.
  revert s; induction fuel as [|fuel IH]; intros s He; cbn [spawn_loop]; rewrite He.
  - done.
  - change (binary32.of_int (-8192) <? float_of_int 0)%fl with true. cbv iota zeta.
    apply IH. cbn [emit set_emit].
    destruct (NumPointLights s <? MaxPointLights)%Z;
      rewrite ?spawn_one_emit, He; by vm_compute.
Qed.

Remark UpdateScene_spins_binary32 (d3dx : D3DXOps binary32.float)
    (libm : Libm binary32.float) (mathdx : MathDX binary32.float)
    (fuel : nat) (f : Frame binary32.float) (s : Scene binary32.float) :
  emit s = (literal 1 1 / LightSpawnFreq)%fl →
  frameTime f = binary32.of_int 8192 →
  UpdateScene fuel f s = Spins.
Proof.
  intros He Hdt. unfold UpdateScene, spawn.
  rewrite spawn_loop_spins_binary32; [done|].
  cbn [emit set_emit update_camera]. rewrite He, Hdt. by vm_compute.
Qed.

(** In exact arithmetic every frame returns, given the fuel: the period is
    positive, so adding it back often enough brings any accumulator up to
    zero. *)
Lemma first_true (p : nat → bool) (n : nat) :
  p n = true → ∃ k : nat, k ≤ n ∧ p k = true ∧ ∀ j : nat, j < k → p j = false.
Proof.
  assert ((∃ k : nat, k ≤ n ∧ p k = true ∧ ∀ j : nat, j < k → p j = false)
          ∨ (∀ j : nat, j ≤ n → p j = false)) as [H|H].
  { induction n as [|n [(k & Hk & Hpk & Hlt)|IH]].
    - destruct (p 0) eqn:H0; [left; exists 0|right; intros [|j] Hj]; try done.
      + split_and!; [done|done|lia].
      + lia.
    - left. exists k. split_and!; [lia|done|done].
    - destruct (p (S n)) eqn:HS.
      + left. exists (S n). split_and!; [done|done|]. intros j Hj. apply IH. lia.
      + right. intros j Hj. destruct (decide (j = S n)) as [->|]; [done|].
        apply IH. lia. }
  - done.
  - intros Hn. rewrite H in Hn; [done|lia].
Qed.

Remark UpdateScene_returns_exact (d3dx : D3DXOps R) (libm : Libm R) (mathdx : MathDX R)
    (f : Frame R) (s : Scene R) :
  FAILED (Map_hr f) = false →
  ∃ (fuel : nat) (s' : Scene R), UpdateScene fuel f s = Returns s'.
Proof.
  intros Hhr. set (e := (emit s - frameTime f)%R).
  destruct (INR_unbounded (- e * 5000)) as (n & Hn).
  destruct (first_true (λ k, negb (add_back k e <? float_of_int 0)%fl) n)
    as (k & _ & Hk & Hlt).
  { rewrite add_back_exact. cbn. unfold exact.Rltb.
    destruct (Rlt_dec _ _) as [Hneg|]; [lra|done]. }
  exists k. apply (UpdateScene_enough k); [done|done|by apply negb_true_iff|].
  intros j Hj. by apply negb_false_iff, Hlt.
Qed.

(** C3. Along any sequence of frames that return, whatever their frame
    times, the live count does not decrease from frame to frame and does not
    pass the capacity of 25600, the array keeps its length, and the lights
    from the live count on are as they were before.  A frame returns when
    [Map] succeeds and the fuel covers the passes that bring the accumulator
    back up.  At the capacity the
    spawn step changes neither the live count nor the array nor the generator
    (it only brings the accumulator back up).  The spawn step does not read
    the lights from the live count on: started on two scenes that differ only
    there it leaves two scenes that differ only there. *)
Theorem live_count_monotone_bounded
    {float : Type} `{!FloatOps float, !D3DXOps float, !Libm float, !MathDX float}
    (fuel : nat) (frames1 frames2 : list (Frame float)) (s s1 s2 : Scene float) :
  (0 ≤ NumPointLights s ≤ MaxPointLights)%Z →
  run fuel frames1 s = Returns s1 →
  run fuel frames2 s1 = Returns s2 →
  (NumPointLights s ≤ NumPointLights s1 ≤ NumPointLights s2)%Z
  ∧ (NumPointLights s2 ≤ MaxPointLights)%Z
  ∧ length (PointLights s2) = length (PointLights s)
  ∧ (∀ i : nat, Z.to_nat (NumPointLights s2) ≤ i → PointLights s2 !! i = PointLights s !! i)
  ∧ (∀ (k : nat) (f : Frame float) (sa : Scene float),
       k ≤ fuel →
       FAILED (Map_hr f) = false →
       (add_back k (emit sa - frameTime f) <? float_of_int 0)%fl = false →
       (∀ j : nat, j < k →
          (add_back j (emit sa - frameTime f) <? float_of_int 0)%fl = true) →
       ∃ sb, UpdateScene fuel f sa = Returns sb)
  ∧ (∀ (dt : float) (sa sb : Scene float),
       NumPointLights sa = MaxPointLights →
       spawn fuel dt sa = Some sb →
       NumPointLights sb = MaxPointLights
       ∧ PointLights sb = PointLights sa ∧ rng sb = rng sa)
  ∧ (∀ (dt : float) (sa sb sa' : Scene float),
       same_live sa sb →
       (0 ≤ NumPointLights sa)%Z →
       length (PointLights sa) = Z.to_nat MaxPointLights →
       spawn fuel dt sa = Some sa' →
       ∃ sb', spawn fuel dt sb = Some sb' ∧ same_live sa' sb'
              ∧ ∀ i : nat, Z.to_nat (NumPointLights sb') ≤ i →
                  PointLights sb' !! i = PointLights sb !! i).
Proof.
  intros Hn H1 H2.
  pose proof (run_advanced _ _ _ _ H1) as (Hle1 & Hmax1 & Hlen1 & Hframe1 & _).
  pose proof (run_advanced _ _ _ _ H2) as (Hle2 & Hmax2 & Hlen2 & Hframe2 & _).
  split_and!.
  - lia.
  - lia.
  - lia.
  - congruence.
  - intros i Hi. rewrite Hframe2 by lia. apply Hframe1; lia.
  - intros k f sa. apply UpdateScene_enough.
  - intros dt sa sb Hfull Hsb. unfold spawn in Hsb.
    apply spawn_loop_spawned in Hsb as (_ & _ & _ & _ & _ & Hkeep & _).
    cbn in Hkeep. destruct Hkeep as (Hk1 & Hk2 & Hk3); [lia|].
    split_and!; congruence.
  - intros dt sa sb sa' Hab Hpos Hlen Hsa'. unfold spawn in *.
    pose proof Hab as (_ & _ & He & _).
    destruct (spawn_loop_same_live fuel (set_emit (emit sa - dt)%fl sa)
                (set_emit (emit sa - dt)%fl sb) sa') as (sb' & Hsb' & Hab');
      [by apply same_live_set_emit|done|done|done|].
    rewrite <- He. exists sb'. split_and!; [done|done|].
    apply spawn_loop_spawned in Hsb' as (_ & _ & _ & _ & _ & _ & _ & Hframe).
    cbn in Hframe. destruct Hab as (_ & Hnab & _).
    intros i Hi. apply Hframe; [lia|by right].
Qed.

(** On the scene of the stand-ins: one frame, then two more. *)
Lemma live_count_monotone_bounded_witness :
  ∃ s1 s2,
    run_standin 5 [frame_1ms 0] scene_0 = Returns s1
    ∧ run_standin 5 [frame_1ms 0; frame_1ms 0] s1 = Returns s2
    ∧ (NumPointLights scene_0 ≤ NumPointLights s1 ≤ NumPointLights s2)%Z
    ∧ (NumPointLights s2 ≤ MaxPointLights)%Z.
Proof.
  destruct (run_counts (MathDX0 := binary32.standin_mathdx)
              (D3DXOps0 := binary32.standin_d3dx) (Libm0 := binary32.standin_libm)
              5 [frame_1ms 0] scene_0 (S754_finite false 13743893 (-36)) 6)
    as (s1 & H1 & He1 & Hn1); [by repeat constructor|by vm_compute|].
  destruct (run_counts (MathDX0 := binary32.standin_mathdx)
              (D3DXOps0 := binary32.standin_d3dx) (Libm0 := binary32.standin_libm)
              5 [frame_1ms 0; frame_1ms 0] s1 (S754_finite false 13743885 (-36)) 16)
    as (s2 & H2 & He2 & Hn2); [by repeat constructor|rewrite He1, Hn1; by vm_compute|].
  exists s1, s2.
  destruct (live_count_monotone_bounded (MathDX0 := binary32.standin_mathdx)
              (D3DXOps0 := binary32.standin_d3dx) (Libm0 := binary32.standin_libm)
              5 [frame_1ms 0] [frame_1ms 0; frame_1ms 0]
              scene_0 s1 s2) as (H3 & H4 & _);
    [unfold MaxPointLights; cbn; lia|exact H1|exact H2|].
  exact (conj H1 (conj H2 (conj H3 H4))).
Defined.

(** *** The orbit step and the seed light *)

Section OrbitFacts.
Context {float : Type} `{!FloatOps float, !D3DXOps float, !Libm float, !MathDX float}.
Local Open Scope float_scope.

Implicit Types (s : Scene float).



End OrbitFacts.



(** *** The upload *)

(** C4, as amended.  [UpdateScene] does not look at what [Map] returns and
    has no way to hand a failure to its caller.  When [UpdateScene] returns,
    [Map] had succeeded and the buffer holds the whole live prefix of the
    array, never fewer lights.  When [Map] fails, [UpdateScene] does not
    return: the copy goes through a pointer that maps nothing (or the spawn
    loop before it is still running).  The upload does what is specified
    exactly when [Map] succeeds. *)
Theorem Map_result_is_not_checked :
  ∀ (float : Type) (ops : FloatOps float) (d3dx : D3DXOps float) (libm : Libm float)
    (mathdx : MathDX float) (fuel : nat) (f : Frame float) (s : Scene float),
    (∀ s', UpdateScene fuel f s = Returns s' →
       FAILED (Map_hr f) = false
       ∧ LightVertexBuffer s' = take (Z.to_nat (NumPointLights s')) (PointLights s')
       ∧ length (LightVertexBuffer s')
         = Nat.min (Z.to_nat (NumPointLights s')) (length (PointLights s')))
    ∧ (FAILED (Map_hr f) = true →
         UpdateScene fuel f s = Undefined ∨ UpdateScene fuel f s = Spins)
    ∧ (∀ s0 : Scene float,
         behaves_as (upload (Map_hr f) s0) (upload_as_specified (Map_hr f) s0)
         ↔ FAILED (Map_hr f) = false).
Proof.
  intros float ops d3dx libm mathdx fuel f s. split_and!.
  - intros s' (s1 & _ & Hhr & ->)%UpdateScene_Returns. cbn.
    split_and!; [done|done|apply length_take].
  - intros Hhr. unfold UpdateScene.
    destruct (spawn _ _ _); [|by right].
    unfold upload. rewrite Hhr. by left.
  - intros s0. unfold upload, upload_as_specified.
    by destruct (FAILED _).
Qed.

(** On the scene of the stand-ins, in a frame whose [Map] returns [E_FAIL]. *)
Lemma Map_result_is_not_checked_witness :
  UpdateScene_standin 5 (frame_1ms E_FAIL) scene_0 = Undefined
  ∨ UpdateScene_standin 5 (frame_1ms E_FAIL) scene_0 = Spins.
Proof.
  apply (proj1 (proj2 (Map_result_is_not_checked _ binary32.arith binary32.standin_d3dx
                         binary32.standin_libm binary32.standin_mathdx
                         5 (frame_1ms E_FAIL) scene_0))).
  reflexivity.
Defined.

(** C4, as stated, fails.  [Map] returns [E_FAIL] in a frame of the scene of
    the stand-ins: [UpdateScene] is not defined from the copy on, where the
    specification has an error handed to the caller. *)
Lemma failed_Map_is_not_handed_to_the_caller :
  UpdateScene_standin 5 (frame_1ms E_FAIL) scene_0 = Undefined
  ∧ upload_as_specified E_FAIL scene_0 = HardRendererError _
  ∧ ¬ behaves_as (upload E_FAIL scene_0) (upload_as_specified E_FAIL scene_0).
Proof.
  split_and!; [|done|by intros []].
  unfold UpdateScene_standin, UpdateScene.
  destruct (spawn_enough (MathDX0 := binary32.standin_mathdx) 5 5
              (frameTime (frame_1ms E_FAIL))
              (@update_camera _ binary32.arith binary32.standin_d3dx
                 binary32.standin_mathdx (frame_1ms E_FAIL) scene_0))
    as (s1 & ->); [done|by vm_compute| |done].
  intros j Hj. do 5 (destruct j as [|j]; [by vm_compute|]). lia.
Qed.

(** *** The idle loop *)

Section LoopFacts.
Context {float : Type} `{!FloatOps float, !D3DXOps float, !Libm float, !MathDX float}.

Implicit Types (s : Scene float) (f : Frame float).

Lemma idle_events fuel f s :
  ∃ rest, (idle fuel f s).1 =
          CallRenderScene (RenderScene (stack f) s) :: CallUpdateScene (frameTime f) :: rest
          ∧ omap is_call rest = [].
Proof.
  unfold idle. destruct (UpdateScene fuel f s); cbn; [|by exists []..].
  destruct (KeyHit f Key_Escape); by eexists.
Qed.

Lemma idle_calls fuel f s : omap is_call (idle fuel f s).1 = [true; false].
Proof. destruct (idle_events fuel f s) as (rest & -> & Hrest). cbn. by rewrite Hrest. Qed.

(** No list with the calls render, update has an update before a render. *)
Lemma not_update_then_render (t : list (Event float)) :
  omap is_call t = [true; false] → ¬ update_then_render t.
Proof.
  intros Ht (t1 & dt & t2 & d & t3 & ->).
  rewrite omap_app in Ht; cbn in Ht. rewrite omap_app in Ht; cbn in Ht.
  destruct (omap is_call t1) as [|b1 [|b2 l1]]; cbn in Ht; [done| |].
  - destruct (omap is_call t2); cbn in Ht; done.
  - destruct l1; done.
Qed.

Lemma wWinMain_loop_calls fuel (peeks : list (Peeked float)) s :
  ∃ n : nat, omap is_call (wWinMain_loop fuel peeks s).1 = mjoin (replicate n [true; false]).
Proof.
  revert s; induction peeks as [|[[]|f] peeks IH]; intros s; cbn.
  - by exists 0.
  - by exists 0.
  - destruct (IH s) as (n & Hn). destruct (wWinMain_loop fuel peeks s) as [t o].
    by exists n.
  - pose proof (idle_calls fuel f s) as Hc.
    destruct (idle fuel f s) as [t [s'| |]]; cbn in Hc; [|by exists 1; cbn; rewrite Hc..].
    destruct (IH s') as (n & Hn). destruct (wWinMain_loop fuel peeks s') as [t' o].
    exists (S n). cbn in *. by rewrite omap_app, Hc, Hn.
Qed.

End LoopFacts.

(** C5, as amended.  Every pass of the idle branch calls [RenderScene] on
    the scene as the pass finds it and then [UpdateScene]: render, then
    update, and never an update before a render in the same pass.  Over the
    whole loop the calls go render, update, render, update, and so on: each
    update is followed by the render of the next pass, and the first render
    shows the scene before any update. *)
Theorem idle_renders_then_updates :
  ∀ (float : Type) (ops : FloatOps float) (d3dx : D3DXOps float) (libm : Libm float)
    (mathdx : MathDX float) (fuel : nat),
    (∀ (f : Frame float) (s : Scene float),
       (∃ rest, (idle fuel f s).1 =
                CallRenderScene (RenderScene (stack f) s)
                  :: CallUpdateScene (frameTime f) :: rest
                ∧ omap is_call rest = [])
       ∧ ¬ update_then_render (idle fuel f s).1)
    ∧ (∀ (peeks : list (Peeked float)) (s : Scene float),
         ∃ n : nat, omap is_call (wWinMain_loop fuel peeks s).1
                    = mjoin (replicate n [true; false])).
Proof.
  intros float ops d3dx libm mathdx fuel. split.
  - intros f s. split; [apply idle_events|].
    apply not_update_then_render, idle_calls.
  - apply wWinMain_loop_calls.
Qed.

(** C5, as stated, fails: in a pass of the idle branch on the scene of the
    stand-ins, [RenderScene] is called first and [UpdateScene] second, and no
    update comes before a render. *)
Lemma idle_does_not_update_then_render :
  omap is_call (idle_standin 5 (frame_1ms 0) scene_0).1 = [true; false]
  ∧ ¬ update_then_render (idle_standin 5 (frame_1ms 0) scene_0).1.
Proof.
  split; [apply idle_calls|apply not_update_then_render, idle_calls].
Qed.

(** * Further properties *)

(** The entries of the matrices at hand as polynomials in the sines and
    cosines of the three angles. *)
Ltac entries :=
  unfold world_of;
  change (@D3DXMatrixMultiply R exact.real_d3dx) with (@multiply R exact.real_arith);
  change (@D3DXMatrixRotationX R exact.real_d3dx)
    with (@rotation_x R exact.real_arith sin cos);
  change (@D3DXMatrixRotationY R exact.real_d3dx)
    with (@rotation_y R exact.real_arith sin cos);
  change (@D3DXMatrixRotationZ R exact.real_d3dx)
    with (@rotation_z R exact.real_arith sin cos);
  change (@D3DXMatrixTranslation R exact.real_d3dx) with (@translation R exact.real_arith);
  cbv [multiply dot4 det3 adjugate_over determinant identity
       rotation_x rotation_y rotation_z translation
       set_41_42_43 set_31 x y z
       _11 _12 _13 _14 _21 _22 _23 _24 _31 _32 _33 _34 _41 _42 _43 _44
       fadd fsub fmul fdiv fneg float_of_int exact.real_arith].

(** [sin² + cos² = 1] for the three angles, as rewriting rules for [ring]. *)
Ltac trig rx ry rz :=
  pose proof (sin2_cos2 rx) as Hx;
  pose proof (sin2_cos2 ry) as Hy;
  pose proof (sin2_cos2 rz) as Hz;
  unfold Rsqr in Hx, Hy, Hz;
  assert (cos rz * cos rz = 1 - sin rz * sin rz)%R as Hz' by lra;
  assert (cos ry * cos ry = 1 - sin ry * sin ry)%R as Hy' by lra;
  assert (cos rx * cos rx = 1 - sin rx * sin rx)%R as Hx' by lra;
  clear Hx Hy Hz.

Section ExactCamera.
Local Open Scope R_scope.

(** The world matrix written out, in exact arithmetic. *)
Lemma world_of_explicit (p r : D3DXVECTOR3 R) :
  world_of p r = world_explicit p r.
Proof.
  destruct p as [px py pz], r as [rx ry rz]. unfold world_explicit.
  entries. f_equal; ring.
Qed.

(** The world matrix of a camera: the rotation in the upper left, the
    position in row 4, and the column [0 0 0 1]. *)
Lemma world_of_row4 (p r : D3DXVECTOR3 R) : row4 (world_of p r) = p.
Proof. rewrite world_of_explicit. by destruct p. Qed.

Lemma world_of_column4 (p r : D3DXVECTOR3 R) :
  _14 (world_of p r) = 0 ∧ _24 (world_of p r) = 0 ∧ _34 (world_of p r) = 0
  ∧ _44 (world_of p r) = 1.
Proof. by rewrite world_of_explicit. Qed.

(** Moving the translation row of a world matrix gives the world matrix of
    the camera at the new place. *)
Lemma world_of_moved (p r : D3DXVECTOR3 R) (a b c : R) :
  set_41_42_43 (world_of p r) a b c = world_of (mkD3DXVECTOR3 a b c) r.
Proof. by rewrite !world_of_explicit. Qed.

(** The rows of the rotation have length 1 and are at right angles. *)
Lemma world_of_rows (p r : D3DXVECTOR3 R) :
  length2 (row1 (world_of p r)) = 1
  ∧ length2 (row3 (world_of p r)) = 1
  ∧ dot (row1 (world_of p r)) (row3 (world_of p r)) = 0.
Proof.
  rewrite world_of_explicit.
  destruct p as [px py pz], r as [rx ry rz].
  unfold length2, dot, row1, row3, world_explicit. cbn [x y z _11 _12 _13 _31 _32 _33].
  trig rx ry rz.
  split_and!; ring [Hx' Hy' Hz'].
Qed.

(** The inverse of a rotation is its transpose: column 3 of the view matrix
    is row 3 of the world matrix. *)
Lemma view_column3 (p r : D3DXVECTOR3 R) :
  let V := adjugate_over 1 (world_of p r) in
  mkD3DXVECTOR3 (_13 V) (_23 V) (_33 V) = row3 (world_of p r).
Proof.
  rewrite world_of_explicit.
  destruct p as [px py pz], r as [rx ry rz].
  unfold row3, world_explicit. entries.
  trig rx ry rz.
  f_equal; field_simplify; ring [Hx' Hy' Hz'].
Qed.

End ExactCamera.

Section ExactCameraAccess.
Local Open Scope R_scope.

Lemma GetPosition_updated (w h : Z) (c : CCamera R) (stereo : EStereoscopic) (d : R) :
  let c' := UpdateMatrices w h c in
  GetWorldMatrix stereo d c' = world_of (GetPosition stereo d c') (m_Rotation c').
Proof.
  intros c'. unfold GetWorldMatrix, GetPosition.
  case_decide; [done|].
  subst c'. rewrite UpdateMatrices_world.
  destruct (UpdateMatrices_fields w h c) as (-> & -> & _).
  rewrite !world_of_explicit. reflexivity.
Qed.

Lemma GetViewMatrix_updated (w h : Z) (c : CCamera R) (junk : D3DXMATRIX R)
    (stereo : EStereoscopic) (d : R) :
  let c' := UpdateMatrices w h c in
  GetViewMatrix junk stereo d c'
  = adjugate_over 1 (world_of (GetPosition stereo d c') (m_Rotation c')).
Proof.
  intros c'.
  assert (GetViewMatrix junk stereo d c'
          = default (if decide (stereo = Monoscopic) then m_ViewMatrix c else junk)
              (D3DXMatrixInverse (GetWorldMatrix stereo d c'))) as ->.
  { unfold GetViewMatrix, GetWorldMatrix. by case_decide. }
  subst c'. by rewrite GetPosition_updated, inverse_world.
Qed.

Lemma inverse_world_left (p r : D3DXVECTOR3 R) :
  multiply (adjugate_over 1 (world_of p r)) (world_of p r) = identity.
Proof.
  pose proof (adjugate_left (world_of p r)) as H.
  rewrite determinant_world in H. apply H. lra.
Qed.

Lemma inverse_world_right (p r : D3DXVECTOR3 R) :
  multiply (world_of p r) (adjugate_over 1 (world_of p r)) = identity.
Proof.
  pose proof (adjugate_right (world_of p r)) as H.
  rewrite determinant_world in H. apply H. lra.
Qed.

End ExactCameraAccess.

(** X1. In exact arithmetic, on a camera whose matrices are up to date:
    [GetWorldMatrix(stereo, d)] is the world matrix of the camera moved to
    [GetPosition(stereo, d)] and turned as the camera is, for the three modes;
    its translation row is that position.  In any arithmetic the stereo
    world matrices differ from the cached one in the translation row only. *)
Theorem GetWorldMatrix_at_GetPosition :
  (∀ (w h : Z) (c : CCamera R) (stereo : EStereoscopic) (d : R),
     let c' := UpdateMatrices w h c in
     GetWorldMatrix stereo d c' = world_of (GetPosition stereo d c') (m_Rotation c')
     ∧ row4 (GetWorldMatrix stereo d c') = GetPosition stereo d c')
  ∧ (∀ (float : Type) (ops : FloatOps float) (c : CCamera float)
       (stereo : EStereoscopic) (d : float),
       same_but_translation (GetWorldMatrix stereo d c) (m_WorldMatrix c)).
Proof.
  split.
  - intros w h c stereo d c'. split; [apply GetPosition_updated|].
    subst c'. rewrite GetPosition_updated. apply world_of_row4.
  - intros float ops c stereo d. unfold GetWorldMatrix, same_but_translation.
    by case_decide.
Qed.

(** X2. In exact arithmetic, on a camera whose matrices are up to date:
    [GetViewMatrix(stereo, d)] is the inverse of [GetWorldMatrix(stereo, d)]
    on both sides, for the three modes; D3DX always finds the inverse, so
    what the local matrix held before does not show; and the matrix is the
    view matrix that [UpdateMatrices] gives the camera once it is moved to
    [GetPosition(stereo, d)]. *)
Theorem GetViewMatrix_inverts_GetWorldMatrix :
  ∀ (w h w' h' : Z) (c : CCamera R) (junk junk' : D3DXMATRIX R)
    (stereo : EStereoscopic) (d : R),
    let c' := UpdateMatrices w h c in
    let W := GetWorldMatrix stereo d c' in
    let V := GetViewMatrix junk stereo d c' in
    multiply V W = identity
    ∧ multiply W V = identity
    ∧ V = GetViewMatrix junk' stereo d c'
    ∧ V = m_ViewMatrix (UpdateMatrices w' h' (SetPosition (GetPosition stereo d c') c')).
Proof.
  intros w h w' h' c junk junk' stereo d c' W V. subst W V c'.
  rewrite !GetViewMatrix_updated, GetPosition_updated.
  split_and!.
  - apply inverse_world_left.
  - apply inverse_world_right.
  - done.
  - by rewrite UpdateMatrices_view, inverse_world.
Qed.

(** Which keys of a closed list are down is computed. *)
Ltac keys :=
  repeat match goal with
  | |- context [keys_down ?l ?k] =>
      let b := eval vm_compute in (keys_down l k) in
      change (keys_down l k) with b
  end.

(** X3. In exact arithmetic, on a camera whose matrices are up to date:
    [GetFacing] is row 3 of the world matrix, the local z axis, and has
    length 1; it is the direction in which [Control] moves the camera while
    the forward key alone is down, at [MoveSpeed] units a second. *)
Theorem GetFacing_is_the_forward_axis :
  ∀ (w h : Z) (c : CCamera R) (t : R),
    let c' := UpdateMatrices w h c in
    GetFacing c' = row3 (m_WorldMatrix c')
    ∧ length2 (GetFacing c') = 1%R
    ∧ m_Position (Control_keys (keys_down [Key_W]) t c')
      = along (m_Position c') (GetFacing c') (120 * t)%R.
Proof.
  intros w h c t c'.
  assert (GetFacing c' = row3 (m_WorldMatrix c')) as HF.
  { unfold GetFacing. subst c'.
    rewrite UpdateMatrices_view, UpdateMatrices_world, inverse_world.
    apply view_column3. }
  rewrite HF. split_and!; [done| |].
  - subst c'. rewrite UpdateMatrices_world.
    by destruct (world_of_rows (m_Position c) (m_Rotation c)) as (_ & H & _).
  - unfold Control_keys, Control. keys. cbv iota.
    generalize (m_WorldMatrix c') (m_Position c'). intros W p.
    unfold SetRotation, SetPosition, along, row3, move, MoveSpeed.
    cbn. f_equal; field.
Qed.

Section ExactControl.
Local Open Scope R_scope.

Lemma length2_diagonal (p a b : D3DXVECTOR3 R) (k : R) :
  let q := along (along p a k) b k in
  length2 (mkD3DXVECTOR3 (x q - x p) (y q - y p) (z q - z p))
  = k * k * (length2 a + length2 b + 2 * dot a b).
Proof. destruct p, a, b. unfold length2, dot, along. cbn. ring. Qed.

End ExactControl.

(** X4. In exact arithmetic, on a camera whose matrices are up to date,
    [Control] with one movement key down moves the camera by
    [MoveSpeed * frameTime] along an axis of length 1: row 1 of the world
    matrix for the keys right and left, row 3 for the keys forward and
    backward, which are at right angles.  With the keys forward and right
    both down the camera covers both displacements, the square of the
    distance being twice that of one key.  The rotation stays. *)
Theorem Control_moves_at_MoveSpeed :
  ∀ (w h : Z) (c : CCamera R) (t : R),
    let c' := UpdateMatrices w h c in
    let p := m_Position c' in
    let right := row1 (m_WorldMatrix c') in
    let forward := row3 (m_WorldMatrix c') in
    let moved keys := m_Position (Control_keys (keys_down keys) t c') in
    let turned keys := m_Rotation (Control_keys (keys_down keys) t c') in
    (length2 right = 1 ∧ length2 forward = 1 ∧ dot right forward = 0)%R
    ∧ moved [Key_D] = along p right (120 * t)%R
    ∧ moved [Key_A] = along p right (- (120 * t))%R
    ∧ moved [Key_W] = along p forward (120 * t)%R
    ∧ moved [Key_S] = along p forward (- (120 * t))%R
    ∧ moved [Key_W; Key_D] = along (along p right (120 * t)%R) forward (120 * t)%R
    ∧ (let q := moved [Key_W; Key_D] in
       length2 (mkD3DXVECTOR3 (x q - x p) (y q - y p) (z q - z p))
       = 2 * ((120 * t) * (120 * t)))%R
    ∧ (∀ keys, keys ⊆ [Key_W; Key_S; Key_A; Key_D] → turned keys = m_Rotation c').
Proof.
  intros w h c t c' p right forward moved turned.
  assert (length2 right = 1 ∧ length2 forward = 1 ∧ dot right forward = 0)%R
    as (H1 & H3 & H13).
  { subst right forward c'. rewrite UpdateMatrices_world. apply world_of_rows. }
  assert (moved [Key_W; Key_D] = along (along p right (120 * t)%R) forward (120 * t)%R)
    as Hdiag.
  { subst moved right forward p. cbv beta. unfold Control_keys, Control. keys. cbv iota.
    generalize (m_WorldMatrix c') (m_Position c'). intros W q.
    unfold SetRotation, SetPosition, along, row1, row3, move, MoveSpeed.
    cbn. f_equal; field. }
  split; [done|]. split_and!.
  1-4: subst moved right forward p; cbv beta; unfold Control_keys, Control; keys;
    cbv iota; generalize (m_WorldMatrix c') (m_Position c'); intros W q;
    unfold SetRotation, SetPosition, along, row1, row3, move, MoveSpeed;
    cbn; f_equal; field.
  - done.
  - cbv zeta. rewrite Hdiag. rewrite length2_diagonal, H1, H3, H13. ring.
  - intros keys Hkeys. subst turned. unfold Control_keys, Control, keys_down.
    assert (∀ k, k ∈ [Key_Up; Key_Down; Key_Left; Key_Right] →
                 bool_decide (k ∈ keys) = false) as Hturn.
    { intros k Hk. apply bool_decide_eq_false_2. intros Hin. apply Hkeys in Hin.
      repeat (apply elem_of_cons in Hin as [->|Hin];
              [by repeat (apply elem_of_cons in Hk as [Hk|Hk]; [discriminate|]);
                  apply elem_of_nil in Hk|]).
      by apply elem_of_nil in Hin. }
    rewrite !Hturn by (repeat constructor). by destruct c'.
Qed.

(** X5. [Control] changes the position and the rotation of the camera and
    nothing else: the four matrices stay as the last [UpdateMatrices] left
    them, and the rotation about the z axis is never changed.  With no key
    down it changes nothing.  In exact arithmetic two opposite keys that are
    both down cancel, for the turns as for the moves.  In binary32 they need
    not: with the keys up and down both down for a frame of 1/30 s the pitch
    of a camera goes from 1 to the float below 1. *)
Theorem Control_changes_position_and_rotation :
  (∀ (float : Type) (ops : FloatOps float) (KeyHeld : EKeyCode → bool) (t : float)
     (k1 k2 k3 k4 k5 k6 k7 k8 : EKeyCode) (c : CCamera float),
     let c' := Control KeyHeld t k1 k2 k3 k4 k5 k6 k7 k8 c in
     m_WorldMatrix c' = m_WorldMatrix c ∧ m_ViewMatrix c' = m_ViewMatrix c
     ∧ m_ProjMatrix c' = m_ProjMatrix c ∧ m_ViewProjMatrix c' = m_ViewProjMatrix c
     ∧ m_FOV c' = m_FOV c ∧ m_Aspect c' = m_Aspect c
     ∧ m_NearClip c' = m_NearClip c ∧ m_FarClip c' = m_FarClip c
     ∧ z (m_Rotation c') = z (m_Rotation c)
     ∧ ((∀ k, KeyHeld k = false) → c' = c))
  ∧ (∀ (KeyHeld : EKeyCode → bool) (t : R) (c : CCamera R),
       let c' := Control_keys KeyHeld t c in
       (KeyHeld Key_Up = KeyHeld Key_Down → x (m_Rotation c') = x (m_Rotation c))
       ∧ (KeyHeld Key_Left = KeyHeld Key_Right → y (m_Rotation c') = y (m_Rotation c))
       ∧ (KeyHeld Key_W = KeyHeld Key_S → KeyHeld Key_A = KeyHeld Key_D →
          m_Position c' = m_Position c))
  ∧ x (m_Rotation camera_pitched) = S754_finite false 8388608 (-23)
  ∧ x (m_Rotation (Control_keys (keys_down [Key_Up; Key_Down]) (literal 1 30)
                     camera_pitched))
    = S754_finite false 16777215 (-24).
Proof.
  split_and!.
  - intros float ops KeyHeld t k1 k2 k3 k4 k5 k6 k7 k8 c c'. subst c'.
    unfold Control. split_and!; try done.
    + cbn. by repeat case_match.
    + intros Hno. rewrite !Hno. by destruct c.
  - intros KeyHeld t c c'. subst c'. unfold Control_keys, Control.
    split_and!.
    + intros ->. cbn. destruct (KeyHeld Key_Down); repeat case_match; cbn; lra.
    + intros ->. cbn. destruct (KeyHeld Key_Right); repeat case_match; cbn; lra.
    + intros -> ->. cbn. unfold move.
      destruct (m_Position c) as [px py pz].
      destruct (KeyHeld Key_S), (KeyHeld Key_D); cbn; f_equal; lra.
  - by vm_compute.
  - by vm_compute.
Qed.

(** ** The first frame *)

Section ExactFirstFrame.
Local Open Scope R_scope.

Lemma world_at_origin :
  world_of (mkD3DXVECTOR3 (IZR 0) (IZR 0) (IZR 0)) (mkD3DXVECTOR3 (IZR 0) (IZR 0) (IZR 0))
  = identity.
Proof.
  rewrite world_of_explicit. unfold world_explicit, identity. cbn [x y z].
  rewrite sin_0, cos_0. cbv [float_of_int exact.real_arith]. f_equal; ring.
Qed.

Lemma adjugate_identity : adjugate_over 1 (@identity R _) = identity.
Proof. entries. f_equal; field. Qed.

End ExactFirstFrame.

Section FirstFrame.
Context {float : Type} `{!FloatOps float, !D3DXOps float, !Libm float, !MathDX float}.

Lemma wWinMain_loop_first_render fuel (f : Frame float) peeks (s : Scene float) :
  ∃ t, (wWinMain_loop fuel (NoMessage f :: peeks) s).1
       = CallRenderScene (RenderScene (stack f) s) :: t.
Proof.
  cbn. destruct (idle_events fuel f s) as (rest & Ht & _).
  destruct (idle fuel f s) as [t [s'| |]]; cbn in Ht; subst t; [|by eexists..].
  destruct (wWinMain_loop fuel peeks s') as [t' o]. by eexists.
Qed.

End FirstFrame.

(** X6. [InitScene] returns [true] exactly when the two meshes load, the
    light buffer is created and the flare texture loads.  It places and turns
    the camera after the constructor has built the matrices and does not call
    [UpdateMatrices]; the idle loop renders before it updates.  So the first
    [RenderScene] hands the shaders the camera position (-320, 70, 100)
    together with the matrices of the camera as constructed: in exact
    arithmetic the view matrix and its inverse are the identity, the view
    from the origin.  After any [UpdateScene] that returns, the translation
    row of the inverse view matrix is the camera position handed over and
    the view matrix is its inverse. *)
Theorem first_frame_is_drawn_from_the_origin :
  (∀ (float : Type) (ops : FloatOps float) (d3dx : D3DXOps float) (libm : Libm float)
     (mathdx : MathDX float) (ToRadians : float → float) (storage : CCamera float)
     (w h : Z) (g : Rng) (Level_Load Skybox_Load : bool) (hr1 hr2 : Z),
     let s := initial_Scene (InitScene_camera ToRadians storage w h) g in
     (InitScene ToRadians storage w h g Level_Load Skybox_Load hr1 hr2 =
        if Level_Load && Skybox_Load && negb (FAILED hr1) && negb (FAILED hr2)
        then Some s else None)
     ∧ (∀ (fuel : nat) (f : Frame float) (peeks : list (Peeked float)),
          ∃ t, (wWinMain_loop fuel (NoMessage f :: peeks) s).1
               = CallRenderScene (RenderScene (stack f) s) :: t)
     ∧ (∀ junk : D3DXMATRIX float,
          let d := RenderScene junk s in
          CameraPosVar d
            = mkD3DXVECTOR3 (float_of_int (-320)) (float_of_int 70) (float_of_int 100)
          ∧ InvViewMatrixVar d = m_WorldMatrix (default_CCamera storage w h)
          ∧ ViewMatrixVar d = m_ViewMatrix (default_CCamera storage w h)
          ∧ ViewProjMatrixVar d = m_ViewProjMatrix (default_CCamera storage w h)))
  ∧ (∀ (libm : Libm R) (mathdx : MathDX R) (ToRadians : R → R) (storage : CCamera R)
       (w h : Z) (g : Rng) (junk : D3DXMATRIX R),
       let d := RenderScene junk (initial_Scene (InitScene_camera ToRadians storage w h) g) in
       InvViewMatrixVar d = identity
       ∧ ViewMatrixVar d = identity
       ∧ row4 (InvViewMatrixVar d) = mkD3DXVECTOR3 0%R 0%R 0%R
       ∧ CameraPosVar d = mkD3DXVECTOR3 (-320)%R 70%R 100%R)
  ∧ (∀ (libm : Libm R) (mathdx : MathDX R) (fuel : nat) (f : Frame R) (s s' : Scene R)
       (junk : D3DXMATRIX R),
       UpdateScene fuel f s = Returns s' →
       let d := RenderScene junk s' in
       row4 (InvViewMatrixVar d) = CameraPosVar d
       ∧ multiply (ViewMatrixVar d) (InvViewMatrixVar d) = identity).
Proof.
  split_and!.
  - intros float ops d3dx libm mathdx ToRadians storage w h g b1 b2 hr1 hr2 s.
    split_and!.
    + unfold InitScene. by destruct b1, b2, (FAILED hr1), (FAILED hr2).
    + intros fuel f peeks. apply wWinMain_loop_first_render.
    + done.
  - intros libm mathdx ToRadians storage w h g junk d.
    assert (InvViewMatrixVar d = identity) as HW.
    { subst d. unfold RenderScene, GetWorldMatrix. cbn [InvViewMatrixVar].
      rewrite decide_True by done.
      change (m_WorldMatrix _) with (m_WorldMatrix (default_CCamera storage w h)).
      unfold default_CCamera, new_CCamera. rewrite UpdateMatrices_world.
      apply world_at_origin. }
    assert (ViewMatrixVar d = identity) as HV.
    { subst d. unfold RenderScene, GetViewMatrix. cbn [ViewMatrixVar].
      rewrite decide_True by done.
      change (m_ViewMatrix _) with (m_ViewMatrix (default_CCamera storage w h)).
      unfold default_CCamera, new_CCamera. rewrite UpdateMatrices_view.
      change (world_of _ _) with
        (world_of (mkD3DXVECTOR3 (IZR 0) (IZR 0) (IZR 0))
                  (mkD3DXVECTOR3 (IZR 0) (IZR 0) (IZR 0))).
      rewrite inverse_world, world_at_origin. apply adjugate_identity. }
    split_and!; [done|done|by rewrite HW|].
    subst d. unfold RenderScene, GetPosition. cbn [CameraPosVar].
    rewrite decide_True by done. cbn. f_equal; lra.
  - intros libm mathdx fuel f s s' junk (s1 & Hs1 & _ & ->)%UpdateScene_Returns d.
    apply spawn_loop_spawned in Hs1 as (Hc & _). cbn in Hc.
    subst d. unfold RenderScene. cbn [InvViewMatrixVar CameraPosVar ViewMatrixVar].
    cbn [MainCamera toggle_deferred]. rewrite Hc.
    unfold GetWorldMatrix, GetPosition, GetViewMatrix.
    rewrite !decide_True by done.
    rewrite UpdateMatrices_world, UpdateMatrices_view, inverse_world.
    destruct (UpdateMatrices_fields (g_ViewportWidth f) (g_ViewportHeight f)
                (Control (KeyHeld f) (frameTime f) Key_Up Key_Down Key_Left Key_Right
                   Key_W Key_S Key_A Key_D (MainCamera s))) as (-> & _).
    split; [apply world_of_row4|apply inverse_world_left].
Qed.

(** ** Frame times *)

Section FrameTimeFacts.
Context {float : Type} `{!FloatOps float, !FloatGe float}.
Local Open Scope float_scope.

Implicit Types (st : FrameStats float) (dts : list float).

(** The frames of a period that is still open add up, left to right. *)
Lemma accumulate_all_open dts st :
  (0 ≤ NumFrameTimes st)%Z →
  (NumFrameTimes st + Z.of_nat (length dts) ≤ INT_MAX)%Z →
  (∀ k : nat, k < length dts →
     (foldl fadd (SumFrameTimes st) (take (S k) dts) >=? FrameTimePeriod) = false) →
  accumulate_all dts st
  = Returns (mkFrameStats (foldl fadd (SumFrameTimes st) dts)
               (NumFrameTimes st + Z.of_nat (length dts)) (AverageFrameTime st)).
Proof.
  revert st; induction dts as [|dt dts IH]; intros st Hpos Hmax Hopen.
  - cbn. rewrite Z.add_0_r. by destruct st.
  - cbn [accumulate_all]. unfold accumulate at 1.
    cbn [length] in Hmax.
    destruct (Z.eqb_spec (NumFrameTimes st) INT_MAX) as [Heq|_]; [lia|].
    pose proof (Hopen 0%nat ltac:(cbn; lia)) as H0.
    cbn in H0. rewrite take_0 in H0. cbn in H0. rewrite H0.
    cbn. rewrite IH; cbn.
    + do 2 f_equal. lia.
    + lia.
    + lia.
    + intros k Hk. apply (Hopen (S k)). cbn. lia.
Qed.

(** The frame that closes a period. *)
Lemma accumulate_all_closed dts (dt : float) st :
  (0 ≤ NumFrameTimes st)%Z →
  (NumFrameTimes st + Z.of_nat (length dts) < INT_MAX)%Z →
  (∀ k : nat, k < length dts →
     (foldl fadd (SumFrameTimes st) (take (S k) dts) >=? FrameTimePeriod) = false) →
  (foldl fadd (SumFrameTimes st) (dts ++ [dt]) >=? FrameTimePeriod) = true →
  accumulate_all (dts ++ [dt]) st
  = Returns (mkFrameStats (literal 0 1) 0
               (foldl fadd (SumFrameTimes st) (dts ++ [dt])
                / float_of_int (NumFrameTimes st + Z.of_nat (length dts) + 1))).
Proof.
  intros Hpos Hmax Hopen Hclose.
  assert (∀ l1 l2 st0, accumulate_all (l1 ++ l2) st0
            = (accumulate_all l1 st0 ≫= accumulate_all l2)) as Happ.
  { induction l1 as [|a l1 IH]; intros l2 st0; [done|].
    cbn. destruct (accumulate a st0); cbn; [apply IH|done..]. }
  rewrite Happ, accumulate_all_open by (done || lia). cbn.
  unfold accumulate. cbn.
  destruct (Z.eqb_spec (NumFrameTimes st + Z.of_nat (length dts)) INT_MAX) as [Heq|_]; [lia|].
  rewrite foldl_app in Hclose. cbn in Hclose. rewrite Hclose.
  by rewrite foldl_app.
Qed.

End FrameTimeFacts.

Section ExactFrameTimes.
Local Open Scope R_scope.

Lemma foldl_Rplus (a : R) (l : list R) : foldl Rplus a l = a + total l.
Proof.
  revert a; induction l as [|b l IH]; intros a; cbn; [lra|].
  rewrite IH. unfold total. lra.
Qed.

Lemma total_snoc (l : list R) (a : R) : total (l ++ [a]) = total l + a.
Proof. induction l as [|b l IH]; cbn; [lra|]. unfold total in IH. rewrite IH. lra. Qed.

Lemma exact_ge_true (a b : R) : fge a b = true ↔ a >= b.
Proof. unfold fge, exact_ge. destruct (Rge_dec a b); split; (done || lra). Qed.

Lemma exact_ge_false (a b : R) : fge a b = false ↔ a < b.
Proof. unfold fge, exact_ge. destruct (Rge_dec a b); split; (done || lra). Qed.

End ExactFrameTimes.

(** X7. The frame times of a period add up in [SumFrameTimes], left to
    right, one rounded addition a frame, while the sum is below
    [FrameTimePeriod]; the frame that brings the sum to the period or above
    sets [AverageFrameTime] to that sum divided by the number of frames of
    the period and clears the sum and the count.  In exact arithmetic, from
    the initial values, the average is the mean of the frame times of the
    period and is positive. *)
Theorem AverageFrameTime_is_the_mean_of_the_period :
  (∀ (float : Type) (ops : FloatOps float) (ge : FloatGe float)
     (dts : list float) (dt : float) (st : FrameStats float),
     (0 ≤ NumFrameTimes st)%Z →
     (NumFrameTimes st + Z.of_nat (length dts) < INT_MAX)%Z →
     (∀ k : nat, k < length dts →
        (foldl fadd (SumFrameTimes st) (take (S k) dts) >=? FrameTimePeriod)%fl = false) →
     (foldl fadd (SumFrameTimes st) (dts ++ [dt]) >=? FrameTimePeriod)%fl = true →
     accumulate_all (dts ++ [dt]) st
     = Returns (mkFrameStats (literal 0 1) 0
                  (foldl fadd (SumFrameTimes st) (dts ++ [dt])
                   / float_of_int (NumFrameTimes st + Z.of_nat (length dts) + 1))%fl))
  ∧ (∀ (dts : list R) (dt : R),
       (Z.of_nat (length dts) < INT_MAX)%Z →
       (∀ k : nat, k < length dts → (total (take (S k) dts) < 1)%R) →
       (total dts + dt >= 1)%R →
       ∃ st', accumulate_all (dts ++ [dt]) initial_FrameStats = Returns st'
              ∧ SumFrameTimes st' = 0%R ∧ NumFrameTimes st' = 0%Z
              ∧ AverageFrameTime st' = ((total dts + dt) / INR (S (length dts)))%R
              ∧ (0 < AverageFrameTime st')%R).
Proof.
  split.
  - intros float ops ge dts dt st. apply accumulate_all_closed.
  - intros dts dt Hmax Hopen Hclose.
    eexists. split_and!.
    + apply accumulate_all_closed; cbn [initial_FrameStats NumFrameTimes SumFrameTimes].
      * done.
      * lia.
      * intros k Hk. apply exact_ge_false. rewrite foldl_Rplus.
        specialize (Hopen k Hk). cbn -[total]. lra.
      * apply exact_ge_true. rewrite foldl_Rplus, total_snoc. cbn -[total]. lra.
    + cbn. lra.
    + done.
    + cbn [AverageFrameTime initial_FrameStats SumFrameTimes NumFrameTimes].
      rewrite foldl_Rplus, total_snoc, S_INR, INR_IZR_INZ.
      cbn -[total IZR Z.of_nat Z.add]. rewrite !plus_IZR.
      assert (0 <= IZR (Z.of_nat (length dts)))%R by (apply IZR_le; lia).
      field. lra.
    + cbn [AverageFrameTime initial_FrameStats SumFrameTimes NumFrameTimes].
      rewrite foldl_Rplus, total_snoc.
      cbn -[total IZR Z.of_nat Z.add]. rewrite !plus_IZR.
      assert (0 <= IZR (Z.of_nat (length dts)))%R by (apply IZR_le; lia).
      apply Rdiv_lt_0_compat; lra.
Qed.

(** Three frames of 0.4 s in binary32: the third closes the period. *)
Lemma AverageFrameTime_is_the_mean_of_the_period_witness :
  accumulate_all (frames_0_4 ++ [binary32.of_ratio 4 10]) initial_FrameStats
  = Returns (mkFrameStats (literal 0 1) 0
               (foldl fadd (literal 0 1) (frames_0_4 ++ [binary32.of_ratio 4 10])
                / float_of_int 3)%fl).
Proof.
  apply (proj1 AverageFrameTime_is_the_mean_of_the_period binary32.float binary32.arith
           binary32_ge frames_0_4 (binary32.of_ratio 4 10) initial_FrameStats).
  - cbn. lia.
  - cbn. unfold INT_MAX. lia.
  - intros k Hk. cbn in Hk. do 2 (destruct k as [|k]; [by vm_compute|]). lia.
  - by vm_compute.
Defined.

(** The text that is written once an average is there. *)
Lemma window_text_Some {float : Type} `{!FloatOps float, !FloatGe float}
    (deferred : bool) (n : Z) (st : FrameStats float) :
  (AverageFrameTime st >=? literal 0 1)%fl = true →
  window_text deferred n st
  = Some [Text (if deferred then "Deferred Rendering - " else "Forward Rendering - ");
          Text "Lights: "; Int n; Text ", Frame Time: ";
          Float (AverageFrameTime st * literal 1000 1)%fl;
          Text "ms, FPS:"; Float (literal 1 1 / AverageFrameTime st)%fl].
Proof. intros H. unfold window_text. by rewrite H. Qed.

(** X8. The window text is written only once an average frame time is
    there.  From the initial values, in binary32 as in exact arithmetic,
    [SetWindowText] is not called in any frame before the one that closes
    the first period, whatever the pipeline and the number of lights.  In
    exact arithmetic an average that is there stays: from the frame that
    closes the first period on, the text is written in every frame, with the
    pipeline and the number of lights that the frame leaves, the average
    times 1000 and one over the average. *)
Theorem window_text_waits_for_the_first_period :
  (∀ dts : list binary32.float,
     (Z.of_nat (length dts) ≤ INT_MAX)%Z →
     (∀ k : nat, k < length dts →
        (foldl fadd (literal 0 1) (take (S k) dts) >=? FrameTimePeriod)%fl = false) →
     ∃ st, accumulate_all dts initial_FrameStats = Returns st
           ∧ AverageFrameTime st = (- literal 1 1)%fl
           ∧ ∀ (deferred : bool) (n : Z), window_text deferred n st = None)
  ∧ (∀ dts : list R,
       (Z.of_nat (length dts) ≤ INT_MAX)%Z →
       (∀ k : nat, k < length dts → (total (take (S k) dts) < 1)%R) →
       ∃ st, accumulate_all dts initial_FrameStats = Returns st
             ∧ AverageFrameTime st = (-1)%R
             ∧ ∀ (deferred : bool) (n : Z), window_text deferred n st = None)
  ∧ (∀ (dt : R) (st st' : FrameStats R),
       (0 ≤ NumFrameTimes st)%Z →
       (0 <= SumFrameTimes st)%R → (0 <= dt)%R →
       (0 <= AverageFrameTime st)%R →
       accumulate dt st = Returns st' →
       (0 <= AverageFrameTime st')%R
       ∧ (0 ≤ NumFrameTimes st')%Z ∧ (0 <= SumFrameTimes st')%R
       ∧ ∀ (deferred : bool) (n : Z),
           window_text deferred n st'
           = Some [Text (if deferred then "Deferred Rendering - "
                         else "Forward Rendering - ");
                   Text "Lights: "; Int n; Text ", Frame Time: ";
                   Float (AverageFrameTime st' * literal 1000 1)%fl;
                   Text "ms, FPS:"; Float (literal 1 1 / AverageFrameTime st')%fl])
  ∧ (∀ (float : Type) (ops : FloatOps float) (d3dx : D3DXOps float) (libm : Libm float)
       (mathdx : MathDX float) (ge : FloatGe float) (fuel : nat) (f : Frame float)
       (s s' : Scene float) (st st' : FrameStats float) (text : option (list (Piece float))),
       UpdateScene_to_end fuel f s st = Returns (s', st', text) →
       UpdateScene fuel f s = Returns s'
       ∧ accumulate (frameTime f) st = Returns st'
       ∧ text = window_text (Deferred s') (NumPointLights s') st').
Proof.
  split_and!.
  - intros dts Hmax Hopen. eexists. split_and!.
    + apply accumulate_all_open; [done| |done]. cbn. lia.
    + done.
    + done.
  - intros dts Hmax Hopen. eexists. split_and!.
    + apply accumulate_all_open; [done|cbn; lia|].
      intros k Hk. apply exact_ge_false. rewrite foldl_Rplus.
      specialize (Hopen k Hk). cbn -[total]. lra.
    + cbn. lra.
    + intros deferred n. unfold window_text.
      replace (_ >=? _)%fl with false; [done|].
      symmetry. apply exact_ge_false. cbn. lra.
  - intros dt st st' Hn Hsum Hdt Havg. unfold accumulate.
    destruct (Z.eqb_spec (NumFrameTimes st) INT_MAX) as [|Hne]; [done|].
    destruct (_ >=? _)%fl eqn:Hge; intros [= <-]; cbn.
    + apply exact_ge_true in Hge. cbn in Hge.
      assert (0 < IZR (NumFrameTimes st + 1))%R as Hpos by (apply IZR_lt; lia).
      assert (0 <= (SumFrameTimes st + dt) / IZR (NumFrameTimes st + 1))%R as Hq.
      { apply Rlt_le, Rdiv_lt_0_compat; [lra|exact Hpos]. }
      split_and!; [done|done|lra|].
      intros deferred n.
      by rewrite window_text_Some by (apply exact_ge_true; cbn; lra).
    + split_and!; [done|lia|lra|].
      intros deferred n.
      by rewrite window_text_Some by (apply exact_ge_true; cbn; lra).
  - intros float ops d3dx libm mathdx ge fuel f s s' st st' text.
    unfold UpdateScene_to_end.
    destruct (UpdateScene fuel f s) as [s1| |]; [|done..]. cbn.
    destruct (accumulate (frameTime f) st) as [st1| |]; [|done..]. cbn.
    by intros [= <- <- <-].
Qed.

(** Two frames of 0.4 s in binary32 leave the first period open. *)
Lemma window_text_waits_for_the_first_period_witness :
  ∃ st, accumulate_all frames_0_4 initial_FrameStats = Returns st
        ∧ AverageFrameTime st = (- literal 1 1)%fl
        ∧ ∀ (deferred : bool) (n : Z), window_text deferred n st = None.
Proof.
  apply (proj1 window_text_waits_for_the_first_period frames_0_4).
  - cbn. unfold INT_MAX. lia.
  - intros k Hk. cbn in Hk. do 2 (destruct k as [|k]; [by vm_compute|]). lia.
Defined.

(** ** What is drawn *)

Section DrawnFacts.
Context {float : Type} `{!FloatOps float, !D3DXOps float, !Libm float, !MathDX float}.

Implicit Types (s : Scene float) (f : Frame float).

Lemma initial_PointLights_length :
  length (@initial_PointLights float _) = Z.to_nat MaxPointLights.
Proof.
  unfold initial_PointLights. cbn [length]. rewrite length_replicate.
  unfold MaxPointLights. lia.
Qed.

Lemma in_sync_initial (camera : CCamera float) (g : Rng) : in_sync (initial_Scene camera g).
Proof. done. Qed.

Lemma in_sync_UpdateScene fuel f s s' : UpdateScene fuel f s = Returns s' → in_sync s'.
Proof.
  intros (s1 & _ & _ & ->)%UpdateScene_Returns. unfold in_sync. cbn.
  by rewrite take_take, Nat.min_id.
Qed.

Lemma in_sync_run fuel (frames : list (Frame float)) s s' :
  in_sync s → run fuel frames s = Returns s' → in_sync s'.
Proof.
  revert s; induction frames as [|f frames IH]; intros s Hs.
  - by intros [= <-].
  - cbn. destruct (UpdateScene fuel f s) as [s1| |] eqn:Hs1; [|done..].
    cbn. apply IH. by eapply in_sync_UpdateScene.
Qed.

Lemma RenderScene_lights_read (junk : D3DXMATRIX float) s (p : Pass float)
    (ls : list (SPointLight float)) :
  in_sync s →
  p ∈ passes (RenderScene junk s) →
  lights_read p = Some ls →
  ls = take (Z.to_nat (NumPointLights s)) (PointLights s).
Proof.
  intros Hs Hp Hls. unfold RenderScene in Hp. cbn [passes] in Hp.
  apply elem_of_app in Hp as [Hp|Hp].
  - destruct (Deferred s); cbn in Hp.
    + repeat (apply elem_of_cons in Hp as [->|Hp]; [cbn in Hls; try done|]).
      * by injection Hls as <-.
      * by apply elem_of_nil in Hp.
    + repeat (apply elem_of_cons in Hp as [->|Hp]; [cbn in Hls; try done|]).
      * by injection Hls as <-.
      * by apply elem_of_nil in Hp.
  - repeat (apply elem_of_cons in Hp as [->|Hp]; [cbn in Hls; try done|]).
    + by injection Hls as <-.
    + by apply elem_of_nil in Hp.
Qed.

End DrawnFacts.

(** X9. Whenever the idle loop renders, the light buffer on the GPU holds
    the live lights of the array: this is so when [InitScene] has created the
    buffer and after every [UpdateScene] that returns.  So, after any number
    of frames, each pass of [RenderScene] that reads lights (the forward
    pass of the level, the quads of the deferred pass, the flares) reads the
    same list, the first [NumPointLights] lights of the array, and
    [NumPointLights] is between 1 and [MaxPointLights]. *)
Theorem every_pass_reads_the_live_lights
    {float : Type} `{!FloatOps float, !D3DXOps float, !Libm float, !MathDX float}
    (fuel : nat) (frames : list (Frame float)) (camera : CCamera float) (g : Rng)
    (s' : Scene float) (junk : D3DXMATRIX float) :
  run fuel frames (initial_Scene camera g) = Returns s' →
  (1 ≤ NumPointLights s' ≤ MaxPointLights)%Z
  ∧ ∀ (p : Pass float) (ls : list (SPointLight float)),
      p ∈ passes (RenderScene junk s') →
      lights_read p = Some ls →
      ls = take (Z.to_nat (NumPointLights s')) (PointLights s')
      ∧ length ls = Z.to_nat (NumPointLights s').
Proof.
  intros Hrun.
  pose proof (run_advanced _ _ _ _ Hrun) as (Hle & Hmax & Hlen & _). cbn in *.
  assert (1 ≤ NumPointLights s' ≤ MaxPointLights)%Z as Hn.
  { split; [done|]. apply Hmax. unfold MaxPointLights. lia. }
  split; [done|]. intros p ls Hp Hls.
  assert (ls = take (Z.to_nat (NumPointLights s')) (PointLights s')) as ->.
  { apply (RenderScene_lights_read junk s' p ls); [|done..].
    apply (in_sync_run fuel frames (initial_Scene camera g) s'); [|done].
    apply in_sync_initial. }
  split; [done|].
  rewrite length_take, Hlen, initial_PointLights_length. lia.
Qed.

(** On the scene of the stand-ins, after one frame. *)
Lemma every_pass_reads_the_live_lights_witness :
  ∃ s', run_standin 5 [frame_1ms 0] scene_0 = Returns s'
        ∧ (1 ≤ NumPointLights s' ≤ MaxPointLights)%Z.
Proof.
  destruct (run_counts (MathDX0 := binary32.standin_mathdx)
              (D3DXOps0 := binary32.standin_d3dx) (Libm0 := binary32.standin_libm)
              5 [frame_1ms 0] scene_0 (S754_finite false 13743893 (-36)) 6)
    as (s' & Hs' & _); [by repeat constructor|by vm_compute|].
  exists s'. split; [exact Hs'|].
  exact (proj1 (every_pass_reads_the_live_lights (MathDX0 := binary32.standin_mathdx)
                  (D3DXOps0 := binary32.standin_d3dx) (Libm0 := binary32.standin_libm)
                  5 [frame_1ms 0] camera_at_1_0_0 1%Z s'
                  (mkD3DXMATRIX (binary32.of_int 0) (binary32.of_int 0) (binary32.of_int 0)
                     (binary32.of_int 0) (binary32.of_int 0) (binary32.of_int 0)
                     (binary32.of_int 0) (binary32.of_int 0) (binary32.of_int 0)
                     (binary32.of_int 0) (binary32.of_int 0) (binary32.of_int 0)
                     (binary32.of_int 0) (binary32.of_int 0) (binary32.of_int 0)
                     (binary32.of_int 0)) Hs')).
Defined.

(** ** Radius and colour *)

Section KeptFacts.
Context {float : Type} `{!FloatOps float, !D3DXOps float, !Libm float, !MathDX float}.

Implicit Types (s : Scene float) (f : Frame float).

Lemma UpdateScene_keeps_radius_and_colour fuel f s s' (i : nat) (l : SPointLight float) :
  (0 ≤ NumPointLights s)%Z →
  UpdateScene fuel f s = Returns s' →
  (Z.of_nat i < NumPointLights s)%Z →
  PointLights s !! i = Some l →
  ∃ l', PointLights s' !! i = Some l' ∧ radius l' = radius l ∧ colour l' = colour l.
Proof.
  intros Hpos (s1 & Hs1 & _ & ->)%UpdateScene_Returns Hi Hl.
  apply spawn_loop_spawned in Hs1 as (_ & _ & _ & _ & _ & _ & _ & Hframe).
  cbn in Hframe. cbn. rewrite orbit_from_lookup.
  rewrite Hframe, Hl by (done || left; lia).
  case_decide; eexists; by split.
Qed.

Lemma run_keeps_radius_and_colour fuel (frames : list (Frame float)) s s'
    (i : nat) (l : SPointLight float) :
  (0 ≤ NumPointLights s)%Z →
  run fuel frames s = Returns s' →
  (Z.of_nat i < NumPointLights s)%Z →
  PointLights s !! i = Some l →
  ∃ l', PointLights s' !! i = Some l' ∧ radius l' = radius l ∧ colour l' = colour l.
Proof.
  revert s l; induction frames as [|f frames IH]; intros s l Hpos Hrun Hi Hl.
  - injection Hrun as <-. by exists l.
  - cbn in Hrun. destruct (UpdateScene fuel f s) as [s1| |] eqn:Hs1; [|done..].
    cbn in Hrun.
    destruct (UpdateScene_keeps_radius_and_colour _ _ _ _ _ _ Hpos Hs1 Hi Hl)
      as (l1 & Hl1 & Hr1 & Hc1).
    apply UpdateScene_advanced in Hs1 as Hadv. destruct Hadv as (Hle & _).
    destruct (IH s1 l1) as (l' & Hl' & Hr' & Hc'); [lia|done|lia|done|].
    exists l'. split_and!; congruence.
Qed.

End KeptFacts.

(** X10. A light that is live keeps its radius and its colour for as long as
    the program runs: over any number of frames that return, the spawn step
    writes at the live count and above only, and the orbit step replaces the
    position of a light and nothing else. *)
Theorem live_lights_keep_radius_and_colour
    {float : Type} `{!FloatOps float, !D3DXOps float, !Libm float, !MathDX float}
    (fuel : nat) (frames : list (Frame float)) (s s' : Scene float)
    (i : nat) (l : SPointLight float) :
  (0 ≤ NumPointLights s)%Z →
  run fuel frames s = Returns s' →
  (Z.of_nat i < NumPointLights s)%Z →
  PointLights s !! i = Some l →
  ∃ l', PointLights s' !! i = Some l' ∧ radius l' = radius l ∧ colour l' = colour l.
Proof. apply run_keeps_radius_and_colour. Qed.

(** On the scene of the stand-ins, over two frames: the light the array
    starts with keeps its radius of 25000. *)
Lemma live_lights_keep_radius_and_colour_witness :
  ∃ s' l', run_standin 5 [frame_1ms 0; frame_1ms 0] scene_0 = Returns s'
           ∧ PointLights s' !! 0%nat = Some l'
           ∧ radius l' = binary32.of_int 25000.
Proof.
  destruct (run_counts (MathDX0 := binary32.standin_mathdx)
              (D3DXOps0 := binary32.standin_d3dx) (Libm0 := binary32.standin_libm)
              5 [frame_1ms 0; frame_1ms 0] scene_0 (S754_finite false 13743889 (-36)) 11)
    as (s' & Hs' & _); [by repeat constructor|by vm_compute|].
  destruct (live_lights_keep_radius_and_colour (MathDX0 := binary32.standin_mathdx)
              (D3DXOps0 := binary32.standin_d3dx) (Libm0 := binary32.standin_libm)
              5 [frame_1ms 0; frame_1ms 0] scene_0 s' 0%nat (@seed_light _ binary32.arith))
    as (l' & Hl' & Hr & _); [cbn; lia|exact Hs'|cbn; lia|reflexivity|].
  exists s', l'. exact (conj Hs' (conj Hl' Hr)).
Defined.

(** ** The order of binary32 *)

Module binary32_order.
Import binary32.

Lemma compare_cont_Eq (p q : positive) : Pos.compare_cont Eq p q = (p ?= q)%positive.
Proof. done. Qed.

(** [<] on the numbers of the format never holds between a number and
    itself, and goes through; a NaN is below nothing and nothing is below
    it. *)
Lemma ltb_irrefl (a : float) : ltb a a = false.
Proof.
  unfold ltb, SFltb, SFcompare.
  destruct a as [[]|[]| |[] m e]; try done;
    rewrite Z.compare_refl, compare_cont_Eq, Pos.compare_refl; done.
Qed.

Lemma ltb_trans (a b c : float) : ltb a b = true → ltb b c = true → ltb a c = true.
Proof.
  unfold ltb, SFltb, SFcompare.
  destruct a as [[]|[]| |[] ma ea], b as [[]|[]| |[] mb eb], c as [[]|[]| |[] mc ec];
    try done;
    repeat match goal with
    | |- context [PosDef.Pos.compare_cont Eq ?p ?q] =>
        change (PosDef.Pos.compare_cont Eq p q) with (Pos.compare p q)
    end;
    destruct (Z.compare_spec ea eb), (Z.compare_spec eb ec), (Z.compare_spec ea ec);
    try done; try lia;
    destruct (Pos.compare_spec ma mb), (Pos.compare_spec mb mc), (Pos.compare_spec ma mc);
    cbn; try done; try lia.
Qed.

End binary32_order.

(** ** The mesh *)

Section EnumFacts.
Context {float : Type} `{!FloatOps float, !MathDX float, !D3D11, !FloatBytes float}.

Implicit Types (m : CMesh float).

Lemma defined_Returns {A : Type} (o : option A) (a : A) :
  defined o = Returns a ↔ o = Some a.
Proof. destruct o; cbn; split; congruence. Qed.

Lemma read_coord_nil (offset : N) : read_coord (float := float) [] offset = None.
Proof. unfold read_coord, read_TFloat32. by rewrite lookup_nil. Qed.

(** A call of [GetVertex] that has returned is repeated by the next call. *)
Lemma GetVertex_again m m' (v : option (CVector3 float)) :
  (∀ sub, sub ∈ m_SubMeshes m → numVertices sub = 0%N → vertices sub = []) →
  GetVertex m = Returns (v, m') →
  m_SubMeshes m' = m_SubMeshes m ∧ GetVertex m' = Returns (v, m').
Proof.
  intros Hwf. unfold GetVertex.
  destruct (N.leb_spec (m_NumSubMeshes m) (m_EnumVertMesh m)) as [Hend|Hmore].
  { intros [= <- <-]. split; [done|].
    by destruct (N.leb_spec (m_NumSubMeshes m) (m_EnumVertMesh m)); [|lia]. }
  unfold subMesh_at at 1.
  destruct (m_SubMeshes m !! N.to_nat (m_EnumVertMesh m)) as [sub|] eqn:Hsub; [|done].
  cbn [defined mbind Outcome_bind].
  destruct (N.leb_spec (numVertices sub) (m_EnumVert m)) as [Hlast|Hin].
  - cbn zeta. cbn [m_NumSubMeshes m_EnumVertMesh set_EnumVert].
    destruct (N.leb_spec (m_NumSubMeshes m) (TUInt32 (m_EnumVertMesh m + 1))) as [Hend|Hnext].
    + intros [= <- <-]. split; [done|]. cbn.
      by destruct (N.leb_spec (m_NumSubMeshes m) (TUInt32 (m_EnumVertMesh m + 1))); [|lia].
    + set (m2 := set_EnumVert _ 0 _).
      destruct (current_vertex m2) as [v0| |] eqn:Hv0; [|done..].
      cbn. intros [= <- <-]. split; [done|].
      change (m_NumSubMeshes m2) with (m_NumSubMeshes m).
      change (m_EnumVertMesh m2) with (TUInt32 (m_EnumVertMesh m + 1)).
      destruct (N.leb_spec (m_NumSubMeshes m) (TUInt32 (m_EnumVertMesh m + 1))); [lia|].
      unfold current_vertex, subMesh_at in Hv0 |- *.
      change (m_SubMeshes m2) with (m_SubMeshes m) in *.
      change (m_EnumVertMesh m2) with (TUInt32 (m_EnumVertMesh m + 1)) in *.
      destruct (m_SubMeshes m !! N.to_nat (TUInt32 (m_EnumVertMesh m + 1)))
        as [sub2|] eqn:Hsub2; [|done].
      cbn [defined mbind Outcome_bind] in *.
      change (m_EnumVert m2) with 0%N in *.
      destruct (N.leb_spec (numVertices sub2) 0) as [Hempty|_].
      * rewrite (Hwf sub2), read_coord_nil in Hv0; [done| |lia].
        by eapply list_elem_of_lookup_2.
      * by rewrite Hv0.
  - destruct (current_vertex m) as [v0| |] eqn:Hv0; [|done..].
    cbn. intros [= <- <-]. split; [done|].
    destruct (N.leb_spec (m_NumSubMeshes m) (m_EnumVertMesh m)); [lia|].
    unfold subMesh_at. rewrite Hsub. cbn [defined mbind Outcome_bind].
    destruct (N.leb_spec (numVertices sub) (m_EnumVert m)); [lia|].
    by rewrite Hv0.
Qed.

Lemma GetVertex_times_again (n : nat) m (v : option (CVector3 float)) :
  GetVertex m = Returns (v, m) →
  GetVertex_times n m = Returns (replicate n v, m).
Proof.
  intros Hv. induction n as [|n IH]; [done|].
  cbn [GetVertex_times]. rewrite Hv. cbn. by rewrite IH.
Qed.

(** A call of [GetTriangle] that has returned is repeated by the next call. *)
Lemma GetTriangle_again m m'
    (t : option (CVector3 float * CVector3 float * CVector3 float)) :
  (∀ sub, sub ∈ m_SubMeshes m → numFaces sub = 0%N → faces sub = []) →
  GetTriangle m = Returns (t, m') →
  m_SubMeshes m' = m_SubMeshes m ∧ GetTriangle m' = Returns (t, m').
Proof.
  intros Hwf. unfold GetTriangle.
  destruct (N.leb_spec (m_NumSubMeshes m) (m_EnumTriMesh m)) as [Hend|Hmore].
  { intros [= <- <-]. split; [done|].
    by destruct (N.leb_spec (m_NumSubMeshes m) (m_EnumTriMesh m)); [|lia]. }
  unfold subMesh_at at 1.
  destruct (m_SubMeshes m !! N.to_nat (m_EnumTriMesh m)) as [sub|] eqn:Hsub; [|done].
  cbn [defined mbind Outcome_bind].
  destruct (N.leb_spec (numFaces sub) (m_EnumTri m)) as [Hlast|Hin].
  - cbn zeta. cbn [m_NumSubMeshes m_EnumTriMesh set_EnumTri].
    destruct (N.leb_spec (m_NumSubMeshes m) (TUInt32 (m_EnumTriMesh m + 1))) as [Hend|Hnext].
    + intros [= <- <-]. split; [done|]. cbn.
      by destruct (N.leb_spec (m_NumSubMeshes m) (TUInt32 (m_EnumTriMesh m + 1))); [|lia].
    + set (m2 := set_EnumTri _ 0 _).
      destruct (current_triangle m2) as [t0| |] eqn:Ht0; [|done..].
      cbn. intros [= <- <-]. split; [done|].
      change (m_NumSubMeshes m2) with (m_NumSubMeshes m).
      change (m_EnumTriMesh m2) with (TUInt32 (m_EnumTriMesh m + 1)).
      destruct (N.leb_spec (m_NumSubMeshes m) (TUInt32 (m_EnumTriMesh m + 1))); [lia|].
      unfold current_triangle, subMesh_at in Ht0 |- *.
      change (m_SubMeshes m2) with (m_SubMeshes m) in *.
      change (m_EnumTriMesh m2) with (TUInt32 (m_EnumTriMesh m + 1)) in *.
      destruct (m_SubMeshes m !! N.to_nat (TUInt32 (m_EnumTriMesh m + 1)))
        as [sub2|] eqn:Hsub2; [|done].
      cbn [defined mbind Outcome_bind] in *.
      change (m_EnumTri m2) with 0%N in *.
      destruct (N.leb_spec (numFaces sub2) 0) as [Hempty|_].
      * rewrite (Hwf sub2) in Ht0; [done| |lia].
        by eapply list_elem_of_lookup_2.
      * by rewrite Ht0.
  - destruct (current_triangle m) as [t0| |] eqn:Ht0; [|done..].
    cbn. intros [= <- <-]. split; [done|].
    destruct (N.leb_spec (m_NumSubMeshes m) (m_EnumTriMesh m)); [lia|].
    unfold subMesh_at. rewrite Hsub. cbn [defined mbind Outcome_bind].
    destruct (N.leb_spec (numFaces sub) (m_EnumTri m)); [lia|].
    by rewrite Ht0.
Qed.

Lemma GetTriangle_times_again (n : nat) m
    (t : option (CVector3 float * CVector3 float * CVector3 float)) :
  GetTriangle m = Returns (t, m) →
  GetTriangle_times n m = Returns (replicate n t, m).
Proof.
  intros Ht. induction n as [|n IH]; [done|].
  cbn [GetTriangle_times]. rewrite Ht. cbn. by rewrite IH.
Qed.

(** The first call after the enumeration has begun, on a mesh whose first
    sub-mesh is not empty. *)
Lemma GetVertex_first m (sub : SSubMesh) (v : CVector3 float) :
  (m_NumSubMeshes m ≠ 0)%N →
  m_SubMeshes m !! 0%nat = Some sub →
  (numVertices sub ≠ 0)%N →
  read_coord (vertices sub) 0 = Some v →
  GetVertex (BeginEnumVertices m) = Returns (Some v, BeginEnumVertices m).
Proof.
  intros Hn Hsub Hv Hread. unfold GetVertex, BeginEnumVertices.
  cbn [m_NumSubMeshes m_EnumVertMesh m_EnumVert set_EnumVert].
  destruct (N.leb_spec (m_NumSubMeshes m) 0); [lia|].
  unfold subMesh_at. cbn [m_SubMeshes m_EnumVertMesh set_EnumVert].
  change (N.to_nat 0) with 0%nat. rewrite Hsub. cbn [defined mbind Outcome_bind].
  destruct (N.leb_spec (numVertices sub) 0); [lia|].
  unfold current_vertex, subMesh_at.
  cbn [m_SubMeshes m_EnumVertMesh m_EnumVert set_EnumVert].
  change (N.to_nat 0) with 0%nat. rewrite Hsub. cbn [defined mbind Outcome_bind].
  change (TUInt32 (0 * vertexSize sub)) with 0%N. by rewrite Hread.
Qed.

Lemma GetTriangle_first m (sub : SSubMesh) (face : SMeshFace)
    (v1 v2 v3 : CVector3 float) :
  (m_NumSubMeshes m ≠ 0)%N →
  m_SubMeshes m !! 0%nat = Some sub →
  (numFaces sub ≠ 0)%N →
  faces sub !! 0%nat = Some face →
  read_coord (vertices sub) (TUInt32 (aiVertex_0 face * vertexSize sub)) = Some v1 →
  read_coord (vertices sub) (TUInt32 (aiVertex_1 face * vertexSize sub)) = Some v2 →
  read_coord (vertices sub) (TUInt32 (aiVertex_2 face * vertexSize sub)) = Some v3 →
  GetTriangle (BeginEnumTriangles m) = Returns (Some (v1, v2, v3), BeginEnumTriangles m).
Proof.
  intros Hn Hsub Hf Hface H1 H2 H3. unfold GetTriangle, BeginEnumTriangles.
  cbn [m_NumSubMeshes m_EnumTriMesh m_EnumTri set_EnumTri].
  destruct (N.leb_spec (m_NumSubMeshes m) 0); [lia|].
  unfold subMesh_at. cbn [m_SubMeshes m_EnumTriMesh set_EnumTri].
  change (N.to_nat 0) with 0%nat. rewrite Hsub. cbn [defined mbind Outcome_bind].
  destruct (N.leb_spec (numFaces sub) 0); [lia|].
  unfold current_triangle, subMesh_at.
  cbn [m_SubMeshes m_EnumTriMesh m_EnumTri set_EnumTri].
  change (N.to_nat 0) with 0%nat. rewrite Hsub. cbn [defined mbind Outcome_bind].
  rewrite Hface. cbn [defined mbind Outcome_bind].
  by rewrite H1, H2, H3.
Qed.

End EnumFacts.

(** X11. [GetVertex] does not step: nothing increments the counter of the
    enumeration.  Once a call has returned, every further call returns the
    same and leaves the mesh as it is.  After [BeginEnumVertices], on a mesh
    whose first sub-mesh is not empty, every call returns [true] with the
    first vertex of the first sub-mesh: the enumeration never reaches a
    second vertex and never ends.  (A sub-mesh that counts no vertices is
    taken to hold no vertex data.) *)
Theorem GetVertex_never_steps
    {float : Type} `{!MathDX float, !D3D11, !FloatBytes float} (m : CMesh float) :
  (∀ sub, sub ∈ m_SubMeshes m → numVertices sub = 0%N → vertices sub = []) →
  (∀ (m' : CMesh float) (v : option (CVector3 float)) (n : nat),
     GetVertex m = Returns (v, m') →
     GetVertex_times n m' = Returns (replicate n v, m'))
  ∧ (∀ (sub : SSubMesh) (v : CVector3 float) (n : nat),
       (m_NumSubMeshes m ≠ 0)%N →
       m_SubMeshes m !! 0%nat = Some sub →
       (numVertices sub ≠ 0)%N →
       read_coord (vertices sub) 0 = Some v →
       GetVertex_times n (BeginEnumVertices m)
       = Returns (replicate n (Some v), BeginEnumVertices m)).
Proof.
  intros Hwf. split.
  - intros m' v n Hv.
    destruct (GetVertex_again m m' v Hwf Hv) as (_ & Hv').
    by apply GetVertex_times_again.
  - intros sub v n Hn Hsub Hnv Hread.
    by apply GetVertex_times_again, (GetVertex_first m sub).
Qed.

(** Five calls on the square: the vertex (0, 0, 0), five times. *)
Lemma GetVertex_never_steps_witness :
  GetVertex_times 5 (BeginEnumVertices square_mesh)
  = Returns (replicate 5 (Some (mkCVector3 (S754_zero false) (S754_zero false)
                                  (S754_zero false))),
             BeginEnumVertices square_mesh).
Proof.
  apply (proj2 (GetVertex_never_steps square_mesh
                  ltac:(intros sub ->%list_elem_of_singleton; discriminate)) square).
  - discriminate.
  - reflexivity.
  - discriminate.
  - reflexivity.
Defined.

(** X12. [GetTriangle] does not step either.  Once a call has returned,
    every further call returns the same and leaves the mesh as it is.  After
    [BeginEnumTriangles], on a mesh whose first sub-mesh has a face, every
    call returns [true] with the three vertices of the first face of the
    first sub-mesh.  (A sub-mesh that counts no faces is taken to hold
    none.) *)
Theorem GetTriangle_never_steps
    {float : Type} `{!MathDX float, !D3D11, !FloatBytes float} (m : CMesh float) :
  (∀ sub, sub ∈ m_SubMeshes m → numFaces sub = 0%N → faces sub = []) →
  (∀ (m' : CMesh float) (t : option (CVector3 float * CVector3 float * CVector3 float))
     (n : nat),
     GetTriangle m = Returns (t, m') →
     GetTriangle_times n m' = Returns (replicate n t, m'))
  ∧ (∀ (sub : SSubMesh) (face : SMeshFace) (v1 v2 v3 : CVector3 float) (n : nat),
       (m_NumSubMeshes m ≠ 0)%N →
       m_SubMeshes m !! 0%nat = Some sub →
       (numFaces sub ≠ 0)%N →
       faces sub !! 0%nat = Some face →
       read_coord (vertices sub) (TUInt32 (aiVertex_0 face * vertexSize sub)) = Some v1 →
       read_coord (vertices sub) (TUInt32 (aiVertex_1 face * vertexSize sub)) = Some v2 →
       read_coord (vertices sub) (TUInt32 (aiVertex_2 face * vertexSize sub)) = Some v3 →
       GetTriangle_times n (BeginEnumTriangles m)
       = Returns (replicate n (Some (v1, v2, v3)), BeginEnumTriangles m)).
Proof.
  intros Hwf. split.
  - intros m' t n Ht.
    destruct (GetTriangle_again m m' t Hwf Ht) as (_ & Ht').
    by apply GetTriangle_times_again.
  - intros sub face v1 v2 v3 n Hn Hsub Hnf Hface H1 H2 H3.
    by apply GetTriangle_times_again, (GetTriangle_first m sub face).
Qed.

(** Three calls on the square: its first face, three times. *)
Lemma GetTriangle_never_steps_witness :
  GetTriangle_times 3 (BeginEnumTriangles square_mesh)
  = Returns (replicate 3
               (Some (mkCVector3 (S754_zero false) (S754_zero false) (S754_zero false),
                      mkCVector3 (binary32.of_int 1) (S754_zero false) (S754_zero false),
                      mkCVector3 (S754_zero false) (binary32.of_int 1) (S754_zero false))),
             BeginEnumTriangles square_mesh).
Proof.
  apply (proj2 (GetTriangle_never_steps square_mesh
                  ltac:(intros sub ->%list_elem_of_singleton; discriminate))
           square (mkSMeshFace 0 1 2)).
  - discriminate.
  - reflexivity.
  - discriminate.
  - reflexivity.
  - reflexivity.
  - reflexivity.
  - reflexivity.
Defined.

Section CountFacts.
Context {float : Type} `{!MathDX float, !D3D11}.
Local Open Scope N_scope.

Implicit Types (m : CMesh float).

Lemma TUInt32_add_l (a b : N) : TUInt32 (TUInt32 a + b) = TUInt32 (a + b).
Proof. unfold TUInt32. by rewrite N.Div0.add_mod_idemp_l. Qed.

Lemma TUInt32_small (a : N) : a < 2 ^ 32 → TUInt32 a = a.
Proof. apply N.mod_small. Qed.

Lemma count_from_sum (count : SSubMesh → N) (n : nat) (i total : N) m :
  (N.to_nat i + n ≤ length (m_SubMeshes m))%nat →
  total < 2 ^ 32 →
  count_from count n i total m
  = Returns (TUInt32 (total + sum_N (count <$> take n (drop (N.to_nat i) (m_SubMeshes m))))).
Proof.
  revert i total; induction n as [|n IH]; intros i total Hlen Htotal.
  - cbn. rewrite N.add_0_r. by rewrite TUInt32_small.
  - cbn [count_from]. unfold subMesh_at.
    destruct (m_SubMeshes m !! N.to_nat i) as [sub|] eqn:Hsub.
    + cbn [defined mbind Outcome_bind]. rewrite IH.
      * rewrite TUInt32_add_l, (drop_S _ _ _ Hsub).
        replace (N.to_nat (i + 1)) with (S (N.to_nat i)) by lia.
        cbn [take fmap list_fmap sum_N foldr]. by rewrite N.add_assoc.
      * lia.
      * apply N.mod_lt. done.
    + apply lookup_ge_None in Hsub. exfalso. clear IH Htotal. lia.
Qed.

Lemma count_from_short (count : SSubMesh → N) (n : nat) (i total : N) m :
  (N.to_nat i ≤ length (m_SubMeshes m))%nat →
  (length (m_SubMeshes m) < N.to_nat i + n)%nat →
  count_from count n i total m = Undefined.
Proof.
  revert i total; induction n as [|n IH]; intros i total Hi Hlen; [lia|].
  cbn [count_from]. unfold subMesh_at.
  destruct (m_SubMeshes m !! N.to_nat i) as [sub|] eqn:Hsub; [|done].
  cbn [defined mbind Outcome_bind].
  apply lookup_lt_Some in Hsub. apply IH; lia.
Qed.

End CountFacts.

(** X13. [GetNumTriangles] and [GetNumVertices] return the sum of the
    counts of the sub-meshes modulo [2^32]: the total is a [TUInt32] and
    wraps.  They read [m_NumSubMeshes] elements of the array, whatever it
    holds: with fewer elements than that the calls are not defined. *)
Theorem GetNumTriangles_is_the_sum_modulo_2_32 :
  ∀ (float : Type) (mathdx : MathDX float) (d3d : D3D11) (m : CMesh float),
    let live := take (N.to_nat (m_NumSubMeshes m)) (m_SubMeshes m) in
    (N.to_nat (m_NumSubMeshes m) ≤ length (m_SubMeshes m) →
     GetNumTriangles m = Returns (TUInt32 (sum_N (numFaces <$> live)))
     ∧ GetNumVertices m = Returns (TUInt32 (sum_N (numVertices <$> live))))
    ∧ (length (m_SubMeshes m) < N.to_nat (m_NumSubMeshes m) →
       GetNumTriangles m = Undefined ∧ GetNumVertices m = Undefined).
Proof.
  intros float mathdx d3d m live. split.
  - intros Hlen. unfold GetNumTriangles, GetNumVertices.
    rewrite !count_from_sum by (cbn; lia || done). by rewrite drop_0.
  - intros Hlen. unfold GetNumTriangles, GetNumVertices.
    by rewrite !count_from_short by (cbn; lia).
Qed.

(** X14. The vertex layout that [CreateSubMeshDX] builds: the position
    comes first, at byte 0, whatever the sub-mesh holds (the enumerations and
    the pre-processing read the first three floats of a vertex as its
    coordinates); the elements lie one after the other without gap or
    overlap up to [vertexSize], which is 12 plus 20 for skinning data, 12 for
    normals, 12 for tangents, 8 for texture coordinates and 4 for vertex
    colours, hence between 12 and 68 and a multiple of 4; no semantic occurs
    twice.  The number of indices is three times the number of faces, modulo
    [2^32].  The call returns [true] exactly when the two buffers are
    created; what [CreateInputLayout] returns does not enter. *)
Theorem CreateSubMeshDX_layout :
  ∀ (float : Type) (mathdx : MathDX float) (d3d : D3D11) (subMesh : SSubMesh)
    (shaderCode : Technique) (dev : Device),
    let elts := (vertex_elements subMesh).1 in
    let size := (vertex_elements subMesh).2 in
    let '(ok, subMeshDX, dev', ev) := CreateSubMeshDX (float := float) subMesh shaderCode dev in
    head elts = Some (mkD3D11_INPUT_ELEMENT_DESC "POSITION" 0 DXGI_FORMAT_R32G32B32_FLOAT
                        0 0 D3D11_INPUT_PER_VERTEX_DATA 0)
    ∧ tiled 0 elts size
    ∧ size = (12 + 20 * N_of_bool (hasSkinningData subMesh)
              + 12 * N_of_bool (hasNormals subMesh) + 12 * N_of_bool (hasTangents subMesh)
              + 8 * N_of_bool (hasTextureCoords subMesh)
              + 4 * N_of_bool (hasVertexColours subMesh))%N
    ∧ (12 ≤ size ≤ 68)%N ∧ (size mod 4 = 0)%N
    ∧ (1 ≤ length elts ≤ 7)%nat
    ∧ NoDup (SemanticName <$> elts)
    ∧ DX.vertexElts subMeshDX = elts
    ∧ DX.vertexSize subMeshDX = size
    ∧ DX.numVertices subMeshDX = numVertices subMesh
    ∧ DX.numIndices subMeshDX = TUInt32 (numFaces subMesh * 3)
    ∧ DX.node subMeshDX = node subMesh ∧ DX.material subMeshDX = material subMesh
    ∧ (ok = true ↔
       ∃ layout_hr layout vertex_hr vertexBuffer index_hr indexBuffer dev1 dev2,
         CreateInputLayout elts shaderCode dev = (layout_hr, layout, dev1)
         ∧ CreateBuffer
             (mkD3D11_BUFFER_DESC D3D11_BIND_VERTEX_BUFFER
                (TUInt32 (numVertices subMesh * size)) 0 0)
             (VertexMemory (vertices subMesh)) dev1 = (vertex_hr, vertexBuffer, dev2)
         ∧ CreateBuffer
             (mkD3D11_BUFFER_DESC D3D11_BIND_INDEX_BUFFER
                (TUInt32 (TUInt32 (numFaces subMesh * 3) * 2)) 0 0)
             (FaceMemory (faces subMesh)) dev2 = (index_hr, indexBuffer, dev')
         ∧ FAILED vertex_hr = false ∧ FAILED index_hr = false).
Proof.
  intros float mathdx d3d subMesh shaderCode dev elts size.
  unfold CreateSubMeshDX.
  assert (head elts = Some (mkD3D11_INPUT_ELEMENT_DESC "POSITION" 0
                              DXGI_FORMAT_R32G32B32_FLOAT 0 0 D3D11_INPUT_PER_VERTEX_DATA 0)
          ∧ tiled 0 elts size
          ∧ size = (12 + 20 * N_of_bool (hasSkinningData subMesh)
              + 12 * N_of_bool (hasNormals subMesh) + 12 * N_of_bool (hasTangents subMesh)
              + 8 * N_of_bool (hasTextureCoords subMesh)
              + 4 * N_of_bool (hasVertexColours subMesh))%N
          ∧ (12 ≤ size ≤ 68)%N ∧ (size mod 4 = 0)%N
          ∧ (1 ≤ length elts ≤ 7)%nat
          ∧ NoDup (SemanticName <$> elts)) as Hlayout.
  { subst elts size. unfold vertex_elements.
    destruct (hasSkinningData subMesh), (hasNormals subMesh), (hasTangents subMesh),
      (hasTextureCoords subMesh), (hasVertexColours subMesh);
      (split_and!;
       [reflexivity|vm_compute; by split_and!|reflexivity|by vm_compute|by vm_compute
       |reflexivity|cbn; lia|cbn; lia|compute_done]). }
  destruct Hlayout as (H1 & H2 & H3 & [H4 H4'] & H5 & [H6 H6'] & H7).
  destruct (vertex_elements subMesh) as [elts' size'] eqn:Hve. cbn in elts, size.
  subst elts size.
  destruct (CreateInputLayout elts' shaderCode dev) as [[layout_hr layout] dev1] eqn:Hl.
  destruct (CreateBuffer _ (VertexMemory _) dev1) as [[vertex_hr vb] dev2] eqn:Hvb.
  destruct (FAILED vertex_hr) eqn:Hvhr.
  - split_and!; try done. split; [done|].
    intros (lh & l & vh & vb' & ih & ib & d1 & d2 & E1 & E2 & E3 & E4 & E5).
    injection E1 as <- <- <-.
    rewrite Hvb in E2. injection E2 as <- <- <-. congruence.
  - destruct (CreateBuffer _ (FaceMemory _) dev2) as [[index_hr ib] dev3] eqn:Hib.
    split_and!; try done. split.
    + intros Hok. exists layout_hr, layout, vertex_hr, vb, index_hr, ib, dev1, dev2.
      split_and!; try done. by destruct (FAILED index_hr).
    + intros (lh & l & vh & vb' & ih & ib' & d1 & d2 & E1 & E2 & E3 & E4 & E5).
      injection E1 as <- <- <-.
      rewrite Hvb in E2. injection E2 as <- <- <-.
      rewrite Hib in E3. injection E3 as <- <-. by rewrite E5.
Qed.

Section RenderFacts.
Context {float : Type} `{!MathDX float, !D3D11}.

Implicit Types (m : CMesh float) (ev : list (MeshEvent float)).

Lemma draws_app ev ev' : draws (ev ++ ev') = draws ev ++ draws ev'.
Proof. apply omap_app. Qed.

Lemma draws_draw_passes (n : nat) (p : N) (technique : Technique) (k : N) :
  draws (draw_passes (float := float) n p technique k) = replicate n k.
Proof.
  revert p; induction n as [|n IH]; intros p; [done|].
  unfold draws in *. cbn. by rewrite IH.
Qed.

Lemma Render_subMesh_draws technique m (i : N) ev :
  Render_subMesh technique m i = Returns ev →
  ∃ sub, m_SubMeshesDX m !! N.to_nat i = Some sub
         ∧ draws ev = replicate (S (N.to_nat (Passes technique))) (DX.numIndices sub).
Proof.
  unfold Render_subMesh.
  destruct (m_SubMeshesDX m !! N.to_nat i) as [sub|]; [|done].
  cbn [defined mbind Outcome_bind].
  destruct (m_Materials m !! _) as [mat|]; [|done]. cbn [defined mbind Outcome_bind].
  destruct (m_Nodes m !! _) as [nd|]; [|done]. cbn [defined mbind Outcome_bind].
  assert (∀ (o : Outcome (list (MeshEvent float)))
            (k : list (MeshEvent float) → Outcome (list (MeshEvent float))),
            (∀ l, o = Returns l → draws l = []) →
            (∀ l, draws l = [] → k l = Returns ev → draws ev
               = replicate (S (N.to_nat (Passes technique))) (DX.numIndices sub)) →
            o ≫= k = Returns ev →
            draws ev = replicate (S (N.to_nat (Passes technique))) (DX.numIndices sub))
    as Hbind.
  { intros [l| |] k Ho Hk; [|done..]. cbn. apply Hk. by apply Ho. }
  intros Hev. exists sub. split; [done|]. revert Hev.
  apply Hbind.
  { intros l. destruct (_ <? _)%N; [|by intros [= <-]].
    destruct (DX.textures mat !! 0%nat); [|done]. cbn. by intros [= <-]. }
  intros l1 Hl1. apply Hbind.
  { intros l. destruct (_ <? _)%N; [|by intros [= <-]].
    destruct (DX.textures mat !! 1%nat); [|done]. cbn. by intros [= <-]. }
  intros l2 Hl2 [= <-].
  pose proof (draws_draw_passes (N.to_nat (Passes technique)) 0 technique
                (DX.numIndices sub)) as Hd.
  unfold draws in *. cbn. rewrite !omap_app, Hl1, Hl2. cbn.
  rewrite omap_app, Hd. cbn. by rewrite <- replicate_S_end.
Qed.

Lemma Render_draws_from technique m (n : nat) (i : N) ev :
  N.to_nat i ≤ length (m_SubMeshesDX m) →
  for_each n i (Render_subMesh technique m) = Returns ev →
  N.to_nat i + n ≤ length (m_SubMeshesDX m)
  ∧ draws ev
    = take n (drop (N.to_nat i) (m_SubMeshesDX m))
      ≫= λ sub, replicate (S (N.to_nat (Passes technique))) (DX.numIndices sub).
Proof.
  revert i ev; induction n as [|n IH]; intros i ev Hi.
  - intros [= <-]. split; [lia|done].
  - cbn [for_each].
    destruct (Render_subMesh technique m i) as [l| |] eqn:Hl; [|done..].
    cbn [mbind Outcome_bind].
    destruct (for_each n (i + 1) _) as [l'| |] eqn:Hl'; [|done..].
    cbn. intros [= <-].
    destruct (Render_subMesh_draws _ _ _ _ Hl) as (sub & Hsub & Hd).
    apply lookup_lt_Some in Hsub as Hlt.
    assert (N.to_nat (i + 1) = S (N.to_nat i)) as Hi1 by (clear; lia).
    destruct (IH (i + 1)%N l') as (Hlen & Hd'); [rewrite Hi1; clear IH; lia|done|].
    rewrite Hi1 in Hlen, Hd'.
    split; [clear IH; lia|].
    by rewrite draws_app, Hd, Hd', (drop_S _ _ _ Hsub).
Qed.

End RenderFacts.

(** X15. [Render] draws nothing for a mesh without geometry.  For a mesh
    with geometry it goes through the sub-meshes in order and draws each one
    once for every pass of the technique and once more after the last pass:
    the loop over the passes is followed by a further [DrawIndexed].  With a
    technique of [p] passes a mesh of [k] sub-meshes is drawn [k * (p + 1)]
    times. *)
Theorem Render_draws_once_more_than_the_passes
    {float : Type} `{!MathDX float, !D3D11}
    (technique : Technique) (m : CMesh float) (ev : list (MeshEvent float)) :
  Render technique m = Returns ev →
  (m_HasGeometry m = false → ev = [])
  ∧ (m_HasGeometry m = true →
     N.to_nat (m_NumSubMeshes m) ≤ length (m_SubMeshesDX m)
     ∧ draws ev
       = take (N.to_nat (m_NumSubMeshes m)) (m_SubMeshesDX m)
         ≫= (λ sub, replicate (S (N.to_nat (Passes technique))) (DX.numIndices sub))
     ∧ length (draws ev)
       = N.to_nat (m_NumSubMeshes m) * S (N.to_nat (Passes technique))).
Proof.
  unfold Render. intros Hev. split.
  - intros Hg. rewrite Hg in Hev. by injection Hev as <-.
  - intros Hg. rewrite Hg in Hev. cbn [negb] in Hev.
    apply Render_draws_from in Hev as (Hlen & Hd); [|cbn; lia].
    cbn in Hlen. rewrite drop_0 in Hd. split_and!; [done|done|].
    rewrite Hd. clear Hd.
    assert (∀ l : list DX.SSubMeshDX,
              length (l ≫= λ sub, replicate (S (N.to_nat (Passes technique)))
                                   (DX.numIndices sub))
              = length l * S (N.to_nat (Passes technique))) as Hbind.
    { induction l as [|sub l IH]; [done|].
      cbn [mbind list_bind length]. cbn [mbind] in IH.
      rewrite length_app, IH, length_replicate. lia. }
    rewrite Hbind, length_take, Nat.min_l by done. done.
Qed.

(** The square, with a technique of two passes: three draws of six indices,
    and the passes 0 and 1 applied. *)
Lemma Render_draws_once_more_than_the_passes_witness :
  ∃ ev, Render (2%N : @Technique standin_d3d11) square_mesh = Returns ev
        ∧ draws ev = [6; 6; 6]%N ∧ applied ev = [0; 1]%N.
Proof.
  eexists. split; [reflexivity|].
  split; [|reflexivity].
  exact (proj1 (proj2 (proj2 (Render_draws_once_more_than_the_passes
                                (2%N : @Technique standin_d3d11) square_mesh _ eq_refl)
                         eq_refl))).
Defined.

(** *** The bounds *)

Section BoundFacts.
Context {float : Type} `{!FloatOps float, !MathDX float, !D3D11, !FloatBytes float}.
Hypothesis flt_irrefl : ∀ a : float, (a <? a)%fl = false.
Hypothesis flt_trans : ∀ a b c : float,
  (a <? b)%fl = true → (b <? c)%fl = true → (a <? c)%fl = true.

Implicit Types (m : CMesh float) (v w : CVector3 float)
  (bounds : CVector3 float * CVector3 float * float).

(** The least of two. *)
Lemma lower_new (a lo : float) : (a <? (if (a <? lo)%fl then a else lo))%fl = false.
Proof using flt_irrefl. by destruct (a <? lo)%fl eqn:Hlt. Qed.

Lemma lower_old (a b lo : float) :
  (b <? lo)%fl = false → (b <? (if (a <? lo)%fl then a else lo))%fl = false.
Proof using flt_trans.
  intros Hb. destruct (a <? lo)%fl eqn:Ha; [|done].
  destruct (b <? a)%fl eqn:Hba; [|done].
  by rewrite (flt_trans b a lo) in Hb.
Qed.

(** The greatest of two. *)
Lemma upper_new (a hi : float) : ((if (hi <? a)%fl then a else hi) <? a)%fl = false.
Proof using flt_irrefl. by destruct (hi <? a)%fl eqn:Hlt. Qed.

Lemma upper_old (a b hi : float) :
  (hi <? b)%fl = false → ((if (hi <? a)%fl then a else hi) <? b)%fl = false.
Proof using flt_trans.
  intros Hb. destruct (hi <? a)%fl eqn:Ha; [|done].
  destruct (a <? b)%fl eqn:Hab; [|done].
  by rewrite (flt_trans hi a b) in Hb.
Qed.

Lemma bound_vertex_new v bounds : within v (bound_vertex v bounds).
Proof using flt_irrefl.
  destruct bounds as [[lo hi] radius]. unfold within, bound_vertex. cbn.
  split_and!; (apply lower_new || apply upper_new).
Qed.

Lemma bound_vertex_old v w bounds : within w bounds → within w (bound_vertex v bounds).
Proof using flt_trans.
  destruct bounds as [[lo hi] radius]. unfold within, bound_vertex. cbn.
  intros (H1 & H2 & H3 & H4 & H5 & H6 & H7).
  split_and!; (by apply lower_old) || (by apply upper_old).
Qed.

(** The loop over the vertices of a sub-mesh reads [n] vertices, one every
    [step] bytes, and leaves each of them, and what was inside before,
    inside the bounds. *)
Lemma bound_vertices_within (n : nat) (mem : list Byte.byte) (p step : N) bounds bounds' :
  bound_vertices n mem p step bounds = Returns bounds' →
  (∀ w, within w bounds → within w bounds')
  ∧ ∀ j : nat, j < n →
      ∃ v, read_coord mem (p + N.of_nat j * step) = Some v ∧ within v bounds'.
Proof using flt_irrefl flt_trans.
  revert p bounds; induction n as [|n IH]; intros p bounds.
  - intros [= <-]. split; [done|]. intros j Hj. lia.
  - cbn [bound_vertices].
    destruct (read_coord mem p) as [v|] eqn:Hv; [|done]. cbn [defined mbind Outcome_bind].
    intros (Hold & Hnew)%IH. split.
    + intros w Hw. by apply Hold, bound_vertex_old.
    + intros [|j] Hj.
      * exists v. rewrite N.mul_0_l, N.add_0_r. split; [done|].
        apply Hold, bound_vertex_new.
      * destruct (Hnew j ltac:(lia)) as (v' & Hv' & Hin). exists v'. split; [|done].
        rewrite <- Hv'. f_equal. lia.
Qed.

(** The loop over the sub-meshes. *)
Lemma bound_subMeshes_true (n : nat) (i : N) m bounds bounds' :
  bound_subMeshes n i m bounds = Returns (true, bounds') →
  (∀ w, within w bounds → within w bounds')
  ∧ ∀ k : nat, k < n →
      ∃ sub, m_SubMeshes m !! (N.to_nat i + k)%nat = Some sub
             ∧ numVertices sub ≠ 0%N
             ∧ ∀ j : nat, j < N.to_nat (numVertices sub) →
                 ∃ v, read_coord (vertices sub) (N.of_nat j * vertexSize sub) = Some v
                      ∧ within v bounds'.
Proof using flt_irrefl flt_trans.
  revert i bounds; induction n as [|n IH]; intros i bounds.
  - intros [= <-]. split; [done|]. intros k Hk. lia.
  - cbn [bound_subMeshes]. unfold subMesh_at.
    destruct (m_SubMeshes m !! N.to_nat i) as [sub|] eqn:Hsub; [|done].
    cbn [defined mbind Outcome_bind].
    destruct (N.eqb_spec (numVertices sub) 0) as [|Hne]; [done|].
    destruct (bound_vertices _ _ _ _ _) as [b1| |] eqn:Hb1; [|done..].
    cbn [mbind Outcome_bind].
    apply bound_vertices_within in Hb1 as (Hold1 & Hnew1).
    intros (Hold & Hnew)%IH. split.
    + intros w Hw. by apply Hold, Hold1.
    + intros [|k] Hk.
      * exists sub. rewrite Nat.add_0_r. split_and!; [done|done|].
        intros j Hj. destruct (Hnew1 j Hj) as (v & Hv & Hin).
        exists v. split; [by rewrite N.add_0_l in Hv|]. by apply Hold.
      * destruct (Hnew k ltac:(lia)) as (sub' & Hsub' & Hrest). exists sub'.
        split; [|done]. rewrite <- Hsub'. f_equal. lia.
Qed.

Lemma bound_subMeshes_false (n : nat) (i : N) m bounds bounds' :
  bound_subMeshes n i m bounds = Returns (false, bounds') →
  ∃ (k : nat) sub, k < n ∧ m_SubMeshes m !! (N.to_nat i + k)%nat = Some sub
                   ∧ numVertices sub = 0%N.
Proof.
  revert i bounds; induction n as [|n IH]; intros i bounds; [done|].
  cbn [bound_subMeshes]. unfold subMesh_at.
  destruct (m_SubMeshes m !! N.to_nat i) as [sub|] eqn:Hsub; [|done].
  cbn [defined mbind Outcome_bind].
  destruct (N.eqb_spec (numVertices sub) 0) as [Hz|Hne].
  - intros _. exists 0%nat, sub. rewrite Nat.add_0_r. split_and!; [lia|done|done].
  - destruct (bound_vertices _ _ _ _ _) as [b1| |]; [|done..].
    cbn [mbind Outcome_bind].
    intros (k & sub' & Hk & Hsub' & Hz)%IH.
    exists (S k), sub'. split_and!; [lia| |done].
    rewrite <- Hsub'. f_equal. lia.
Qed.

End BoundFacts.

Section AcceptFacts.
Context {float : Type} `{!FloatOps float, !MathDX float, !D3D11, !FloatBytes float}.
Implicit Types (m : CMesh float).

(** The loop over the sub-meshes comes to its end only past sub-meshes that
    have vertices. *)
Lemma bound_subMeshes_accepts (n : nat) (i : N) m bounds bounds' :
  bound_subMeshes n i m bounds = Returns (true, bounds') →
  ∀ k : nat, k < n →
    ∃ sub, m_SubMeshes m !! (N.to_nat i + k)%nat = Some sub ∧ numVertices sub ≠ 0%N.
Proof.
  revert i bounds; induction n as [|n IH]; intros i bounds; [intros _ k Hk; lia|].
  cbn [bound_subMeshes]. unfold subMesh_at.
  destruct (m_SubMeshes m !! N.to_nat i) as [sub|] eqn:Hsub; [|done].
  cbn [defined mbind Outcome_bind].
  destruct (N.eqb_spec (numVertices sub) 0) as [|Hne]; [done|].
  destruct (bound_vertices _ _ _ _ _) as [b1| |]; [|done..].
  cbn [mbind Outcome_bind].
  intros Hrest [|k] Hk.
  - exists sub. by rewrite Nat.add_0_r.
  - destruct (IH _ _ Hrest k ltac:(lia)) as (sub' & Hsub' & Hne'). exists sub'.
    split; [|done]. rewrite <- Hsub'. f_equal. lia.
Qed.

(** What [PreProcess] returns, with the loop left folded. *)
Lemma PreProcess_Returns m ok m' :
  PreProcess m = Returns (ok, m') →
  (m_NumSubMeshes m = 0%N ∧ ok = false ∧ m' = m)
  ∨ (∃ sub, m_NumSubMeshes m ≠ 0%N ∧ m_SubMeshes m !! 0%nat = Some sub
            ∧ numVertices sub = 0%N ∧ ok = false ∧ m' = m)
  ∨ (∃ sub first lo hi radius,
       m_NumSubMeshes m ≠ 0%N ∧ m_SubMeshes m !! 0%nat = Some sub
       ∧ numVertices sub ≠ 0%N
       ∧ read_coord (vertices sub) 0 = Some first
       ∧ bound_subMeshes (N.to_nat (m_NumSubMeshes m)) 0 m (first, first, Length first)
         = Returns (ok, (lo, hi, radius))
       ∧ m' = set_Bounds lo hi radius m).
Proof.
  unfold PreProcess, subMesh_at.
  destruct (N.eqb_spec (m_NumSubMeshes m) 0) as [Hz|Hne].
  { intros [= <- <-]. by left. }
  change (N.to_nat 0) with 0%nat.
  destruct (m_SubMeshes m !! 0%nat) as [sub|] eqn:Hsub; [|done].
  cbn [defined mbind Outcome_bind].
  destruct (N.eqb_spec (numVertices sub) 0) as [Hz|Hne'].
  { intros [= <- <-]. right; left. by exists sub. }
  destruct (read_coord (vertices sub) 0) as [first|] eqn:Hfirst; [|done].
  cbn [defined mbind Outcome_bind].
  destruct (bound_subMeshes _ _ _ _) as [[ok' [[lo hi] radius]]| |] eqn:Hloop; [|done..].
  cbn [mbind Outcome_bind]. intros [= <- <-].
  right; right. by exists sub, first, lo, hi, radius.
Qed.

(** [PreProcess] changes nothing but the bounds. *)
Lemma PreProcess_shape m ok m' :
  PreProcess m = Returns (ok, m') →
  m' = set_Bounds (m_MinBounds m') (m_MaxBounds m') (m_BoundingRadius m') m.
Proof.
  intros [(_ & _ & ->)|[(? & _ & _ & _ & _ & ->)
                       |(? & ? & ? & ? & ? & _ & _ & _ & _ & _ & ->)]]%PreProcess_Returns;
    [by destruct m|by destruct m|done].
Qed.

End AcceptFacts.

(** X16. When [PreProcess] accepts a mesh, every vertex of every sub-mesh of
    the mesh lies inside the bounds that the mesh holds afterwards: no
    coordinate is below the least corner or above the greatest one, and the
    vertex is no farther from the origin than the bounding radius, as [<] of
    binary32 sees it.  The vertex [j] of a sub-mesh is read [j] vertex sizes
    into its vertex data. *)
Theorem PreProcess_bounds_hold_every_vertex
    `{!MathDX binary32.float, !D3D11, !FloatBytes binary32.float}
    (m m' : CMesh binary32.float) (i j : nat) (sub : SSubMesh) :
  PreProcess m = Returns (true, m') →
  i < N.to_nat (m_NumSubMeshes m) →
  m_SubMeshes m !! i = Some sub →
  j < N.to_nat (numVertices sub) →
  ∃ v, read_coord (vertices sub) (N.of_nat j * vertexSize sub) = Some v
       ∧ within v (bounds_of m').
Proof.
  intros Hm Hi Hsub Hj.
  apply PreProcess_Returns in Hm
    as [(_ & [=] & _)|[(? & _ & _ & _ & [=] & _)
                      |(sub0 & first & lo & hi & radius & _ & _ & _ & _ & Hloop & ->)]].
  apply (@bound_subMeshes_true _ binary32.arith _ _ _
           binary32_order.ltb_irrefl binary32_order.ltb_trans) in Hloop as [_ Hall].
  destruct (Hall i Hi) as (sub' & Hsub' & _ & Hin).
  change (N.to_nat 0 + i)%nat with i in Hsub'.
  assert (sub' = sub) as -> by congruence.
  exact (Hin j Hj).
Qed.

(** The square: its last vertex, (1, 1, 0), lies inside the bounds from
    (0, 0, 0) to (1, 1, 0). *)
Lemma PreProcess_bounds_hold_every_vertex_witness :
  ∃ (m' : @CMesh _ binary32.standin_mathdx standin_d3d11) v,
    PreProcess square_mesh = Returns (true, m')
          ∧ m_MinBounds m'
            = mkCVector3 (binary32.of_int 0) (binary32.of_int 0) (binary32.of_int 0)
          ∧ m_MaxBounds m'
            = mkCVector3 (binary32.of_int 1) (binary32.of_int 1) (binary32.of_int 0)
          ∧ read_coord (vertices square) (N.of_nat 3 * vertexSize square) = Some v
          ∧ @within _ _ binary32.standin_mathdx v (bounds_of m').
Proof.
  eexists.
  destruct (PreProcess_bounds_hold_every_vertex square_mesh _ 0 3 square eq_refl)
    as (v & Hv & Hin); [cbn; lia|reflexivity|cbn; lia|].
  exists v. split_and!; [reflexivity|reflexivity|reflexivity|exact Hv|exact Hin].
Defined.

(** X17. [PreProcess] accepts a mesh exactly when the mesh has a sub-mesh
    and none of its sub-meshes is without vertices.  Whatever it answers, it
    changes nothing of the mesh but the bounds, and it leaves the bounds too
    as they were when the mesh has no sub-mesh or its first sub-mesh has no
    vertex. *)
Theorem PreProcess_accepts_meshes_without_empty_sub_meshes
    {float : Type} `{!FloatOps float, !MathDX float, !D3D11, !FloatBytes float}
    (m m' : CMesh float) (ok : bool) :
  PreProcess m = Returns (ok, m') →
  (ok = true ↔
   m_NumSubMeshes m ≠ 0%N
   ∧ ∀ (i : nat) sub, i < N.to_nat (m_NumSubMeshes m) →
       m_SubMeshes m !! i = Some sub → numVertices sub ≠ 0%N)
  ∧ m' = set_Bounds (m_MinBounds m') (m_MaxBounds m') (m_BoundingRadius m') m
  ∧ (m_NumSubMeshes m = 0%N
     ∨ (∃ sub, m_SubMeshes m !! 0%nat = Some sub ∧ numVertices sub = 0%N) →
     m' = m).
Proof.
  intros Hm.
  apply PreProcess_Returns in Hm
    as [(Hz & -> & ->)|[(sub & Hne & Hsub & Hz & -> & ->)
                       |(sub & first & lo & hi & radius & Hne & Hsub & Hne' & _ & Hloop & ->)]].
  - split_and!; [|by destruct m|done].
    split; [done|]. by intros [? _].
  - split_and!; [|by destruct m|done].
    split; [done|]. intros [_ Hall]. destruct (Hall 0%nat sub); [lia|done|done].
  - split_and!; [|done|].
    + destruct ok.
      * split; [intros _|done]. split; [done|]. intros i sub' Hi Hsub'.
        destruct (bound_subMeshes_accepts _ _ _ _ _ Hloop i Hi) as (sub'' & Hsub'' & Hne'').
        change (N.to_nat 0 + i)%nat with i in Hsub''. congruence.
      * split; [done|]. intros [_ Hall].
        apply bound_subMeshes_false in Hloop as (k & sub' & Hk & Hsub' & Hz).
        change (N.to_nat 0 + k)%nat with k in Hsub'.
        by destruct (Hall k sub' Hk Hsub').
    + intros [Hz|(sub' & Hsub' & Hz)]; [done|]. congruence.
Qed.

Lemma PreProcess_accepts_meshes_without_empty_sub_meshes_witness :
  ∃ m' : @CMesh _ binary32.standin_mathdx standin_d3d11,
    PreProcess square_mesh = Returns (true, m')
        ∧ m_NumSubMeshes square_mesh ≠ 0%N
        ∧ ∀ (i : nat) sub, i < N.to_nat (m_NumSubMeshes square_mesh) →
            m_SubMeshes square_mesh !! i = Some sub → numVertices sub ≠ 0%N.
Proof.
  eexists. split; [reflexivity|].
  exact (proj1 (proj1 (PreProcess_accepts_meshes_without_empty_sub_meshes
                         square_mesh _ true eq_refl)) eq_refl).
Defined.

(** *** Loading and releasing *)

Section ReleaseFacts.
Context {float : Type} `{!FloatOps float, !MathDX float, !D3D11, !FloatBytes float}.
Implicit Types (m : CMesh float) (ev : list (MeshEvent float)).

Lemma created_app ev ev' : created (ev ++ ev') = created ev ++ created ev'.
Proof. apply omap_app. Qed.

Lemma released_app ev ev' : released (ev ++ ev') = released ev ++ released ev'.
Proof. apply omap_app. Qed.

Lemma messages_app ev ev' : messages (ev ++ ev') = messages ev ++ messages ev'.
Proof. apply omap_app. Qed.

(** A loop over elements of an array, each of which returns. *)
Lemma for_each_lookup {A : Type} (l : list A) (g : A → list (MeshEvent float))
    (n : nat) (i : N) (body : N → Outcome (list (MeshEvent float))) :
  (∀ (j : N) x, (N.to_nat i ≤ N.to_nat j < N.to_nat i + n)%nat →
     l !! N.to_nat j = Some x → body j = Returns (g x)) →
  (N.to_nat i + n ≤ length l)%nat →
  for_each n i body = Returns (take n (drop (N.to_nat i) l) ≫= g).
Proof.
  revert i; induction n as [|n IH]; intros i Hbody Hlen; [done|].
  assert (N.to_nat i < length l)%nat as [x Hx]%lookup_lt_is_Some_2 by lia.
  cbn [for_each]. rewrite (Hbody i x) by (done || lia). cbn [mbind Outcome_bind].
  rewrite IH; [|intros j y Hj; apply Hbody; clear IH Hbody; lia|clear IH Hbody; lia].
  cbn [mbind Outcome_bind].
  rewrite (drop_S _ _ _ Hx). cbn [take mbind list_bind].
  do 5 f_equal. lia.
Qed.

Lemma omap_bind {A B C : Type} (f : B → option C) (g : A → list B) (l : list A) :
  omap f (l ≫= g) = l ≫= (λ x, omap f (g x)).
Proof.
  induction l as [|x l IH]; [done|].
  cbn [mbind list_bind]. cbn [mbind] in IH. by rewrite omap_app, IH.
Qed.

Lemma bind_nil {A B : Type} (g : A → list B) (l : list A) :
  (∀ x, g x = []) → l ≫= g = [].
Proof.
  intros Hg. induction l as [|x l IH]; [done|].
  cbn [mbind list_bind]. cbn [mbind] in IH. by rewrite Hg, IH.
Qed.

Lemma bind_ext_Forall {A B : Type} (g g' : A → list B) (l : list A) :
  Forall (λ x, g x = g' x) l → l ≫= g = l ≫= g'.
Proof.
  induction 1 as [|x l Hx _ IH]; [done|].
  cbn [mbind list_bind]. cbn [mbind] in IH. by rewrite Hx, IH.
Qed.

(** [ReleaseResources] leaves the mesh without geometry. *)
Lemma ReleaseResources_emptied m m' ev :
  ReleaseResources m = Returns (m', ev) → m' = emptied m.
Proof.
  unfold ReleaseResources.
  do 2 (destruct (for_each _ _ _) as [?| |]); cbn [mbind Outcome_bind]; try done.
  by intros [= <- <-].
Qed.

(** What [ReleaseResources] releases: the textures of the materials that
    are counted, then the buffers and the layout of the sub-meshes that are
    counted.  It creates nothing and shows no message. *)
Lemma ReleaseResources_releases m :
  (N.to_nat (m_NumMaterials m) ≤ length (m_Materials m))%nat →
  Forall (λ dx, N.to_nat (DX.numTextures dx) ≤ length (DX.textures dx))%nat
    (take (N.to_nat (m_NumMaterials m)) (m_Materials m)) →
  (N.to_nat (m_NumSubMeshes m) ≤ length (m_SubMeshesDX m))%nat →
  ∃ ev, ReleaseResources m = Returns (emptied m, ev)
        ∧ released ev
          = (take (N.to_nat (m_NumMaterials m)) (m_Materials m)
             ≫= λ dx, omap (fmap TextureObject)
                         (take (N.to_nat (DX.numTextures dx)) (DX.textures dx)))
            ++ (take (N.to_nat (m_NumSubMeshes m)) (m_SubMeshesDX m)
                ≫= λ dx, omap (λ o, o) [BufferObject <$> DX.indexBuffer dx;
                                         BufferObject <$> DX.vertexBuffer dx;
                                         LayoutObject <$> DX.vertexLayout dx])
        ∧ created ev = [] ∧ messages ev = [].
Proof.
  intros Hnm Hwf Hns. unfold ReleaseResources.
  rewrite (for_each_lookup (m_SubMeshesDX m)
             (λ sub, when_set ReleasedBuffer (DX.indexBuffer sub)
                     ++ when_set ReleasedBuffer (DX.vertexBuffer sub)
                     ++ when_set ReleasedLayout (DX.vertexLayout sub)));
    [| |change (N.to_nat 0) with 0%nat; lia].
  2: { intros j dx _ Hdx. by rewrite Hdx. }
  rewrite (for_each_lookup (m_Materials m)
             (λ dx, take (N.to_nat (DX.numTextures dx)) (DX.textures dx)
                    ≫= when_set ReleasedTexture));
    [| |change (N.to_nat 0) with 0%nat; lia].
  2: { intros j dx Hj Hdx. rewrite Hdx. cbn [defined mbind Outcome_bind].
       change (N.to_nat 0) with 0%nat in Hj.
       assert (N.to_nat (DX.numTextures dx) ≤ length (DX.textures dx))%nat as Hdx'.
       { rewrite Forall_lookup in Hwf. apply (Hwf (N.to_nat j)).
         rewrite lookup_take_lt by lia. done. }
       rewrite (for_each_lookup (DX.textures dx) (when_set ReleasedTexture));
         [done| |change (N.to_nat 0) with 0%nat; lia].
       intros k t _ Ht. by rewrite Ht. }
  cbn [mbind Outcome_bind]. change (N.to_nat 0) with 0%nat. rewrite !drop_0.
  eexists. split; [done|].
  rewrite released_app, created_app, messages_app.
  unfold released, created, messages. rewrite !omap_bind.
  split_and!.
  - f_equal.
    + apply bind_ext_Forall, Forall_forall. intros dx _. rewrite omap_bind.
      generalize (take (N.to_nat (DX.numTextures dx)) (DX.textures dx)).
      induction l as [|[t|] l IH]; [done|..]; cbn in *; by rewrite IH.
    + apply bind_ext_Forall, Forall_forall. intros dx _.
      by destruct (DX.indexBuffer dx), (DX.vertexBuffer dx), (DX.vertexLayout dx).
  - rewrite !bind_nil; [done|..].
    + intros dx. by destruct (DX.indexBuffer dx), (DX.vertexBuffer dx), (DX.vertexLayout dx).
    + intros dx. rewrite omap_bind. apply bind_nil. by intros [t|].
  - rewrite !bind_nil; [done|..].
    + intros dx. by destruct (DX.indexBuffer dx), (DX.vertexBuffer dx), (DX.vertexLayout dx).
    + intros dx. rewrite omap_bind. apply bind_nil. by intros [t|].
Qed.

(** Whatever the mesh is, [ReleaseResources] creates nothing and shows no
    message. *)
Lemma for_each_quiet (n : nat) (i : N) (body : N → Outcome (list (MeshEvent float))) ev :
  (∀ j ev, body j = Returns ev → created ev = [] ∧ messages ev = []) →
  for_each n i body = Returns ev → created ev = [] ∧ messages ev = [].
Proof.
  intros Hbody. revert i ev; induction n as [|n IH]; intros i ev.
  - by intros [= <-].
  - cbn [for_each].
    destruct (body i) as [ev1| |] eqn:H1; [|done..]. cbn [mbind Outcome_bind].
    destruct (for_each n _ body) as [ev2| |] eqn:H2; [|done..]. cbn [mbind Outcome_bind].
    intros [= <-]. apply Hbody in H1 as [Hc1 Hm1]. apply IH in H2 as [Hc2 Hm2].
    by rewrite created_app, messages_app, Hc1, Hc2, Hm1, Hm2.
Qed.

Lemma ReleaseResources_quiet m m' ev :
  ReleaseResources m = Returns (m', ev) → created ev = [] ∧ messages ev = [].
Proof.
  unfold ReleaseResources.
  destruct (for_each (N.to_nat (m_NumSubMeshes m)) _ _) as [ev2| |] eqn:H2;
    (destruct (for_each (N.to_nat (m_NumMaterials m)) _ _) as [ev1| |] eqn:H1);
    cbn [mbind Outcome_bind]; try done.
  intros [= <- <-].
  apply for_each_quiet in H1 as [Hc1 Hm1].
  2: { intros j ev. destruct (m_Materials m !! N.to_nat j) as [mat|]; [|done].
       cbn [defined mbind Outcome_bind]. apply for_each_quiet.
       intros k ev'. destruct (DX.textures mat !! N.to_nat k) as [[t|]|]; [| |done];
         by intros [= <-]. }
  apply for_each_quiet in H2 as [Hc2 Hm2].
  2: { intros j ev. destruct (m_SubMeshesDX m !! N.to_nat j) as [sub|]; [|done].
       cbn [defined mbind Outcome_bind]. intros [= <-].
       by destruct (DX.indexBuffer sub), (DX.vertexBuffer sub), (DX.vertexLayout sub). }
  by rewrite created_app, messages_app, Hc1, Hc2, Hm1, Hm2.
Qed.

Lemma bind_Permutation {A B : Type} (g g' : A → list B) (l : list A) :
  (∀ x, g x ≡ₚ g' x) → l ≫= g ≡ₚ l ≫= g'.
Proof.
  intros Hg. induction l as [|x l IH]; [done|].
  cbn [mbind list_bind]. cbn [mbind] in IH. by rewrite Hg, IH.
Qed.

End ReleaseFacts.

Section LoadFacts.
Context {float : Type} `{!FloatOps float, !MathDX float, !D3D11, !FloatBytes float}.
Implicit Types (m : CMesh float) (ev : list (MeshEvent float)).

(** *** The materials *)

(** The textures of a material that has been created: one for every
    texture of the material, and the ones that are set have been created. *)
Lemma load_textures_true (n : nat) (texture : N) (material : SMeshMaterial float)
    (textures textures' : list (option ShaderResourceView)) (dev dev' : Device) ev :
  load_textures n texture material textures dev = Returns (true, textures', dev', ev) →
  ∃ new, textures' = textures ++ new ∧ length new = n
         ∧ created ev = omap (fmap TextureObject) new
         ∧ released ev = [] ∧ messages ev = [].
Proof.
  revert texture textures dev ev; induction n as [|n IH]; intros texture textures dev ev.
  - intros [= <- <- <-]. exists []. by rewrite app_nil_r.
  - cbn [load_textures].
    destruct (textureFileNames material !! N.to_nat texture) as [name|]; [|done].
    cbn [defined mbind Outcome_bind].
    destruct (D3DX11CreateShaderResourceViewFromFile name dev) as [[hr t] dev1].
    destruct (FAILED hr); [done|].
    destruct (load_textures n _ _ _ _) as [[[[ok ts] dev2] ev2]| |] eqn:Hrest; [|done..].
    cbn [mbind Outcome_bind]. intros [= -> <- <- <-].
    apply IH in Hrest as (new & -> & Hlen & Hc & Hr & Hm).
    exists (t :: new). rewrite <- app_assoc. split_and!; [done|by cbn; f_equal| | |].
    + rewrite created_app, Hc. by destruct t.
    + rewrite released_app, Hr. by destruct t.
    + rewrite messages_app, Hm. by destruct t.
Qed.

Lemma CreateMaterialDX_true (material : SMeshMaterial float) (dev dev' : Device)
    (materialDX : DX.SMeshMaterialDX float) ev :
  CreateMaterialDX material dev = Returns (true, materialDX, dev', ev) →
  length (DX.textures materialDX) = N.to_nat (DX.numTextures materialDX)
  ∧ created ev = material_objects materialDX ∧ released ev = [] ∧ messages ev = [].
Proof.
  unfold CreateMaterialDX.
  destruct (load_textures _ _ _ _ _) as [[[[ok ts] dev1] ev1]| |] eqn:Hts; [|done..].
  cbn [mbind Outcome_bind]. intros [= -> <- <- <-].
  apply load_textures_true in Hts as (new & -> & Hlen & Hc & Hr & Hm).
  by split_and!.
Qed.

(** The loop over the materials, when it comes to its end. *)
Lemma load_materials_true (l : list (SMeshMaterial float)) m m' (dev dev' : Device) ev :
  load_materials l m dev = Returns (true, m', dev', ev) →
  (m_NumMaterials m < 2 ^ 32)%N →
  ∃ new, length new = length l
         ∧ m' = set_Materials (TUInt32 (m_NumMaterials m + N.of_nat (length l)))
                  (m_Materials m ++ new) m
         ∧ Forall (λ dx, length (DX.textures dx) = N.to_nat (DX.numTextures dx)) new
         ∧ created ev = new ≫= material_objects
         ∧ released ev = [] ∧ messages ev = [].
Proof.
  revert m dev ev; induction l as [|material l IH]; intros m dev ev.
  - intros [= <- <- <-] Hn. exists []. split_and!; try done.
    rewrite app_nil_r, N.add_0_r, TUInt32_small by done. by destruct m.
  - cbn [load_materials].
    destruct (CreateMaterialDX material dev) as [[[[ok dx] dev1] ev1]| |] eqn:Hdx; [|done..].
    cbn [mbind Outcome_bind]. destruct ok.
    + destruct (load_materials l _ dev1) as [[[[ok m2] dev2] ev2]| |] eqn:Hrest; [|done..].
      cbn [mbind Outcome_bind]. intros [= -> <- <- <-] Hn.
      apply IH in Hrest as (new & Hlen & -> & Hwf & Hc & Hr & Hm); [|apply N.mod_lt; done].
      apply CreateMaterialDX_true in Hdx as (Hwf1 & Hc1 & Hr1 & Hm1).
      exists (dx :: new). split_and!.
      * by cbn; f_equal.
      * cbn -[TUInt32 N.of_nat]. unfold set_Materials. cbn -[TUInt32 N.of_nat].
        rewrite <- app_assoc, TUInt32_add_l. do 2 f_equal. lia.
      * by constructor.
      * by rewrite created_app, Hc, Hc1.
      * by rewrite released_app, Hr, Hr1.
      * by rewrite messages_app, Hm, Hm1.
    + destruct (ReleaseResources _) as [[m2 ev2]| |]; [|done..]. done.
Qed.

(** The loop over the materials, when a material stops it. *)
Lemma load_materials_false (l : list (SMeshMaterial float)) m m' (dev dev' : Device) ev :
  load_materials l m dev = Returns (false, m', dev', ev) → m' = emptied m.
Proof.
  revert m dev ev; induction l as [|material l IH]; intros m dev ev; [done|].
  cbn [load_materials].
  destruct (CreateMaterialDX material dev) as [[[[ok dx] dev1] ev1]| |] eqn:Hdx; [|done..].
  cbn [mbind Outcome_bind]. destruct ok.
  - destruct (load_materials l _ dev1) as [[[[ok m2] dev2] ev2]| |] eqn:Hrest; [|done..].
    cbn [mbind Outcome_bind]. intros [= -> <- <- <-].
    by apply IH in Hrest as ->.
  - destruct (ReleaseResources _) as [[m2 ev2]| |] eqn:Hrel; [|done..].
    cbn [mbind Outcome_bind]. intros [= <- <- <-].
    by apply ReleaseResources_emptied in Hrel as ->.
Qed.

(** *** The sub-meshes *)

Lemma CreateSubMeshDX_true (subMesh : SSubMesh) (shaderCode : Technique) (dev dev' : Device)
    (subMeshDX : DX.SSubMeshDX) (ok : bool) ev :
  CreateSubMeshDX subMesh shaderCode dev = (ok, subMeshDX, dev', ev) →
  created ev = subMesh_objects subMeshDX ∧ released ev = [] ∧ messages ev = [].
Proof.
  unfold CreateSubMeshDX.
  destruct (vertex_elements subMesh) as [elts vertexSize].
  destruct (CreateInputLayout _ _ _) as [[hr0 layout] dev0].
  destruct (CreateBuffer _ _ _) as [[hr1 vertexBuffer] dev1].
  destruct (FAILED hr1).
  - intros [= <- <- <- <-]. by destruct layout, vertexBuffer.
  - destruct (CreateBuffer _ _ _) as [[hr2 indexBuffer] dev2].
    intros [= <- <- <- <-]. by destruct layout, vertexBuffer, indexBuffer.
Qed.

(** The loop over the sub-meshes, when it comes to its end. *)
Lemma load_subMeshes_true (l : list SSubMesh) (shaderCode : Technique) m m'
    (dev dev' : Device) ev :
  load_subMeshes l shaderCode m dev = Returns (true, m', dev', ev) →
  (m_NumSubMeshes m < 2 ^ 32)%N →
  ∃ new, length new = length l
         ∧ m' = set_SubMeshes (TUInt32 (m_NumSubMeshes m + N.of_nat (length l)))
                  (m_SubMeshes m ++ l) (m_SubMeshesDX m ++ new) m
         ∧ created ev = new ≫= subMesh_objects
         ∧ released ev = [] ∧ messages ev = [].
Proof.
  revert m dev ev; induction l as [|subMesh l IH]; intros m dev ev.
  - intros [= <- <- <-] Hn. exists []. split_and!; try done.
    rewrite !app_nil_r, N.add_0_r, TUInt32_small by done. by destruct m.
  - cbn [load_subMeshes].
    destruct (CreateSubMeshDX subMesh shaderCode dev) as [[[ok dx] dev1] ev1] eqn:Hdx.
    destruct ok.
    + destruct (load_subMeshes l _ _ dev1) as [[[[ok m2] dev2] ev2]| |] eqn:Hrest; [|done..].
      cbn [mbind Outcome_bind]. intros [= -> <- <- <-] Hn.
      apply IH in Hrest as (new & Hlen & -> & Hc & Hr & Hm); [|apply N.mod_lt; done].
      apply CreateSubMeshDX_true in Hdx as (Hc1 & Hr1 & Hm1).
      exists (dx :: new). split_and!.
      * by cbn; f_equal.
      * cbn -[TUInt32 N.of_nat]. unfold set_SubMeshes. cbn -[TUInt32 N.of_nat].
        rewrite <- !app_assoc, TUInt32_add_l. do 2 f_equal. lia.
      * by rewrite created_app, Hc, Hc1.
      * by rewrite released_app, Hr, Hr1.
      * by rewrite messages_app, Hm, Hm1.
    + destruct (ReleaseResources _) as [[m2 ev2]| |]; [|done..]. done.
Qed.

Lemma load_subMeshes_false (l : list SSubMesh) (shaderCode : Technique) m m'
    (dev dev' : Device) ev :
  load_subMeshes l shaderCode m dev = Returns (false, m', dev', ev) → m' = emptied m.
Proof.
  revert m dev ev; induction l as [|subMesh l IH]; intros m dev ev; [done|].
  cbn [load_subMeshes].
  destruct (CreateSubMeshDX subMesh shaderCode dev) as [[[ok dx] dev1] ev1] eqn:Hdx.
  destruct ok.
  - destruct (load_subMeshes l _ _ dev1) as [[[[ok m2] dev2] ev2]| |] eqn:Hrest; [|done..].
    cbn [mbind Outcome_bind]. intros [= -> <- <- <-].
    by apply IH in Hrest as ->.
  - destruct (ReleaseResources _) as [[m2 ev2]| |] eqn:Hrel; [|done..].
    cbn [mbind Outcome_bind]. intros [= <- <- <-].
    by apply ReleaseResources_emptied in Hrel as ->.
Qed.

End LoadFacts.

Section LoadOutcomes.
Context {float : Type} `{!FloatOps float, !MathDX float, !D3D11, !FloatBytes float}.
Implicit Types (m : CMesh float) (ev : list (MeshEvent float)).

(** What [Load] returns once the file is imported, with the loops left
    folded: [m0] is the mesh after the geometry it had is released, [m1] the
    mesh with the nodes and the materials, [m2] the mesh with the sub-meshes,
    [m3] the mesh with the bounds. *)
Lemma Load_Returns (importFile : CImportXFile float) (fileName : string)
    (shaderCode : Technique) (needTangents : bool) m m' (dev dev' : Device) (ok : bool) ev :
  Load importFile fileName shaderCode needTangents m dev = Returns (ok, m', dev', ev) →
  IsXFile importFile = true → ImportFile importFile = kSuccess →
  ∃ m0 ev0,
    (if m_HasGeometry m then ReleaseResources m else Returns (m, [])) = Returns (m0, ev0)
    ∧ ∃ ok1 m1 dev1 ev1,
        load_materials (GetMaterials importFile)
          (set_Materials 0 []
             (mkCMesh (m_HasGeometry m0)
                (TUInt32 (N.of_nat (length (GetNodes importFile)))) (GetNodes importFile)
                (m_NumSubMeshes m0) (m_SubMeshes m0) (m_SubMeshesDX m0)
                (m_NumMaterials m0) (m_Materials m0)
                (m_MinBounds m0) (m_MaxBounds m0) (m_BoundingRadius m0)
                (m_EnumTriMesh m0) (m_EnumTri m0) (m_EnumVertMesh m0) (m_EnumVert m0)))
          dev
        = Returns (ok1, m1, dev1, ev1)
        ∧ ((ok1 = false ∧ ok = false ∧ m' = m1 ∧ dev' = dev1 ∧ ev = ev0 ++ ev1)
           ∨ (ok1 = true
              ∧ ∃ ok2 m2 dev2 ev2,
                  load_subMeshes (GetSubMeshes importFile needTangents) shaderCode
                    (set_SubMeshes 0 [] [] m1) dev1
                  = Returns (ok2, m2, dev2, ev2)
                  ∧ dev' = dev2
                  ∧ ((ok2 = false ∧ ok = false ∧ m' = m2 ∧ ev = ev0 ++ ev1 ++ ev2)
                     ∨ (ok2 = true
                        ∧ ∃ ok3 m3, PreProcess m2 = Returns (ok3, m3)
                            ∧ ((ok3 = false ∧ ok = false
                                ∧ ∃ ev3, ReleaseResources m3 = Returns (m', ev3)
                                         ∧ ev = ev0 ++ ev1 ++ ev2 ++ ev3)
                               ∨ (ok3 = true ∧ ok = true
                                  ∧ m' = mkCMesh true (m_NumNodes m3) (m_Nodes m3)
                                           (m_NumSubMeshes m3) (m_SubMeshes m3)
                                           (m_SubMeshesDX m3)
                                           (m_NumMaterials m3) (m_Materials m3)
                                           (m_MinBounds m3) (m_MaxBounds m3)
                                           (m_BoundingRadius m3)
                                           (m_EnumTriMesh m3) (m_EnumTri m3)
                                           (m_EnumVertMesh m3) (m_EnumVert m3)
                                  ∧ ev = ev0 ++ ev1 ++ ev2)))))).
Proof.
  unfold Load. intros Hload HX Himp. rewrite HX, Himp in Hload. cbn [negb] in Hload.
  destruct (if m_HasGeometry m then _ else _) as [[m0 ev0]| |]; [|done..].
  cbn [mbind Outcome_bind] in Hload.
  exists m0, ev0. split; [done|].
  destruct (load_materials _ _ _) as [[[[ok1 m1] dev1] ev1]| |] eqn:H1 in Hload; [|done..].
  cbn [mbind Outcome_bind] in Hload.
  exists ok1, m1, dev1, ev1. split; [exact H1|].
  destruct ok1; cbn [negb] in Hload.
  2: { left. by injection Hload as <- <- <- <-. }
  right. split; [done|].
  destruct (load_subMeshes _ _ _ _) as [[[[ok2 m2] dev2] ev2]| |] eqn:H2 in Hload; [|done..].
  cbn [mbind Outcome_bind] in Hload.
  exists ok2, m2, dev2, ev2. split; [exact H2|].
  destruct ok2; cbn [negb] in Hload.
  2: { split; [by injection Hload|]. left. by injection Hload as <- <- <- <-. }
  destruct (PreProcess m2) as [[ok3 m3]| |] eqn:H3; [|done..].
  cbn [mbind Outcome_bind] in Hload.
  destruct ok3; cbn [negb] in Hload.
  - split; [by injection Hload|]. right. split; [done|]. exists true, m3. split; [done|].
    right. by injection Hload as <- <- <- <-.
  - destruct (ReleaseResources m3) as [[m4 ev4]| |] eqn:H4; [|done..].
    cbn [mbind Outcome_bind] in Hload.
    split; [by injection Hload|]. right. split; [done|]. exists false, m3. split; [done|].
    left. split_and!; [done|by injection Hload|].
    exists ev4. by injection Hload as <- <- <- <-.
Qed.

Lemma emptied_set_Materials (n : N) (l : list (DX.SMeshMaterialDX float)) m :
  emptied (set_Materials n l m) = emptied m.
Proof. done. Qed.

Lemma emptied_set_SubMeshes (n : N) (l : list SSubMesh) (dxs : list DX.SSubMeshDX) m :
  emptied (set_SubMeshes n l dxs m) = emptied m.
Proof. done. Qed.

Lemma emptied_emptied m : emptied (emptied m) = emptied m.
Proof. done. Qed.

(** The mesh from which [Load] starts anew: nothing is left in it. *)
Lemma Load_releases_first m m0 ev0 :
  (if m_HasGeometry m then ReleaseResources m else Returns (m, [])) = Returns (m0, ev0) →
  emptied m0 = emptied m.
Proof.
  destruct (m_HasGeometry m).
  - by intros ->%ReleaseResources_emptied.
  - by intros [= <- <-].
Qed.

End LoadOutcomes.

Section HeldFacts.
Context {float : Type} `{!FloatOps float, !MathDX float, !D3D11, !FloatBytes float}.
Implicit Types (m : CMesh float) (ev : list (MeshEvent float)).

(** [ReleaseResources] releases what the mesh holds, when the arrays of the
    mesh are at least as long as its counts say, and the counted materials
    have their textures. *)
Lemma ReleaseResources_held m :
  (N.to_nat (m_NumMaterials m) ≤ length (m_Materials m))%nat →
  Forall (λ dx, length (DX.textures dx) = N.to_nat (DX.numTextures dx))
    (take (N.to_nat (m_NumMaterials m)) (m_Materials m)) →
  (N.to_nat (m_NumSubMeshes m) ≤ length (m_SubMeshesDX m))%nat →
  ∃ ev, ReleaseResources m = Returns (emptied m, ev)
        ∧ released ev ≡ₚ held m ∧ created ev = [] ∧ messages ev = [].
Proof.
  intros Hnm Hwf Hns.
  destruct (ReleaseResources_releases m) as (ev & Hev & Hr & Hc & Hm); [done| |done|].
  { eapply Forall_impl; [exact Hwf|]. cbn. by intros dx ->. }
  exists ev. split_and!; [done| |done|done].
  rewrite Hr. unfold held. f_equiv.
  - apply eq_subrelation; [apply _|].
    apply bind_ext_Forall. eapply Forall_impl; [exact Hwf|]. cbn.
    intros dx <-. by rewrite firstn_all.
  - apply bind_Permutation. intros dx. unfold subMesh_objects.
    destruct (DX.indexBuffer dx), (DX.vertexBuffer dx), (DX.vertexLayout dx); cbn;
      try done.
    all: try (by apply Permutation_swap).
    all: try (by apply perm_skip, Permutation_swap).
    all: try (by etrans; [apply Permutation_swap|apply perm_skip, Permutation_swap]).
    etrans; [apply perm_skip, Permutation_swap|].
    etrans; [apply Permutation_swap|]. apply perm_skip, Permutation_swap.
Qed.

Lemma load_textures_released (n : nat) (texture : N) (material : SMeshMaterial float)
    (textures textures' : list (option ShaderResourceView)) (dev dev' : Device)
    (ok : bool) ev :
  load_textures n texture material textures dev = Returns (ok, textures', dev', ev) →
  released ev = [].
Proof.
  revert texture textures dev ev; induction n as [|n IH]; intros texture textures dev ev.
  - by intros [= <- <- <- <-].
  - cbn [load_textures].
    destruct (textureFileNames material !! N.to_nat texture) as [name|]; [|done].
    cbn [defined mbind Outcome_bind].
    destruct (D3DX11CreateShaderResourceViewFromFile name dev) as [[hr t] dev1].
    destruct (FAILED hr); [intros [= <- <- <- <-]; by destruct t|].
    destruct (load_textures n _ _ _ _) as [[[[ok' ts] dev2] ev2]| |] eqn:Hrest; [|done..].
    cbn [mbind Outcome_bind]. intros [= <- <- <- <-].
    apply IH in Hrest. rewrite released_app, Hrest. by destruct t.
Qed.

Lemma CreateMaterialDX_released (material : SMeshMaterial float) (dev dev' : Device)
    (materialDX : DX.SMeshMaterialDX float) (ok : bool) ev :
  CreateMaterialDX material dev = Returns (ok, materialDX, dev', ev) → released ev = [].
Proof.
  unfold CreateMaterialDX.
  destruct (load_textures _ _ _ _ _) as [[[[ok' ts] dev1] ev1]| |] eqn:Hts; [|done..].
  cbn [mbind Outcome_bind]. intros [= <- <- <- <-].
  by apply load_textures_released in Hts.
Qed.

Lemma held_set_Materials_snoc (dx : DX.SMeshMaterialDX float) m :
  N.to_nat (m_NumMaterials m) = length (m_Materials m) →
  (m_NumMaterials m + 1 < 2 ^ 32)%N →
  held (set_Materials (TUInt32 (m_NumMaterials m + 1)) (m_Materials m ++ [dx]) m)
  ≡ₚ held m ++ material_objects dx
  ∧ held (set_Materials (m_NumMaterials m) (m_Materials m ++ [dx]) m) = held m.
Proof.
  intros Hn Hlt. unfold held, set_Materials. cbn -[TUInt32].
  rewrite TUInt32_small by done.
  replace (N.to_nat (m_NumMaterials m + 1)) with (length (m_Materials m ++ [dx]))
    by (rewrite length_app; cbn; lia).
  rewrite firstn_all, Hn, take_app_length, firstn_all, bind_app.
  split; [|done]. cbn [mbind list_bind]. rewrite app_nil_r.
  rewrite <- !app_assoc. f_equiv. apply Permutation_app_comm.
Qed.

Lemma held_set_SubMeshes_snoc (l : list SSubMesh) (sub : SSubMesh) (dx : DX.SSubMeshDX) m :
  N.to_nat (m_NumSubMeshes m) = length (m_SubMeshesDX m) →
  (m_NumSubMeshes m + 1 < 2 ^ 32)%N →
  held (set_SubMeshes (TUInt32 (m_NumSubMeshes m + 1)) l (m_SubMeshesDX m ++ [dx]) m)
  = held m ++ subMesh_objects dx
  ∧ held (set_SubMeshes (m_NumSubMeshes m) l (m_SubMeshesDX m ++ [dx]) m) = held m.
Proof.
  intros Hn Hlt. unfold held, set_SubMeshes. cbn -[TUInt32 subMesh_objects].
  rewrite TUInt32_small by done.
  replace (N.to_nat (m_NumSubMeshes m + 1)) with (length (m_SubMeshesDX m ++ [dx]))
    by (rewrite length_app; cbn; lia).
  rewrite firstn_all, Hn, take_app_length, firstn_all, bind_app.
  split; [|done]. cbn [mbind list_bind]. by rewrite app_nil_r, <- !app_assoc.
Qed.

(** The loop over the materials, when a material stops it: what the mesh
    held and what the loop created is what has been released, and what the
    last call of [CreateMaterialDX] created. *)
Lemma load_materials_false_held (l : list (SMeshMaterial float)) m m' (dev dev' : Device) ev :
  load_materials l m dev = Returns (false, m', dev', ev) →
  counted m →
  (m_NumMaterials m + N.of_nat (length l) < 2 ^ 32)%N →
  ∃ (k : nat) material dev_k dx dev_k' ev_k,
    l !! k = Some material
    ∧ CreateMaterialDX material dev_k = Returns (false, dx, dev_k', ev_k)
    ∧ held m ++ created ev ≡ₚ released ev ++ created ev_k.
Proof.
  revert m dev ev; induction l as [|material l IH]; intros m dev ev; [done|].
  cbn [load_materials]. intros Hload (Hnm & Hwf & Hns) Hlt.
  destruct (CreateMaterialDX material dev) as [[[[ok dx] dev1] ev1]| |] eqn:Hdx; [|done..].
  cbn [mbind Outcome_bind] in Hload.
  pose proof (CreateMaterialDX_released _ _ _ _ _ _ Hdx) as Hr1.
  assert (m_NumMaterials m + 1 < 2 ^ 32)%N as Hlt1 by (cbn [length] in Hlt; lia).
  destruct (held_set_Materials_snoc dx m Hnm Hlt1) as [Hheld Hheld'].
  destruct ok.
  - destruct (load_materials l _ dev1) as [[[[ok m2] dev2] ev2]| |] eqn:Hrest; [|done..].
    cbn [mbind Outcome_bind] in Hload. injection Hload as -> <- <- <-.
    apply CreateMaterialDX_true in Hdx as (Hwf1 & Hc1 & _).
    apply IH in Hrest as (k & mat & dev_k & dx_k & dev_k' & ev_k & Hk & Hfail & Hbal).
    + exists (S k), mat, dev_k, dx_k, dev_k', ev_k. split_and!; [done|done|].
      rewrite created_app, released_app, Hr1, Hc1. cbn [app].
      rewrite <- Hbal. fold (set_Materials (TUInt32 (m_NumMaterials m + 1))
                               (m_Materials m ++ [dx]) m).
      by rewrite Hheld, <- !app_assoc.
    + split_and!; cbn -[TUInt32].
      * rewrite TUInt32_small, length_app by done. cbn. lia.
      * apply Forall_app. split; [done|]. by constructor.
      * done.
    + cbn -[TUInt32]. rewrite TUInt32_small by done. cbn [length] in Hlt. lia.
  - destruct (ReleaseResources _) as [[m2 ev2]| |] eqn:Hrel; [|done..].
    cbn [mbind Outcome_bind] in Hload. injection Hload as <- <- <-.
    edestruct (ReleaseResources_held) as (ev2' & Hrel' & Hr2 & Hc2 & _);
      [| | |rewrite Hrel' in Hrel; injection Hrel as _ ->].
    + cbn. rewrite length_app. lia.
    + cbn. rewrite Hnm, take_app_length. done.
    + cbn. lia.
    + exists 0%nat, material, dev, dx, dev1, ev1. split_and!; [done|done|].
      rewrite created_app, released_app, Hr1, Hc2, Hr2, app_nil_r. cbn [app].
      fold (set_Materials (m_NumMaterials m) (m_Materials m ++ [dx]) m).
      by rewrite Hheld'.
Qed.

(** The same for the loop over the sub-meshes. *)
Lemma load_subMeshes_false_held (l : list SSubMesh) (shaderCode : Technique) m m'
    (dev dev' : Device) ev :
  load_subMeshes l shaderCode m dev = Returns (false, m', dev', ev) →
  counted m →
  (m_NumSubMeshes m + N.of_nat (length l) < 2 ^ 32)%N →
  ∃ (k : nat) subMesh dev_k dx dev_k' ev_k,
    l !! k = Some subMesh
    ∧ CreateSubMeshDX subMesh shaderCode dev_k = (false, dx, dev_k', ev_k)
    ∧ held m ++ created ev ≡ₚ released ev ++ created ev_k.
Proof.
  revert m dev ev; induction l as [|subMesh l IH]; intros m dev ev; [done|].
  cbn [load_subMeshes]. intros Hload (Hnm & Hwf & Hns) Hlt.
  destruct (CreateSubMeshDX subMesh shaderCode dev) as [[[ok dx] dev1] ev1] eqn:Hdx.
  pose proof (CreateSubMeshDX_true _ _ _ _ _ _ _ Hdx) as (Hc1 & Hr1 & _).
  assert (m_NumSubMeshes m + 1 < 2 ^ 32)%N as Hlt1 by (cbn [length] in Hlt; lia).
  destruct (held_set_SubMeshes_snoc (m_SubMeshes m ++ [subMesh]) subMesh dx m Hns Hlt1)
    as [Hheld Hheld'].
  destruct ok.
  - destruct (load_subMeshes l _ _ dev1) as [[[[ok m2] dev2] ev2]| |] eqn:Hrest; [|done..].
    cbn [mbind Outcome_bind] in Hload. injection Hload as -> <- <- <-.
    apply IH in Hrest as (k & sub & dev_k & dx_k & dev_k' & ev_k & Hk & Hfail & Hbal).
    + exists (S k), sub, dev_k, dx_k, dev_k', ev_k. split_and!; [done|done|].
      rewrite created_app, released_app, Hr1, Hc1. cbn [app].
      rewrite <- Hbal. fold (set_SubMeshes (TUInt32 (m_NumSubMeshes m + 1))
                               (m_SubMeshes m ++ [subMesh]) (m_SubMeshesDX m ++ [dx]) m).
      by rewrite Hheld, <- !app_assoc.
    + split_and!; cbn -[TUInt32]; [done|done|].
      rewrite TUInt32_small, length_app by done. cbn. lia.
    + cbn -[TUInt32]. rewrite TUInt32_small by done. cbn [length] in Hlt. lia.
  - destruct (ReleaseResources _) as [[m2 ev2]| |] eqn:Hrel; [|done..].
    cbn [mbind Outcome_bind] in Hload. injection Hload as <- <- <-.
    edestruct (ReleaseResources_held) as (ev2' & Hrel' & Hr2 & Hc2 & _);
      [| | |rewrite Hrel' in Hrel; injection Hrel as _ ->].
    + cbn. lia.
    + cbn. by apply Forall_take.
    + cbn. rewrite length_app. lia.
    + exists 0%nat, subMesh, dev, dx, dev1, ev1. split_and!; [done|done|].
      rewrite created_app, released_app, Hr1, Hc2, Hr2, app_nil_r. cbn [app].
      fold (set_SubMeshes (m_NumSubMeshes m) (m_SubMeshes m ++ [subMesh])
              (m_SubMeshesDX m ++ [dx]) m).
      by rewrite Hheld'.
Qed.

End HeldFacts.

(** X18. A [Load] that fails before the file is imported, because the file
    is no X-file or cannot be imported, leaves the mesh and the device as
    they were, creates and releases nothing, and shows one message box when
    the import reports a file error, none otherwise.  A [Load] that fails
    after the file is imported leaves the mesh without geometry, nodes,
    materials and sub-meshes, whatever the mesh held before. *)
Theorem Load_fails_before_or_empties_mesh
    {float : Type} `{!FloatOps float, !MathDX float, !D3D11, !FloatBytes float}
    (importFile : CImportXFile float) (fileName : string) (shaderCode : Technique)
    (needTangents : bool) (m m' : CMesh float) (dev dev' : Device)
    (ev : list (MeshEvent float)) :
  Load importFile fileName shaderCode needTangents m dev = Returns (false, m', dev', ev) →
  (IsXFile importFile = false ∨ ImportFile importFile ≠ kSuccess →
   m' = m ∧ dev' = dev ∧ created ev = [] ∧ released ev = []
   ∧ messages ev
     = if IsXFile importFile
       then match ImportFile importFile with
            | kFileError => ["Error loading mesh " +:+ fileName]
            | _ => []
            end
       else [])
  ∧ (IsXFile importFile = true → ImportFile importFile = kSuccess →
     m' = set_Bounds (m_MinBounds m') (m_MaxBounds m') (m_BoundingRadius m') (emptied m)).
Proof.
  intros Hload. split.
  - unfold Load in Hload. intros Hnot.
    destruct (IsXFile importFile); cbn [negb] in Hload.
    + destruct (ImportFile importFile); [by destruct Hnot| |];
        by injection Hload as <- <- <-.
    + by injection Hload as <- <- <-.
  - intros HX Himp.
    destruct (Load_Returns _ _ _ _ _ _ _ _ _ _ Hload HX Himp)
      as (m0 & ev0 & H0 & ok1 & m1 & dev1 & ev1 & H1 & Hcases).
    apply Load_releases_first in H0.
    destruct Hcases as [(-> & _ & -> & _)|(-> & ok2 & m2 & dev2 & ev2 & H2 & _ & Hcases)].
    { apply load_materials_false in H1 as ->.
      unfold emptied in H0. injection H0 as -> -> -> -> -> -> ->. reflexivity. }
    apply load_materials_true in H1 as (new & _ & -> & _); [|done].
    destruct Hcases as [(-> & _ & -> & _)|(-> & ok3 & m3 & H3 & Hcases)].
    { apply load_subMeshes_false in H2 as ->.
      unfold emptied in H0. injection H0 as -> -> -> -> -> -> ->. reflexivity. }
    apply load_subMeshes_true in H2 as (new' & _ & -> & _); [|done].
    destruct Hcases
      as [(-> & _ & ev3 & ->%ReleaseResources_emptied & _)|(_ & [=] & _)].
    apply PreProcess_shape in H3. rewrite H3. clear H3.
    unfold emptied in H0. injection H0 as -> -> -> -> -> -> ->. reflexivity.
Qed.

(** The square is replaced by the content of a file that holds nothing: the
    mesh is left empty, and the two buffers and the layout of the square
    are released. *)
Lemma Load_fails_before_or_empties_mesh_witness :
  ∃ m' ev,
    Load hollow_file "hollow.x" (1%N : @Technique standin_d3d11) false
      square_mesh (tt : @Device standin_d3d11)
    = Returns (false, m', tt, ev)
    ∧ m' = set_Bounds (m_MinBounds m') (m_MaxBounds m') (m_BoundingRadius m')
             (emptied square_mesh)
    ∧ released ev = [@BufferObject standin_d3d11 12%N; @BufferObject standin_d3d11 48%N;
                     @LayoutObject standin_d3d11 1%nat].
Proof.
  assert (Load hollow_file "hollow.x" (1%N : @Technique standin_d3d11) false
            square_mesh (tt : @Device standin_d3d11)
          = square_hollowed) as Hload
    by exact_no_check (eq_refl square_hollowed).
  unfold square_hollowed in Hload.
  do 2 eexists. split; [exact Hload|]. split; [|reflexivity].
  exact (proj2 (Load_fails_before_or_empties_mesh _ _ _ _ _ _ _ _ _ Hload)
           eq_refl eq_refl).
Defined.

(** X19. A [Load] that succeeds has been given an X-file that was imported.
    The mesh has geometry; its nodes and its sub-meshes are those of the
    file, in the order of the file, with one DirectX sub-mesh for each
    sub-mesh and one DirectX material for each material; the counts are the
    numbers of the file as 32-bit numbers.  There is at least one sub-mesh
    and no sub-mesh is without vertices.  The enumerations are where they
    were. *)
Theorem Load_succeeds_with_the_geometry_of_the_file
    {float : Type} `{!FloatOps float, !MathDX float, !D3D11, !FloatBytes float}
    (importFile : CImportXFile float) (fileName : string) (shaderCode : Technique)
    (needTangents : bool) (m m' : CMesh float) (dev dev' : Device)
    (ev : list (MeshEvent float)) :
  Load importFile fileName shaderCode needTangents m dev = Returns (true, m', dev', ev) →
  IsXFile importFile = true ∧ ImportFile importFile = kSuccess
  ∧ m_HasGeometry m' = true
  ∧ m_Nodes m' = GetNodes importFile
  ∧ m_NumNodes m' = TUInt32 (N.of_nat (length (GetNodes importFile)))
  ∧ m_SubMeshes m' = GetSubMeshes importFile needTangents
  ∧ m_NumSubMeshes m' = TUInt32 (N.of_nat (length (GetSubMeshes importFile needTangents)))
  ∧ length (m_SubMeshesDX m') = length (GetSubMeshes importFile needTangents)
  ∧ m_NumMaterials m' = TUInt32 (N.of_nat (length (GetMaterials importFile)))
  ∧ length (m_Materials m') = length (GetMaterials importFile)
  ∧ m_NumSubMeshes m' ≠ 0%N
  ∧ (∀ (i : nat) sub, i < N.to_nat (m_NumSubMeshes m') →
       m_SubMeshes m' !! i = Some sub → numVertices sub ≠ 0%N)
  ∧ (m_EnumTriMesh m', m_EnumTri m', m_EnumVertMesh m', m_EnumVert m')
    = (m_EnumTriMesh m, m_EnumTri m, m_EnumVertMesh m, m_EnumVert m).
Proof.
  intros Hload.
  assert (IsXFile importFile = true ∧ ImportFile importFile = kSuccess) as [HX Himp].
  { unfold Load in Hload. destruct (IsXFile importFile); [|done].
    by destruct (ImportFile importFile). }
  do 2 (split; [done|]).
  destruct (Load_Returns _ _ _ _ _ _ _ _ _ _ Hload HX Himp)
    as (m0 & ev0 & H0 & ok1 & m1 & dev1 & ev1 & H1
        & [(_ & [=] & _)|(-> & ok2 & m2 & dev2 & ev2 & H2 & _
                         & [(_ & [=] & _)|(-> & ok3 & m3 & H3
                                          & [(_ & [=] & _)|(-> & _ & -> & _)])])]).
  apply Load_releases_first in H0.
  apply load_materials_true in H1 as (new & Hnew & -> & _); [|done].
  apply load_subMeshes_true in H2 as (new' & Hnew' & -> & _); [|done].
  pose proof (PreProcess_shape _ _ _ H3) as Hm3.
  apply PreProcess_Returns in H3
    as [(_ & [=] & _)|[(? & _ & _ & _ & [=] & _)
                      |(sub0 & first & lo & hi & radius & Hne & _ & _ & _ & Hloop & _)]].
  rewrite Hm3 in *. clear Hm3. cbn -[TUInt32 N.of_nat] in *.
  rewrite !N.add_0_l in *.
  split_and!; try done.
  - intros i sub Hi Hsub.
    destruct (bound_subMeshes_accepts _ _ _ _ _ Hloop i Hi) as (sub' & Hsub' & Hne').
    change (N.to_nat 0 + i)%nat with i in Hsub'. cbn in Hsub'. congruence.
  - unfold emptied in H0. congruence.
Qed.

(** The square is loaded again from its file. *)
Lemma Load_succeeds_with_the_geometry_of_the_file_witness :
  ∃ m' ev,
    Load square_file "square.x" (1%N : @Technique standin_d3d11) false
      square_mesh (tt : @Device standin_d3d11)
    = Returns (true, m', tt, ev)
    ∧ m_HasGeometry m' = true
    ∧ m_SubMeshes m' = [square]
    ∧ m_NumSubMeshes m' = 1%N.
Proof.
  assert (Load square_file "square.x" (1%N : @Technique standin_d3d11) false
            square_mesh (tt : @Device standin_d3d11)
          = square_reloaded) as Hload
    by exact_no_check (eq_refl square_reloaded).
  unfold square_reloaded in Hload.
  do 2 eexists. split; [exact Hload|].
  destruct (Load_succeeds_with_the_geometry_of_the_file _ _ _ _ _ _ _ _ _ Hload)
    as (_ & _ & Hg & _ & _ & Hs & Hn & _).
  split_and!; [exact Hg|exact Hs|exact Hn].
Defined.

(** X20. A mesh that [Load] has loaded gives back, in [ReleaseResources],
    the objects that [Load] created for it, each of them once, and no other
    object: the textures of its materials, and the layout and the two
    buffers of each of its sub-meshes.  [ReleaseResources] returns, creates
    nothing, and leaves the mesh without geometry. *)
Theorem ReleaseResources_releases_what_Load_created
    {float : Type} `{!FloatOps float, !MathDX float, !D3D11, !FloatBytes float}
    (importFile : CImportXFile float) (fileName : string) (shaderCode : Technique)
    (needTangents : bool) (m m' : CMesh float) (dev dev' : Device)
    (ev : list (MeshEvent float)) :
  Load importFile fileName shaderCode needTangents m dev = Returns (true, m', dev', ev) →
  (N.of_nat (length (GetMaterials importFile)) < 2 ^ 32)%N →
  (N.of_nat (length (GetSubMeshes importFile needTangents)) < 2 ^ 32)%N →
  ∃ ev', ReleaseResources m' = Returns (emptied m', ev')
         ∧ released ev' ≡ₚ created ev
         ∧ created ev' = [].
Proof.
  intros Hload Hmat Hsub.
  assert (IsXFile importFile = true ∧ ImportFile importFile = kSuccess) as [HX Himp].
  { unfold Load in Hload. destruct (IsXFile importFile); [|done].
    by destruct (ImportFile importFile). }
  destruct (Load_Returns _ _ _ _ _ _ _ _ _ _ Hload HX Himp)
    as (m0 & ev0 & H0 & ok1 & m1 & dev1 & ev1 & H1
        & [(_ & [=] & _)|(-> & ok2 & m2 & dev2 & ev2 & H2 & _
                         & [(_ & [=] & _)|(-> & ok3 & m3 & H3
                                          & [(_ & [=] & _)|(-> & _ & -> & ->)])])]).
  assert (created ev0 = []) as Hc0.
  { revert H0. destruct (m_HasGeometry m); [by intros [? _]%ReleaseResources_quiet|].
    by intros [= <- <-]. }
  apply load_materials_true in H1 as (new & Hnew & -> & Hwf & Hc1 & _); [|done].
  apply load_subMeshes_true in H2 as (new' & Hnew' & -> & Hc2 & _); [|done].
  apply PreProcess_shape in H3. rewrite H3. clear H3.
  cbn -[TUInt32 N.of_nat]. rewrite !N.add_0_l.
  edestruct (ReleaseResources_releases) as (ev' & -> & Hr & Hc & _);
    [| | |exists ev'; split; [reflexivity|split; [|exact Hc]]].
  - cbn -[TUInt32 N.of_nat]. rewrite TUInt32_small by done. lia.
  - cbn -[TUInt32 N.of_nat]. apply Forall_take.
    eapply Forall_impl; [exact Hwf|]. cbn. intros dx ->. done.
  - cbn -[TUInt32 N.of_nat]. rewrite TUInt32_small by done. lia.
  - rewrite Hr. cbn -[TUInt32 N.of_nat].
    rewrite !TUInt32_small, !Nat2N.id, <- Hnew, <- Hnew', !firstn_all by done.
    rewrite !created_app, Hc0, Hc1, Hc2. cbn [app].
    f_equiv.
    + apply eq_subrelation; [apply _|].
      apply bind_ext_Forall. eapply Forall_impl; [exact Hwf|]. cbn.
      intros dx <-. by rewrite firstn_all.
    + apply bind_Permutation. intros dx. unfold subMesh_objects.
      destruct (DX.indexBuffer dx), (DX.vertexBuffer dx), (DX.vertexLayout dx); cbn;
        try done; eauto using Permutation.
      all: try (by apply Permutation_swap).
      all: try (by apply perm_skip, Permutation_swap).
      all: try (by etrans; [apply Permutation_swap|apply perm_skip, Permutation_swap]).
Qed.

(** The square is loaded again from its file, and released: the texture,
    the layout and the two buffers that were created are released. *)
Lemma ReleaseResources_releases_what_Load_created_witness :
  ∃ m' ev ev',
    Load square_file "square.x" (1%N : @Technique standin_d3d11) false
      square_mesh (tt : @Device standin_d3d11)
    = Returns (true, m', tt, ev)
    ∧ created ev = [@TextureObject standin_d3d11 "square.jpg";
                    @LayoutObject standin_d3d11 1%nat;
                    @BufferObject standin_d3d11 48%N;
                    @BufferObject standin_d3d11 12%N]
    ∧ ReleaseResources m' = Returns (emptied m', ev')
    ∧ released ev' ≡ₚ created ev.
Proof.
  assert (Load square_file "square.x" (1%N : @Technique standin_d3d11) false
            square_mesh (tt : @Device standin_d3d11)
          = square_reloaded) as Hload
    by exact_no_check (eq_refl square_reloaded).
  unfold square_reloaded in Hload.
  do 2 eexists.
  destruct (ReleaseResources_releases_what_Load_created _ _ _ _ _ _ _ _ _ Hload
              eq_refl eq_refl)
    as (ev' & Hev' & Hperm & _).
  exists ev'. split_and!; [exact Hload|reflexivity|exact Hev'|exact Hperm].
Defined.

Section LeakFacts.
Context {float : Type} `{!FloatOps float, !MathDX float, !D3D11, !FloatBytes float}.
Implicit Types (m : CMesh float) (ev : list (MeshEvent float)).

(** A mesh that [PreProcess] rejects has no sub-mesh, or a sub-mesh
    without vertices. *)
Lemma PreProcess_rejects m m' :
  PreProcess m = Returns (false, m') →
  m_NumSubMeshes m = 0%N
  ∨ ∃ (k : nat) sub, m_SubMeshes m !! k = Some sub ∧ numVertices sub = 0%N.
Proof.
  intros [(Hz & _)|[(sub & _ & Hsub & Hz & _)
                   |(? & ? & ? & ? & ? & _ & _ & _ & _ & Hloop & _)]]%PreProcess_Returns.
  - by left.
  - right. by exists 0%nat, sub.
  - right. apply bound_subMeshes_false in Hloop as (k & sub & _ & Hsub & Hz).
    by exists k, sub.
Qed.

End LeakFacts.

(** X21. When [Load] fails after the file is imported, into a mesh that
    holds nothing, the objects that it created are those that it released
    and those that the failing call created: the textures that
    [CreateMaterialDX] had created for the material at which it failed, or
    the layout and the buffer that [CreateSubMeshDX] had created for the
    sub-mesh at which it failed.  These are not released.  Nothing is left
    when it is [PreProcess] that rejects the mesh, for want of a sub-mesh or
    for a sub-mesh without vertices. *)
Theorem Load_keeps_what_the_failing_call_created
    {float : Type} `{!FloatOps float, !MathDX float, !D3D11, !FloatBytes float}
    (importFile : CImportXFile float) (fileName : string) (shaderCode : Technique)
    (needTangents : bool) (m m' : CMesh float) (dev dev' : Device)
    (ev : list (MeshEvent float)) :
  Load importFile fileName shaderCode needTangents m dev = Returns (false, m', dev', ev) →
  IsXFile importFile = true →
  ImportFile importFile = kSuccess →
  m = emptied m →
  (N.of_nat (length (GetMaterials importFile)) < 2 ^ 32)%N →
  (N.of_nat (length (GetSubMeshes importFile needTangents)) < 2 ^ 32)%N →
  ∃ kept, created ev ≡ₚ released ev ++ kept
    ∧ ((∃ (k : nat) material dev_k materialDX dev_k' ev_k,
          GetMaterials importFile !! k = Some material
          ∧ CreateMaterialDX material dev_k = Returns (false, materialDX, dev_k', ev_k)
          ∧ kept = created ev_k)
       ∨ (∃ (k : nat) subMesh dev_k subMeshDX dev_k' ev_k,
            GetSubMeshes importFile needTangents !! k = Some subMesh
            ∧ CreateSubMeshDX subMesh shaderCode dev_k = (false, subMeshDX, dev_k', ev_k)
            ∧ kept = created ev_k)
       ∨ (kept = []
          ∧ (GetSubMeshes importFile needTangents = []
             ∨ ∃ (k : nat) sub, GetSubMeshes importFile needTangents !! k = Some sub
                                ∧ numVertices sub = 0%N))).
Proof.
  intros Hload HX Himp Hm Hmat Hsub.
  destruct (Load_Returns _ _ _ _ _ _ _ _ _ _ Hload HX Himp)
    as (m0 & ev0 & H0 & ok1 & m1 & dev1 & ev1 & H1 & Hcases).
  assert (m_HasGeometry m = false ∧ m_NumSubMeshes m = 0%N ∧ m_SubMeshesDX m = [])
    as (Hg & Hns & Hdx) by (by rewrite Hm).
  rewrite Hg in H0. injection H0 as <- <-.
  destruct Hcases as [(-> & _ & -> & _ & ->)|(-> & ok2 & m2 & dev2 & ev2 & H2 & _ & Hcases)].
  { apply load_materials_false_held in H1
      as (k & mat & dev_k & dx & dev_k' & ev_k & Hk & Hfail & Hbal).
    - exists (created ev_k). split; [|left; by exists k, mat, dev_k, dx, dev_k', ev_k].
      revert Hbal. unfold held. cbn. by rewrite Hns.
    - split_and!; cbn; [done|done|]. by rewrite Hns, Hdx.
    - done. }
  apply load_materials_true in H1 as (new & Hnew & -> & Hwf & Hc1 & Hr1 & _); [|done].
  match type of H2 with
  | load_subMeshes _ _ ?m2 _ = _ => assert (held m2 = created ev1) as Hheld
  end.
  { unfold held. cbn -[TUInt32 N.of_nat].
    rewrite N.add_0_l, TUInt32_small, Nat2N.id, <- Hnew, firstn_all, app_nil_r by done.
    by rewrite Hc1. }
  destruct Hcases as [(-> & _ & -> & ->)|(-> & ok3 & m3 & H3 & Hcases)].
  { apply load_subMeshes_false_held in H2
      as (k & sub & dev_k & dx & dev_k' & ev_k & Hk & Hfail & Hbal).
    - exists (created ev_k).
      split; [|right; left; by exists k, sub, dev_k, dx, dev_k', ev_k].
      rewrite Hheld in Hbal. cbn [app].
      by rewrite !created_app, !released_app, Hr1.
    - split_and!; cbn -[TUInt32 N.of_nat]; [|done|done].
      rewrite N.add_0_l, TUInt32_small, Nat2N.id by done. done.
    - done. }
  apply load_subMeshes_true in H2 as (new' & Hnew' & -> & Hc2 & Hr2 & _); [|done].
  destruct Hcases as [(-> & _ & ev3 & H4 & ->)|(_ & [=] & _)].
  pose proof (PreProcess_shape _ _ _ H3) as Hm3.
  exists []. split.
  - edestruct (ReleaseResources_held m3) as (ev3' & H4' & Hr3 & Hc3 & _);
      [| | |rewrite H4' in H4; injection H4 as _ ->].
    + rewrite Hm3. cbn -[TUInt32 N.of_nat].
      rewrite N.add_0_l, TUInt32_small, Nat2N.id by done. lia.
    + rewrite Hm3. cbn -[TUInt32 N.of_nat]. by apply Forall_take.
    + rewrite Hm3. cbn -[TUInt32 N.of_nat].
      rewrite N.add_0_l, TUInt32_small, Nat2N.id by done. lia.
    + cbn [app]. rewrite !created_app, !released_app, Hr1, Hr2, Hc3, Hr3, !app_nil_r.
      cbn [app]. rewrite Hm3. unfold held. cbn -[TUInt32 N.of_nat].
      rewrite !N.add_0_l, !TUInt32_small, !Nat2N.id, <- Hnew, <- Hnew', !firstn_all by done.
      by rewrite Hc1, Hc2.
  - right; right. split; [done|].
    apply PreProcess_rejects in H3 as [Hz|(k & sub & Hk & Hz)].
    + left. cbn -[TUInt32 N.of_nat] in Hz.
      rewrite N.add_0_l, TUInt32_small in Hz by done.
      destruct (GetSubMeshes importFile needTangents); [done|]. cbn in Hz. lia.
    + right. by exists k, sub.
Qed.

(** The square is loaded on a device that creates no index buffer: the
    texture is released, the layout and the vertex buffer are not. *)
Lemma Load_keeps_what_the_failing_call_created_witness :
  ∃ m' ev,
    Load square_file "square.x" (1%N : @Technique standin_d3d11_without_index_buffers)
      false blank_mesh (tt : @Device standin_d3d11_without_index_buffers)
    = Returns (false, m', tt, ev)
    ∧ created ev = [@TextureObject standin_d3d11_without_index_buffers "square.jpg";
                    @LayoutObject standin_d3d11_without_index_buffers 1%nat;
                    @BufferObject standin_d3d11_without_index_buffers 48%N]
    ∧ released ev = [@TextureObject standin_d3d11_without_index_buffers "square.jpg"]
    ∧ ∃ kept, created ev ≡ₚ released ev ++ kept.
Proof.
  assert (Load square_file "square.x"
            (1%N : @Technique standin_d3d11_without_index_buffers)
            false blank_mesh (tt : @Device standin_d3d11_without_index_buffers)
          = square_without_index_buffer) as Hload
    by exact_no_check (eq_refl square_without_index_buffer).
  unfold square_without_index_buffer in Hload.
  do 2 eexists. split_and!; [exact Hload|reflexivity|reflexivity|].
  destruct (Load_keeps_what_the_failing_call_created _ _ _ _ _ _ _ _ _ Hload
              eq_refl eq_refl eq_refl eq_refl eq_refl) as (kept & Hkept & _).
  by exists kept.
Defined.

(** X22. In binary32, after a [Load] that succeeds, every vertex of every
    sub-mesh of the file lies inside the bounds of the mesh: between the
    least and the greatest corner coordinate by coordinate, and no farther
    from the origin than the bounding radius. *)
Theorem Load_bounds_hold_every_vertex
    `{!MathDX binary32.float, !D3D11, !FloatBytes binary32.float}
    (importFile : CImportXFile binary32.float) (fileName : string)
    (shaderCode : Technique) (needTangents : bool) (m m' : CMesh binary32.float)
    (dev dev' : Device) (ev : list (MeshEvent binary32.float))
    (i j : nat) (sub : SSubMesh) :
  Load importFile fileName shaderCode needTangents m dev = Returns (true, m', dev', ev) →
  (N.of_nat (length (GetSubMeshes importFile needTangents)) < 2 ^ 32)%N →
  GetSubMeshes importFile needTangents !! i = Some sub →
  j < N.to_nat (numVertices sub) →
  ∃ v, read_coord (vertices sub) (N.of_nat j * vertexSize sub) = Some v
       ∧ within v (bounds_of m').
Proof.
  intros Hload Hlen Hsub Hj.
  assert (IsXFile importFile = true ∧ ImportFile importFile = kSuccess) as [HX Himp].
  { unfold Load in Hload. destruct (IsXFile importFile); [|done].
    by destruct (ImportFile importFile). }
  destruct (Load_Returns _ _ _ _ _ _ _ _ _ _ Hload HX Himp)
    as (m0 & ev0 & H0 & ok1 & m1 & dev1 & ev1 & H1
        & [(_ & [=] & _)|(-> & ok2 & m2 & dev2 & ev2 & H2 & _
                         & [(_ & [=] & _)|(-> & ok3 & m3 & H3
                                          & [(_ & [=] & _)|(-> & _ & -> & _)])])]).
  apply load_subMeshes_true in H2 as (new' & Hnew' & -> & _); [|done].
  apply PreProcess_Returns in H3
    as [(_ & [=] & _)|[(? & _ & _ & _ & [=] & _)
                      |(sub0 & first & lo & hi & radius & _ & _ & _ & _ & Hloop & ->)]].
  apply (@bound_subMeshes_true _ binary32.arith _ _ _
           binary32_order.ltb_irrefl binary32_order.ltb_trans) in Hloop as [_ Hall].
  cbn -[TUInt32 N.of_nat] in Hall.
  rewrite N.add_0_l, TUInt32_small, Nat2N.id in Hall by done.
  destruct (Hall i) as (sub' & Hsub' & _ & Hin); [by eapply lookup_lt_Some|].
  change (N.to_nat 0 + i)%nat with i in Hsub'.
  assert (sub' = sub) as -> by congruence.
  exact (Hin j Hj).
Qed.

(** The square, loaded again from its file: its last vertex, (1, 1, 0), lies
    inside the bounds. *)
Lemma Load_bounds_hold_every_vertex_witness :
  ∃ (m' : @CMesh _ binary32.standin_mathdx standin_d3d11) ev v,
    Load square_file "square.x" (1%N : @Technique standin_d3d11) false
      square_mesh (tt : @Device standin_d3d11)
    = Returns (true, m', tt, ev)
    ∧ read_coord (vertices square) (N.of_nat 3 * vertexSize square) = Some v
    ∧ @within _ _ binary32.standin_mathdx v (bounds_of m').
Proof.
  assert (Load square_file "square.x" (1%N : @Technique standin_d3d11) false
            square_mesh (tt : @Device standin_d3d11)
          = square_reloaded) as Hload
    by exact_no_check (eq_refl square_reloaded).
  unfold square_reloaded in Hload.
  do 2 eexists.
  destruct (Load_bounds_hold_every_vertex _ _ _ _ _ _ _ _ _ 0 3 square Hload
              eq_refl eq_refl)
    as (v & Hv & Hin); [cbn; lia|].
  exists v. split_and!; [exact Hload|exact Hv|exact Hin].
Defined.
